(** * The PostgreSQL repository of Things (things/postgres/things.go)

    A shallow embedding of the repository: the metadata codec
    ([toDBThing], [toThing]), the write operations ([Save], [Update],
    [UpdateKey], [Remove]) and the read operations ([RetrieveByID],
    [RetrieveAll], [RetrieveByChannel]), over an explicit model of the
    database handle they are given. *)

From Stdlib Require Import String Ascii List ZArith NArith Lia Bool.
From Stdlib Require Import DecimalString DecimalZ.
From Stdlib Require DecimalPos DecimalFacts OrderedTypeEx.
Import ListNotations.

Set Warnings "-register-all".

Local Open Scope list_scope.
Local Open Scope string_scope.

(** ** encoding/json

    The part of Go's [encoding/json] the repository goes through:
    [json.Marshal] of a [map[string]interface{}] and [json.Unmarshal]
    into one.  Serialized documents are byte strings.

    Scope of the model.  Strings are byte strings, read as UTF-8 the way
    the library reads them: the encoder writes a byte that is not part of
    a well-formed sequence as the escape of U+FFFD and the decoder turns
    it into U+FFFD.  A Go [int] is an integer; the decoder gives every
    integer literal as the nearest [float64] ([round64]).  A [float64]
    is modelled where it holds an integer ([Float64 n]); its digits are
    those [encoding/json] prints when |n| <= 2^53.  Numbers that are not
    integers have no value in the model: the decoder of the model refuses
    a literal with a fraction or an exponent, which the library reads;
    it takes no account of the overflow of a literal from 2^1024 on, nor
    of the 10000 levels of nesting at which the library stops.  The
    properties below that depend on what a document reads back as are
    stated for the values within that scope ([modelled]). *)
Module json.

(** The dynamic values an [interface{}] of a metadata mapping can hold.
    A map is given by its entries in increasing key order, the order in
    which [json.Marshal] writes a Go map. *)
Inductive Value : Type :=
| Nil                                  (* nil *)
| Bool (b : bool)                      (* bool *)
| Float64 (n : Z)                      (* float64 holding the integer n *)
| Int (n : Z)                          (* int *)
| Str (s : string)                     (* string *)
| Slice (l : list Value)               (* []interface{} *)
| Map (m : list (string * Value))      (* map[string]interface{} *)
| Chan.                                (* chan int: no JSON encoding *)

Inductive Error : Type :=
| UnsupportedTypeError
| SyntaxError
| UnmarshalTypeError.

Definition dquote : ascii := "034"%char.
Definition backslash : ascii := "092"%char.

Definition bind {A B} (o : option A) (f : A -> option B) : option B :=
  match o with Some a => f a | None => None end.

(** *** Encoding *)

Definition hex_digit (n : N) : ascii :=
  ascii_of_N (if (n <? 10)%N then 48 + n else 87 + n)%N.

(** One ASCII byte of a string, as the encoder writes it with HTML
    escaping on (the setting of [json.Marshal]): the short escapes, then
    [\u00XX] for the other control characters and for [<], [>], [&].
    The short escapes of backspace and form feed are those of Go 1.22 and
    later; earlier releases wrote [\u0008] and [\u000c], which the
    decoder reads as the same bytes. *)
Definition escape_char (c : ascii) : string :=
  if Ascii.eqb c dquote then String backslash (String dquote "")
  else if Ascii.eqb c backslash then String backslash (String backslash "")
  else if Ascii.eqb c "008"%char then String backslash "b"
  else if Ascii.eqb c "012"%char then String backslash "f"
  else if Ascii.eqb c "010"%char then String backslash "n"
  else if Ascii.eqb c "013"%char then String backslash "r"
  else if Ascii.eqb c "009"%char then String backslash "t"
  else if (N_of_ascii c <? 32)%N || Ascii.eqb c "<"%char
          || Ascii.eqb c ">"%char || Ascii.eqb c "&"%char
  then String backslash
         (String "u" (String "0" (String "0"
           (String (hex_digit (N_of_ascii c / 16))
             (String (hex_digit (N_of_ascii c mod 16)) "")))))
  else String c "".

Definition between (lo hi : N) (c : ascii) : bool :=
  (lo <=? N_of_ascii c)%N && (N_of_ascii c <=? hi)%N.

(** A continuation byte of UTF-8. *)
Definition cont (c : ascii) : bool := between 128 191 c.

(** The second byte a lead byte accepts: the ranges that keep overlong
    forms, surrogate halves and code points above U+10FFFF out. *)
Definition second (c c1 : ascii) : bool :=
  if (N_of_ascii c =? 224)%N then between 160 191 c1
  else if (N_of_ascii c =? 237)%N then between 128 159 c1
  else if (N_of_ascii c =? 240)%N then between 144 191 c1
  else if (N_of_ascii c =? 244)%N then between 128 143 c1
  else cont c1.

(** [utf8.DecodeRune] at a byte [c] followed by [r]: the number of bytes
    that follow [c] in the well-formed sequence that starts there; [0]
    when there is none (the library's [RuneError] of width 1). *)
Definition rune_len (c : ascii) (r : string) : nat :=
  if between 194 223 c then
    match r with
    | String c1 _ => if cont c1 then 1 else 0
    | EmptyString => 0
    end
  else if between 224 239 c then
    match r with
    | String c1 (String c2 _) => if second c c1 && cont c2 then 2 else 0
    | _ => 0
    end
  else if between 240 244 c then
    match r with
    | String c1 (String c2 (String c3 _)) =>
        if second c c1 && cont c2 && cont c3 then 3 else 0
    | _ => 0
    end
  else 0.

(** U+2028 and U+2029, which the encoder always escapes. *)
Definition line_separator (c c1 c2 : ascii) : bool :=
  (N_of_ascii c =? 226)%N && (N_of_ascii c1 =? 128)%N
  && ((N_of_ascii c2 =? 168)%N || (N_of_ascii c2 =? 169)%N).

(** The escape [\ufffd] written for a byte that is not UTF-8. *)
Definition escaped_replacement : string := String backslash "ufffd".

(** The bytes of a string as the encoder writes them between the quotes:
    ASCII through [escape_char], a well-formed sequence as it is (the two
    line separators escaped), any other byte as [\ufffd]. *)
Fixpoint escape (s : string) : string :=
  match s with
  | EmptyString => ""
  | String c r =>
      if (N_of_ascii c <? 128)%N then escape_char c ++ escape r
      else
        match rune_len c r, r with
        | 1, String c1 r1 => String c (String c1 (escape r1))
        | 2, String c1 (String c2 r2) =>
            if line_separator c c1 c2
            then String backslash
                   (String "u" (String "2" (String "0" (String "2"
                     (String (hex_digit (N_of_ascii c2 mod 16)) (escape r2))))))
            else String c (String c1 (String c2 (escape r2)))
        | 3, String c1 (String c2 (String c3 r3)) =>
            String c (String c1 (String c2 (String c3 (escape r3))))
        | _, _ => escaped_replacement ++ escape r
        end
  end.

Definition quote (s : string) : string :=
  String dquote (escape s ++ String dquote "").

Definition format_int (n : Z) : string :=
  NilZero.string_of_int (Z.to_int n).

(** [json.Marshal] on a value: [None] when the value holds something
    without a JSON encoding. *)
Fixpoint encode (v : Value) : option string :=
  match v with
  | Nil => Some "null"
  | Bool true => Some "true"
  | Bool false => Some "false"
  | Float64 n => Some (format_int n)
  | Int n => Some (format_int n)
  | Str s => Some (quote s)
  | Slice [] => Some "[]"
  | Slice (v :: vs) =>
      bind (encode v) (fun a =>
      bind ((fix tail (l : list Value) : option string :=
               match l with
               | [] => Some "]"
               | w :: ws =>
                   bind (encode w) (fun x =>
                   bind (tail ws) (fun y => Some ("," ++ x ++ y)))
               end) vs) (fun b =>
      Some ("[" ++ a ++ b)))
  | Map [] => Some "{}"
  | Map ((k, v) :: ms) =>
      bind (encode v) (fun a =>
      bind ((fix tail (l : list (string * Value)) : option string :=
               match l with
               | [] => Some "}"
               | (k', w) :: ws =>
                   bind (encode w) (fun x =>
                   bind (tail ws) (fun y =>
                   Some ("," ++ quote k' ++ ":" ++ x ++ y)))
               end) ms) (fun b =>
      Some ("{" ++ quote k ++ ":" ++ a ++ b)))
  | Chan => None
  end.

Definition Marshal (m : list (string * Value)) : string * option Error :=
  match encode (Map m) with
  | Some b => (b, None)
  | None => ("", Some UnsupportedTypeError)
  end.

(** *** Decoding *)

Definition is_space (c : ascii) : bool :=
  Ascii.eqb c " "%char || Ascii.eqb c "009"%char
  || Ascii.eqb c "010"%char || Ascii.eqb c "013"%char.

Fixpoint skip_space (s : string) : string :=
  match s with
  | String c r => if is_space c then skip_space r else s
  | EmptyString => s
  end.

Definition hex_value (c : ascii) : option N :=
  let n := N_of_ascii c in
  if (48 <=? n)%N && (n <=? 57)%N then Some (n - 48)%N
  else if (97 <=? n)%N && (n <=? 102)%N then Some (n - 87)%N
  else if (65 <=? n)%N && (n <=? 70)%N then Some (n - 55)%N
  else None.

(** [utf8.EncodeRune]: the UTF-8 bytes of a code point; a surrogate half
    is written as U+FFFD. *)
Definition utf8 (cp : N) : string :=
  if (cp <? 128)%N then String (ascii_of_N cp) ""
  else if (cp <? 2048)%N then
    String (ascii_of_N (192 + cp / 64)) (String (ascii_of_N (128 + cp mod 64)) "")
  else if (cp <? 65536)%N then
    let cp := if (55296 <=? cp)%N && (cp <=? 57343)%N then 65533%N else cp in
    String (ascii_of_N (224 + cp / 4096))
      (String (ascii_of_N (128 + (cp / 64) mod 64))
        (String (ascii_of_N (128 + cp mod 64)) ""))
  else
    String (ascii_of_N (240 + cp / 262144))
      (String (ascii_of_N (128 + (cp / 4096) mod 64))
        (String (ascii_of_N (128 + (cp / 64) mod 64))
          (String (ascii_of_N (128 + cp mod 64)) ""))).

(** U+FFFD in UTF-8. *)
Definition replacement : string := utf8 65533.

(** A string with every byte that is not part of a well-formed UTF-8
    sequence replaced by U+FFFD: what the decoder makes of the bytes of
    a string literal. *)
Fixpoint sanitize (s : string) : string :=
  match s with
  | EmptyString => ""
  | String c r =>
      if (N_of_ascii c <? 128)%N then String c (sanitize r)
      else
        match rune_len c r, r with
        | 1, String c1 r1 => String c (String c1 (sanitize r1))
        | 2, String c1 (String c2 r2) =>
            String c (String c1 (String c2 (sanitize r2)))
        | 3, String c1 (String c2 (String c3 r3)) =>
            String c (String c1 (String c2 (String c3 (sanitize r3))))
        | _, _ => replacement ++ sanitize r
        end
  end.

Definition with_prefix (p : string) (r : option (string * string))
  : option (string * string) :=
  match r with
  | Some (t, rest) => Some (p ++ t, rest)
  | None => None
  end.

(** The four hexadecimal digits of a [\u] escape. *)
Definition u4 (h1 h2 h3 h4 : ascii) : option N :=
  match hex_value h1, hex_value h2, hex_value h3, hex_value h4 with
  | Some a, Some b, Some c, Some d => Some (((a * 16 + b) * 16 + c) * 16 + d)%N
  | _, _, _, _ => None
  end.

Definition is_surrogate (cp : N) : bool := (55296 <=? cp)%N && (cp <=? 57343)%N.

(** [utf16.DecodeRune]: the code point of a high and a low surrogate. *)
Definition surrogate_pair (hi lo : N) : option N :=
  if (hi <? 56320)%N && (56320 <=? lo)%N && (lo <=? 57343)%N
  then Some (65536 + (hi - 55296) * 1024 + (lo - 56320))%N
  else None.

(** A string literal after its opening quote: the decoded string and the
    input after the closing quote.  A [\u] escape of a high surrogate
    followed by one of a low surrogate is one code point; a surrogate
    half on its own is U+FFFD; bytes that are not UTF-8 become U+FFFD. *)
Fixpoint unquote (s : string) : option (string * string) :=
  match s with
  | EmptyString => None
  | String c r =>
      if Ascii.eqb c dquote then Some ("", r)
      else if Ascii.eqb c backslash then
        match r with
        | String e r' =>
            if Ascii.eqb e dquote then with_prefix (String dquote "") (unquote r')
            else if Ascii.eqb e backslash then with_prefix (String backslash "") (unquote r')
            else if Ascii.eqb e "/"%char then with_prefix "/" (unquote r')
            else if Ascii.eqb e "b"%char then with_prefix (String "008"%char "") (unquote r')
            else if Ascii.eqb e "f"%char then with_prefix (String "012"%char "") (unquote r')
            else if Ascii.eqb e "n"%char then with_prefix (String "010"%char "") (unquote r')
            else if Ascii.eqb e "r"%char then with_prefix (String "013"%char "") (unquote r')
            else if Ascii.eqb e "t"%char then with_prefix (String "009"%char "") (unquote r')
            else if Ascii.eqb e "u"%char then
              match r' with
              | String h1 (String h2 (String h3 (String h4 r''))) =>
                  match u4 h1 h2 h3 h4 with
                  | Some cp =>
                      if is_surrogate cp then
                        match r'' with
                        | String b (String u (String h5 (String h6
                            (String h7 (String h8 r3))))) =>
                            match (if Ascii.eqb b backslash && Ascii.eqb u "u"%char
                                   then bind (u4 h5 h6 h7 h8) (surrogate_pair cp)
                                   else None) with
                            | Some cp' => with_prefix (utf8 cp') (unquote r3)
                            | None => with_prefix replacement (unquote r'')
                            end
                        | _ => with_prefix replacement (unquote r'')
                        end
                      else with_prefix (utf8 cp) (unquote r'')
                  | None => None
                  end
              | _ => None
              end
            else None
        | EmptyString => None
        end
      else if (N_of_ascii c <? 32)%N then None
      else if (N_of_ascii c <? 128)%N then with_prefix (String c "") (unquote r)
      else
        match rune_len c r, r with
        | 1, String c1 r1 => with_prefix (String c (String c1 "")) (unquote r1)
        | 2, String c1 (String c2 r2) =>
            with_prefix (String c (String c1 (String c2 ""))) (unquote r2)
        | 3, String c1 (String c2 (String c3 r3)) =>
            with_prefix (String c (String c1 (String c2 (String c3 "")))) (unquote r3)
        | _, _ => with_prefix replacement (unquote r)
        end
  end.

Definition is_digit (c : ascii) : bool :=
  (48 <=? N_of_ascii c)%N && (N_of_ascii c <=? 57)%N.

Fixpoint span_digits (s : string) : string * string :=
  match s with
  | String c r =>
      if is_digit c then let (d, rest) := span_digits r in (String c d, rest)
      else ("", s)
  | EmptyString => ("", "")
  end.

Definition starts_fraction (s : string) : bool :=
  match s with
  | String c _ => Ascii.eqb c "."%char || Ascii.eqb c "e"%char || Ascii.eqb c "E"%char
  | EmptyString => false
  end.

(** More than one digit, the first of them a zero. *)
Definition leading_zero (ds : string) : bool :=
  match ds with
  | String c (String _ _) => Ascii.eqb c "0"%char
  | _ => false
  end.

(** An integer literal (an optional minus sign, then a single zero or
    digits that do not start with zero) and the input after it. *)
Definition parse_int (s : string) : option (Z * string) :=
  let (neg, s1) :=
    match s with
    | String c r => if Ascii.eqb c "-"%char then (true, r) else (false, s)
    | EmptyString => (false, s)
    end in
  let (ds, rest) := span_digits s1 in
  if starts_fraction rest || String.eqb ds "" || leading_zero ds then None
  else option_map (fun u => ((if neg then - Z.of_uint u else Z.of_uint u)%Z, rest))
                  (NilEmpty.uint_of_string ds).

(** [strconv.ParseFloat] on an integer: the nearest [float64], a tie
    going to the even mantissa.  The integers up to 2^53 are exact; a
    larger one keeps its 53 leading bits. *)
Definition round64 (n : Z) : Z :=
  let a := Z.abs n in
  if (a <=? 2 ^ 53)%Z then n
  else
    let e := (Z.log2 a - 52)%Z in
    let q := (a / 2 ^ e)%Z in
    let r := (a mod 2 ^ e)%Z in
    let half := (2 ^ (e - 1))%Z in
    let q' := if (half <? r)%Z || ((r =? half)%Z && Z.odd q) then (q + 1)%Z else q in
    (Z.sgn n * (q' * 2 ^ e))%Z.

Fixpoint strip_prefix (p s : string) : option string :=
  match p, s with
  | EmptyString, _ => Some s
  | String a p', String b s' => if Ascii.eqb a b then strip_prefix p' s' else None
  | String _ _, EmptyString => None
  end.

(** Assignment [m[k] = v] on a map kept in increasing key order. *)
Fixpoint map_insert (k : string) (v : Value) (m : list (string * Value))
  : list (string * Value) :=
  match m with
  | [] => [(k, v)]
  | (k', v') :: m' =>
      match String.compare k k' with
      | Lt => (k, v) :: m
      | Eq => (k, v) :: m'
      | Gt => (k', v') :: map_insert k v m'
      end
  end.

Definition map_of_members (ms : list (string * Value)) : list (string * Value) :=
  fold_left (fun m kv => map_insert (fst kv) (snd kv) m) ms [].

(** The decoder into [interface{}]: a JSON value at the head of the input,
    after optional white space, and the input after it.  A number is a
    [float64].  [fuel] bounds the
    nesting and the number of elements; [Unmarshal] gives enough. *)
Fixpoint decode (fuel : nat) (s : string) : option (Value * string) :=
  match fuel with
  | O => None
  | S fuel =>
      match skip_space s with
      | EmptyString => None
      | String c r =>
          if Ascii.eqb c "n"%char then
            option_map (fun rest => (Nil, rest)) (strip_prefix "ull" r)
          else if Ascii.eqb c "t"%char then
            option_map (fun rest => (Bool true, rest)) (strip_prefix "rue" r)
          else if Ascii.eqb c "f"%char then
            option_map (fun rest => (Bool false, rest)) (strip_prefix "alse" r)
          else if Ascii.eqb c dquote then
            option_map (fun tr => (Str (fst tr), snd tr)) (unquote r)
          else if Ascii.eqb c "["%char then
            match skip_space r with
            | String c' r' =>
                if Ascii.eqb c' "]"%char then Some (Slice [], r')
                else
                  bind (decode fuel r) (fun vr =>
                  bind (decode_elems fuel (snd vr)) (fun lr =>
                  Some (Slice (fst vr :: fst lr), snd lr)))
            | EmptyString => None
            end
          else if Ascii.eqb c "{"%char then
            match skip_space r with
            | String c' r' =>
                if Ascii.eqb c' "}"%char then Some (Map [], r')
                else
                  bind (decode_member fuel r) (fun mr =>
                  bind (decode_members fuel (snd mr)) (fun lr =>
                  Some (Map (map_of_members (fst mr :: fst lr)), snd lr)))
            | EmptyString => None
            end
          else
            option_map (fun nr => (Float64 (round64 (fst nr)), snd nr))
                       (parse_int (String c r))
      end
  end

(** After an array element: [,] and another element, or the closing [\]]. *)
with decode_elems (fuel : nat) (s : string) : option (list Value * string) :=
  match fuel with
  | O => None
  | S fuel =>
      match skip_space s with
      | String c r =>
          if Ascii.eqb c "]"%char then Some ([], r)
          else if Ascii.eqb c ","%char then
            bind (decode fuel r) (fun vr =>
            bind (decode_elems fuel (snd vr)) (fun lr =>
            Some (fst vr :: fst lr, snd lr)))
          else None
      | EmptyString => None
      end
  end

(** One member [key : value] of an object. *)
with decode_member (fuel : nat) (s : string)
  : option ((string * Value) * string) :=
  match fuel with
  | O => None
  | S fuel =>
      match skip_space s with
      | String c r =>
          if Ascii.eqb c dquote then
            bind (unquote r) (fun kr =>
            match skip_space (snd kr) with
            | String c' r' =>
                if Ascii.eqb c' ":"%char then
                  bind (decode fuel r') (fun vr =>
                  Some ((fst kr, fst vr), snd vr))
                else None
            | EmptyString => None
            end)
          else None
      | EmptyString => None
      end
  end

(** After an object member: [,] and another member, or the closing [}]. *)
with decode_members (fuel : nat) (s : string)
  : option (list (string * Value) * string) :=
  match fuel with
  | O => None
  | S fuel =>
      match skip_space s with
      | String c r =>
          if Ascii.eqb c "}"%char then Some ([], r)
          else if Ascii.eqb c ","%char then
            bind (decode_member fuel r) (fun mr =>
            bind (decode_members fuel (snd mr)) (fun lr =>
            Some (fst mr :: fst lr, snd lr)))
          else None
      | EmptyString => None
      end
  end.

(** [json.Unmarshal(data, &m)] for [var m map[string]interface{}]: the
    document [null] leaves [m] nil ([None]); an object allocates the map;
    any other JSON value is a type error; anything else, and any input
    left after the value, a syntax error. *)
Definition Unmarshal (data : string)
  : option (list (string * Value)) * option Error :=
  match decode (S (String.length data)) data with
  | Some (v, rest) =>
      match skip_space rest with
      | EmptyString =>
          match v with
          | Map m => (Some m, None)
          | Nil => (None, None)
          | _ => (None, Some UnmarshalTypeError)
          end
      | String _ _ => (None, Some SyntaxError)
      end
  | None => (None, Some SyntaxError)
  end.

End json.

(** A Go slice: [None] is the nil slice, [Some []] the empty one. *)
Definition slice (A : Type) : Type := option (list A).

Definition elements {A} (s : slice A) : list A :=
  match s with Some l => l | None => [] end.

(** [append(s, x)] *)
Definition append {A} (s : slice A) (x : A) : slice A :=
  Some (elements s ++ [x])%list.

(** A Go [map[string]interface{}]: [None] is the nil map. *)
Definition gomap : Type := option (list (string * json.Value)).

Definition len (m : gomap) : nat :=
  match m with Some l => List.length l | None => 0 end.

(** ** Package things: the domain types and the error kinds *)
Module things.

(** Modelled from the spec: the declaration of [Thing] is not among the
    sources; the data model gives it an ID, an Owner, a Name, a Key and a
    Metadata mapping. *)
Record Thing : Type := mkThing {
  ID : string;
  Owner : string;
  Name : string;
  Key : string;
  Metadata : gomap
}.

(** Modelled from the spec: the declaration of [Page] is not among the
    sources; a page is a sequence of Things with
    [PageMetadata{Total, Offset, Limit}]. *)
Record Page : Type := mkPage {
  Things : slice Thing;
  Total : N;
  Offset : N;
  Limit : N
}.

(** Modelled from the spec: the sentinel errors of the package, one for
    each error kind of the taxonomy; [ErrViewEntity] is the one more the
    repository names. *)
Inductive Kind : Type :=
| ErrMalformedEntity
| ErrConflict
| ErrNotFound
| ErrCreateEntity
| ErrUpdateEntity
| ErrSelectEntity
| ErrViewEntity
| ErrRemoveEntity.

End things.

(** ** Package errors, and the error values of the libraries *)
Module errors.

(** A non-nil Go [error] reaching the repository: the errors of the
    libraries it calls, and the errors of package errors itself, which
    carry a kind and the cause they wrap, if any. *)
Inductive Err : Type :=
| ErrNoRows                        (* sql.ErrNoRows *)
| PqError (name : string)          (* a pq.Error whose Code.Name() is name *)
| DriverError (msg : string)       (* any other error of database/sql *)
| JSONError (e : json.Error)       (* an error of encoding/json *)
| UUIDError                        (* an error of uuid.FromString *)
| Custom (msg : things.Kind) (err : option Err).

(** The Go type [error]: [None] is nil. *)
Definition error : Type := option Err.

(** Modelled from the spec: package errors is not among the sources; a
    failure is "wrapped with one of these kinds plus the underlying cause",
    and wrapping no error gives the kind alone. *)
Definition New (k : things.Kind) : error := Some (Custom k None).

Definition Wrap (wrapper : things.Kind) (err : error) : error :=
  Some (Custom wrapper err).

(** The kind callers branch on: that of the outermost wrapper. *)
Definition kind (e : error) : option things.Kind :=
  match e with
  | Some (Custom k _) => Some k
  | _ => None
  end.

(** The cause directly under the outermost wrapper. *)
Definition cause (e : error) : error :=
  match e with
  | Some (Custom _ c) => c
  | _ => None
  end.

End errors.

(** ** Package uuid *)
Module uuid.

Definition is_hex (c : ascii) : bool :=
  match json.hex_value c with Some _ => true | None => false end.

Fixpoint all_hex (s : string) : bool :=
  match s with
  | EmptyString => true
  | String c r => is_hex c && all_hex r
  end.

(** The canonical text form: 8-4-4-4-12 hexadecimal digits. *)
Definition canonical (s : string) : bool :=
  (String.length s =? 36)%nat
  && all_hex (substring 0 8 s) && String.eqb (substring 8 1 s) "-"
  && all_hex (substring 9 4 s) && String.eqb (substring 13 1 s) "-"
  && all_hex (substring 14 4 s) && String.eqb (substring 18 1 s) "-"
  && all_hex (substring 19 4 s) && String.eqb (substring 23 1 s) "-"
  && all_hex (substring 24 12 s).

(** [uuid.FromString]: the error only.  The text forms accepted are the
    canonical one and 32 bare hexadecimal digits, each of them also in
    braces or after [urn:uuid:]. *)
Definition FromString (s : string) : errors.error :=
  let n := String.length s in
  if ((n =? 36)%nat && canonical s)
     || ((n =? 32)%nat && all_hex s)
     || ((n =? 38)%nat && String.eqb (substring 0 1 s) "{"
         && canonical (substring 1 36 s) && String.eqb (substring 37 1 s) "}")
     || ((n =? 34)%nat && String.eqb (substring 0 1 s) "{"
         && all_hex (substring 1 32 s) && String.eqb (substring 33 1 s) "}")
     || ((n =? 45)%nat && String.eqb (substring 0 9 s) "urn:uuid:"
         && canonical (substring 9 36 s))
     || ((n =? 41)%nat && String.eqb (substring 0 9 s) "urn:uuid:"
         && all_hex (substring 9 32 s))
  then None
  else Some errors.UUIDError.

End uuid.

(** ** Package postgres *)
Module postgres.
Import errors.

Definition errDuplicate : string := "unique_violation".
Definition errFK : string := "foreign_key_violation".
Definition errInvalid : string := "invalid_text_representation".
Definition errTruncation : string := "string_data_right_truncation".

Record dbThing : Type := mkDbThing {
  ID : string;        (* db:"id" *)
  Owner : string;     (* db:"owner" *)
  Name : string;      (* db:"name" *)
  Key : string;       (* db:"key" *)
  Metadata : string   (* db:"metadata", a []byte *)
}.

(** The zero values [dbThing{}], [things.Thing{}] and [things.Page{}]. *)
Definition dbThing_zero : dbThing := mkDbThing "" "" "" "" "".
Definition Thing_zero : things.Thing := things.mkThing "" "" "" "" None.
Definition Page_zero : things.Page := things.mkPage None 0 0 0.

(** *** The database handle

    A value bound to a statement or read from a column. *)
Inductive Arg : Type :=
| ArgNull
| ArgString (s : string)
| ArgUint (n : N)
| ArgBytes (b : string).

(** The columns of a result row, or the named parameters of a statement,
    by name. *)
Definition Columns : Type := list (string * Arg).

(** [sql.Result]: the affected-row count, or the error of asking for it. *)
Record Result : Type := mkResult { RowsAffected : Z * error }.

(** Modelled from the spec: the declaration of the interface [Database]
    is not among the sources.  It is the "generic relational-query
    executor" the repository depends on, with the methods the repository
    calls on it and on the transaction handle [BeginTxx] gives.  A call
    takes the state of the store and gives the state after it, with its
    result or a non-nil error; the [context.Context] every call passes on
    is left out. *)
Class Database (DB : Type) : Type := {
  Tx : Type;
  BeginTxx : DB -> (Tx + Err) * DB;
  Tx_NamedExecContext : Tx -> string -> dbThing -> DB -> (Result + Err) * DB;
  Tx_Rollback : Tx -> DB -> error * DB;
  Tx_Commit : Tx -> DB -> error * DB;
  NamedExecContext : string -> dbThing -> DB -> (Result + Err) * DB;
  QueryRowxContext : string -> list Arg -> DB -> (Columns + Err) * DB;
  NamedQueryContext : string -> Columns -> DB -> (list Columns + Err) * DB;
  GetContext : string -> list Arg -> DB -> (N + Err) * DB
}.

(** The type assertion of an error to a pointer to [pq.Error], giving
    [pqErr.Code.Name()] when it holds. *)
Definition asPqError (err : Err) : option string :=
  match err with
  | PqError name => Some name
  | _ => None
  end.

(** Assignment of a column value to a [string] field and to a [[]byte]
    field, as [database/sql] converts it. *)
Definition scanString (a : Arg) : string + Err :=
  match a with
  | ArgNull => inr (DriverError "converting NULL to string is unsupported")
  | ArgString s => inl s
  | ArgUint n => inl (NilZero.string_of_uint (N.to_uint n))
  | ArgBytes b => inl b
  end.

Definition scanBytes (a : Arg) : string + Err :=
  match a with
  | ArgNull => inl ""
  | ArgString s => inl s
  | ArgUint n => inl (NilZero.string_of_uint (N.to_uint n))
  | ArgBytes b => inl b
  end.

(** The error of [Scan(&id)] on a row that does not have exactly one
    column: [database/sql] checks the number of destinations first. *)
Definition scan_arity (n : nat) : string :=
  "sql: expected " ++ NilZero.string_of_uint (Nat.to_uint n)
  ++ " destination arguments in Scan, not 1".

(** [StructScan(&dbth)] of sqlx: every column goes to the field that
    carries its name in the [db] tag. *)
Fixpoint StructScan (cols : Columns) (dbth : dbThing) : dbThing * error :=
  match cols with
  | [] => (dbth, None)
  | (name, a) :: rest =>
      let set (conv : Arg -> string + Err) (upd : string -> dbThing) :=
        match conv a with
        | inl s => StructScan rest (upd s)
        | inr e => (dbth, Some e)
        end in
      if String.eqb name "id" then
        set scanString (fun s => mkDbThing s (Owner dbth) (Name dbth) (Key dbth) (Metadata dbth))
      else if String.eqb name "owner" then
        set scanString (fun s => mkDbThing (ID dbth) s (Name dbth) (Key dbth) (Metadata dbth))
      else if String.eqb name "name" then
        set scanString (fun s => mkDbThing (ID dbth) (Owner dbth) s (Key dbth) (Metadata dbth))
      else if String.eqb name "key" then
        set scanString (fun s => mkDbThing (ID dbth) (Owner dbth) (Name dbth) s (Metadata dbth))
      else if String.eqb name "metadata" then
        set scanBytes (fun s => mkDbThing (ID dbth) (Owner dbth) (Name dbth) (Key dbth) s)
      else (dbth, Some (DriverError "missing destination name"))
  end.

(** *** The codec between Things and rows (lines 336-376) *)

Definition toDBThing (th : things.Thing) : dbThing * error :=
  let data := "{}" in
  if (0 <? len (things.Metadata th))%nat then
    let (b, err) := json.Marshal (elements (things.Metadata th)) in
    match err with
    | Some e => (dbThing_zero, Wrap things.ErrMalformedEntity (Some (JSONError e)))
    | None =>
        let data := b in
        (mkDbThing (things.ID th) (things.Owner th) (things.Name th)
                   (things.Key th) data, None)
    end
  else
    (mkDbThing (things.ID th) (things.Owner th) (things.Name th)
               (things.Key th) data, None).

Definition toThing (dbth : dbThing) : things.Thing * error :=
  let (metadata, err) := json.Unmarshal (Metadata dbth) in
  match err with
  | Some e => (Thing_zero, Wrap things.ErrMalformedEntity (Some (JSONError e)))
  | None =>
      (things.mkThing (ID dbth) (Owner dbth) (Name dbth) (Key dbth) metadata,
       None)
  end.

(** *** The predicate builders and the count helper *)

(** Modelled from the spec: [getNameQuery] is not among the sources.  An
    empty name gives the neutral fragment; any other name a match of the
    column against a pattern derived from it (the name, then a wildcard). *)
Definition getNameQuery (name : string) : string * string :=
  if String.eqb name "" then ("", name)
  else (" AND name LIKE :name", name ++ "%").

(** Modelled from the spec: [getMetadataQuery] is not among the sources.
    An empty mapping gives the neutral fragment and the empty object;
    any other mapping is encoded and matched by containment, and a failure
    to encode is the failure of the codec. *)
Definition getMetadataQuery (m : gomap) : string * string * error :=
  if (0 <? len m)%nat then
    let (b, err) := json.Marshal (elements m) in
    match err with
    | Some e => ("", "", Wrap things.ErrMalformedEntity (Some (JSONError e)))
    | None => (b, " AND metadata @> :metadata", None)
    end
  else ("{}", "", None).

Section Repository.

Context {DB : Type} `{Database DB}.

(** Modelled from the spec: [total] is not among the sources.  It runs the
    count query and reads the count off the first row. *)
Definition total (query : string) (params : Columns) (db : DB)
  : (N * error) * DB :=
  match NamedQueryContext query params db with
  | (inr err, db) => ((0%N, Some err), db)
  | (inl rows, db) =>
      match rows with
      | ((_, ArgUint n) :: _) :: _ => ((n, None), db)
      | [] => ((0%N, None), db)
      | _ => ((0%N, Some (DriverError "unsupported Scan")), db)
      end
  end.

(** *** Save (things.go, lines 39-75) *)

(** The statements are written on one line here; the source breaks them
    over several. *)
Definition insertThing : string :=
  "INSERT INTO things (id, owner, name, key, metadata) VALUES (:id, :owner, :name, :key, :metadata);".

(** The loop of [Save] over the Things of the call: [Some] is the error
    the loop returns with, [None] its normal end. *)
Fixpoint Save_range (tx : Tx) (q : string) (ths : list things.Thing) (db : DB)
  : error * DB :=
  match ths with
  | [] => (None, db)
  | thing :: ths =>
      let (dbth, err) := toDBThing thing in
      match err with
      | Some _ => (Wrap things.ErrCreateEntity err, db)
      | None =>
          match Tx_NamedExecContext tx q dbth db with
          | (inr err, db) =>
              let (_, db) := Tx_Rollback tx db in
              match asPqError err with
              | Some name =>
                  if String.eqb name errInvalid || String.eqb name errTruncation
                  then (Wrap things.ErrMalformedEntity (Some err), db)
                  else if String.eqb name errDuplicate
                  then (Wrap things.ErrConflict (Some err), db)
                  else (Wrap things.ErrCreateEntity (Some err), db)
              | None => (Wrap things.ErrCreateEntity (Some err), db)
              end
          | (inl _, db) => Save_range tx q ths db
          end
      end
  end.

Definition Save (ths : slice things.Thing) (db : DB)
  : (slice things.Thing * error) * DB :=
  match BeginTxx db with
  | (inr err, db) => ((Some [], Wrap things.ErrCreateEntity (Some err)), db)
  | (inl tx, db) =>
      let q := insertThing in
      match Save_range tx q (elements ths) db with
      | (Some e, db) => ((Some [], Some e), db)
      | (None, db) =>
          match Tx_Commit tx db with
          | (Some err, db) => ((Some [], Wrap things.ErrCreateEntity (Some err)), db)
          | (None, db) => ((ths, None), db)
          end
      end
  end.

(** *** Update (lines 77-108) *)

Definition updateThing : string :=
  "UPDATE things SET name = :name, metadata = :metadata WHERE owner = :owner AND id = :id;".

Definition Update (t : things.Thing) (db : DB) : error * DB :=
  let q := updateThing in
  let (dbth, err) := toDBThing t in
  match err with
  | Some _ => (Wrap things.ErrUpdateEntity err, db)
  | None =>
      match NamedExecContext q dbth db with
      | (inr errdb, db) =>
          match asPqError errdb with
          | Some name =>
              if String.eqb name errInvalid || String.eqb name errTruncation
              then (Wrap things.ErrMalformedEntity (Some errdb), db)
              else (Wrap things.ErrUpdateEntity (Some errdb), db)
          | None => (Wrap things.ErrUpdateEntity (Some errdb), db)
          end
      | (inl res, db) =>
          let (cnt, errdb) := RowsAffected res in
          (* line 99 tests [err], the error of [toDBThing], and wraps [errdb] *)
          match err with
          | Some _ => (Wrap things.ErrUpdateEntity errdb, db)
          | None =>
              if (cnt =? 0)%Z then (New things.ErrNotFound, db)
              else (None, db)
          end
      end
  end.

(** *** UpdateKey (lines 110-144) *)

Definition updateThingKey : string :=
  "UPDATE things SET key = :key WHERE owner = :owner AND id = :id;".

Definition UpdateKey (owner id key : string) (db : DB) : error * DB :=
  let q := updateThingKey in
  let dbth := mkDbThing id owner "" key "" in
  match NamedExecContext q dbth db with
  | (inr err, db) =>
      match asPqError err with
      | Some name =>
          if String.eqb name errInvalid
          then (Wrap things.ErrMalformedEntity (Some err), db)
          else if String.eqb name errDuplicate
          then (Wrap things.ErrConflict (Some err), db)
          else (Wrap things.ErrUpdateEntity (Some err), db)
      | None => (Wrap things.ErrUpdateEntity (Some err), db)
      end
  | (inl res, db) =>
      let (cnt, err) := RowsAffected res in
      match err with
      | Some _ => (Wrap things.ErrUpdateEntity err, db)
      | None =>
          if (cnt =? 0)%Z then (New things.ErrNotFound, db)
          else (None, db)
      end
  end.

(** *** RetrieveByID (lines 146-163) *)

Definition selectThing : string :=
  "SELECT name, key, metadata FROM things WHERE id = $1 AND owner = $2;".

Definition RetrieveByID (owner id : string) (db : DB)
  : (things.Thing * error) * DB :=
  let q := selectThing in
  let dbth := mkDbThing id owner "" "" "" in
  let (row, db) := QueryRowxContext q [ArgString id; ArgString owner] db in
  let (dbth, err) :=
    match row with
    | inl cols => StructScan cols dbth
    | inr e => (dbth, Some e)
    end in
  match err with
  | Some e =>
      if match e with ErrNoRows => true | _ => false end
         || match asPqError e with
            | Some name => String.eqb errInvalid name
            | None => false
            end
      then ((Thing_zero, Wrap things.ErrNotFound err), db)
      else ((Thing_zero, Wrap things.ErrSelectEntity err), db)
  | None => (toThing dbth, db)
  end.

(** *** RetrieveByKey (lines 165-177) *)

Definition selectThingID : string :=
  "SELECT id FROM things WHERE key = $1;".

Definition RetrieveByKey (key : string) (db : DB) : (string * error) * DB :=
  let q := selectThingID in
  let (row, db) := QueryRowxContext q [ArgString key] db in
  let (id, err) :=
    match row with
    | inl [(_, a)] =>
        match scanString a with
        | inl s => (s, None)
        | inr e => ("", Some e)
        end
    | inl cols => ("", Some (DriverError (scan_arity (List.length cols))))
    | inr e => ("", Some e)
    end in
  match err with
  | Some e =>
      if match e with ErrNoRows => true | _ => false end
      then (("", Wrap things.ErrNotFound err), db)
      else (("", Wrap things.ErrSelectEntity err), db)
  | None => ((id, None), db)
  end.

(** *** RetrieveAll (lines 179-235) *)

(** The loop [for rows.Next()] of the two listings: every row is scanned
    into [dbThing{Owner: owner}], turned into a Thing and appended. *)
Fixpoint scanRows (owner : string) (rows : list Columns)
                  (items : slice things.Thing) : slice things.Thing * error :=
  match rows with
  | [] => (items, None)
  | cols :: rows =>
      let dbth := mkDbThing "" owner "" "" "" in
      let (dbth, err) := StructScan cols dbth in
      match err with
      | Some _ => (None, Wrap things.ErrSelectEntity err)
      | None =>
          let (th, err) := toThing dbth in
          match err with
          | Some _ => (None, Wrap things.ErrViewEntity err)
          | None => scanRows owner rows (append items th)
          end
      end
  end.

(** The page query and the count query of [RetrieveAll], for the
    fragments [mq] and [nq], and the parameters bound to both. *)
Definition selectPage (mq nq : string) : string :=
  "SELECT id, name, key, metadata FROM things WHERE owner = :owner "
  ++ mq ++ nq ++ " ORDER BY id LIMIT :limit OFFSET :offset;".

Definition countPage (nq mq : string) : string :=
  "SELECT COUNT(" ++ "*" ++ ") FROM things WHERE owner = :owner "
  ++ nq ++ mq ++ ";".

Definition pageParams (owner : string) (limit offset : N) (name m : string)
  : Columns :=
  [("owner", ArgString owner); ("limit", ArgUint limit);
   ("offset", ArgUint offset); ("name", ArgString name);
   ("metadata", ArgBytes m)].

Definition RetrieveAll (owner : string) (offset limit : N) (name : string)
                       (tm : gomap) (db : DB) : (things.Page * error) * DB :=
  let (nq, name) := getNameQuery name in
  let '(m, mq, err) := getMetadataQuery tm in
  match err with
  | Some _ => ((Page_zero, Wrap things.ErrSelectEntity err), db)
  | None =>
      let q := selectPage mq nq in
      let params := pageParams owner limit offset name m in
      match NamedQueryContext q params db with
      | (inr err, db) => ((Page_zero, Wrap things.ErrSelectEntity (Some err)), db)
      | (inl rows, db) =>
          let (items, err) := scanRows owner rows None in
          match err with
          | Some _ => ((Page_zero, err), db)
          | None =>
              let cq := countPage nq mq in
              match total cq params db with
              | ((_, Some err), db) =>
                  ((Page_zero, Wrap things.ErrSelectEntity (Some err)), db)
              | ((total, None), db) =>
                  ((things.mkPage items total offset limit, None), db)
              end
          end
      end
  end.

(** *** RetrieveByChannel (lines 237-322) *)

Definition selectConnected : string :=
  "SELECT id, name, key, metadata FROM things th INNER JOIN connections conn ON th.id = conn.thing_id WHERE th.owner = :owner AND conn.channel_id = :channel ORDER BY th.id LIMIT :limit OFFSET :offset;".

Definition countConnected : string :=
  "SELECT COUNT(" ++ "*" ++ ") FROM things th INNER JOIN connections conn ON th.id = conn.thing_id WHERE th.owner = $1 AND conn.channel_id = $2;".

Definition selectNotConnected : string :=
  "SELECT id, name, key, metadata FROM things th WHERE th.owner = :owner AND th.id NOT IN (SELECT id FROM things th INNER JOIN connections conn ON th.id = conn.thing_id WHERE th.owner = :owner AND conn.channel_id = :channel) ORDER BY th.id LIMIT :limit OFFSET :offset;".

Definition countNotConnected : string :=
  "SELECT COUNT(" ++ "*" ++ ") FROM things th WHERE th.owner = $1 AND th.id NOT IN (SELECT id FROM things th INNER JOIN connections conn ON th.id = conn.thing_id WHERE th.owner = $1 AND conn.channel_id = $2);".

Definition RetrieveByChannel (owner channel : string) (offset limit : N)
                             (connected : bool) (db : DB)
  : (things.Page * error) * DB :=
  match uuid.FromString channel with
  | Some _ => ((Page_zero, New things.ErrNotFound), db)
  | None =>
      let (q, qc) :=
        if connected then (selectConnected, countConnected)
        else (selectNotConnected, countNotConnected) in
      let params := [("owner", ArgString owner); ("channel", ArgString channel);
                     ("limit", ArgUint limit); ("offset", ArgUint offset)] in
      match NamedQueryContext q params db with
      | (inr err, db) => ((Page_zero, Wrap things.ErrSelectEntity (Some err)), db)
      | (inl rows, db) =>
          let (items, err) := scanRows owner rows None in
          match err with
          | Some _ => ((Page_zero, err), db)
          | None =>
              match GetContext qc [ArgString owner; ArgString channel] db with
              | (inr err, db) =>
                  ((Page_zero, Wrap things.ErrSelectEntity (Some err)), db)
              | (inl total, db) =>
                  ((things.mkPage items total offset limit, None), db)
              end
          end
      end
  end.

(** *** Remove (lines 324-334) *)

Definition deleteThing : string :=
  "DELETE FROM things WHERE id = :id AND owner = :owner;".

Definition Remove (owner id : string) (db : DB) : error * DB :=
  let dbth := mkDbThing id owner "" "" "" in
  let q := deleteThing in
  match NamedExecContext q dbth db with
  | (inr err, db) => (Wrap things.ErrRemoveEntity (Some err), db)
  | (inl _, db) => (None, db)
  end.

End Repository.

End postgres.

(** ** A scripted database

    A database handle that answers each call with the next reply of a
    script and keeps the calls it received, in the way the handles of a
    mock driver do.  It gives the repository a concrete handle to run
    against.  A call that finds the script empty, or a reply of another
    sort than its own, succeeds with its default result: an execution
    affects one row, a row query finds no row, a query finds no rows, a
    count is zero. *)
Module mock.
Import errors postgres.

Inductive Call : Type :=
| CallBeginTxx
| CallTxExec (tx : nat) (q : string) (arg : dbThing)
| CallRollback (tx : nat)
| CallCommit (tx : nat)
| CallExec (q : string) (arg : dbThing)
| CallQueryRow (q : string) (args : list Arg)
| CallQuery (q : string) (params : Columns)
| CallGet (q : string) (args : list Arg).

Inductive Reply : Type :=
| ReplyOK                              (* the call succeeds, with its default result *)
| ReplyError (e : Err)                 (* the call fails *)
| ReplyResult (r : Result)             (* an Exec succeeds with this result *)
| ReplyRow (cols : Columns)            (* a QueryRow finds this row *)
| ReplyRows (rows : list Columns)      (* a Query finds these rows *)
| ReplyCount (n : N).                  (* a Get reads this count *)

Record Mock : Type := mkMock {
  script : list Reply;   (* the replies to the calls to come *)
  calls : list Call;     (* the calls received, oldest first *)
  begun : nat            (* the number of transactions begun *)
}.

(** Take the next reply off the script and record the call. *)
Definition next (c : Call) (db : Mock) : option Reply * Mock :=
  match script db with
  | [] => (None, mkMock [] (calls db ++ [c]) (begun db))
  | r :: rest => (Some r, mkMock rest (calls db ++ [c]) (begun db))
  end.

Definition exec_reply (r : option Reply) : Result + Err :=
  match r with
  | Some (ReplyError e) => inr e
  | Some (ReplyResult res) => inl res
  | _ => inl (mkResult (1%Z, None))
  end.

Definition error_reply (r : option Reply) : error :=
  match r with
  | Some (ReplyError e) => Some e
  | _ => None
  end.

#[global] Instance Mock_Database : Database Mock := {
  Tx := nat;
  BeginTxx db :=
    let (r, db) := next CallBeginTxx db in
    match r with
    | Some (ReplyError e) => (inr e, db)
    | _ => (inl (begun db), mkMock (script db) (calls db) (S (begun db)))
    end;
  Tx_NamedExecContext tx q arg db :=
    let (r, db) := next (CallTxExec tx q arg) db in (exec_reply r, db);
  Tx_Rollback tx db :=
    let (r, db) := next (CallRollback tx) db in (error_reply r, db);
  Tx_Commit tx db :=
    let (r, db) := next (CallCommit tx) db in (error_reply r, db);
  NamedExecContext q arg db :=
    let (r, db) := next (CallExec q arg) db in (exec_reply r, db);
  QueryRowxContext q args db :=
    let (r, db) := next (CallQueryRow q args) db in
    (match r with
     | Some (ReplyRow cols) => inl cols
     | Some (ReplyError e) => inr e
     | _ => inr ErrNoRows
     end, db);
  NamedQueryContext q params db :=
    let (r, db) := next (CallQuery q params) db in
    (match r with
     | Some (ReplyRows rows) => inl rows
     | Some (ReplyError e) => inr e
     | _ => inl []
     end, db);
  GetContext q args db :=
    let (r, db) := next (CallGet q args) db in
    (match r with
     | Some (ReplyCount n) => inl n
     | Some (ReplyError e) => inr e
     | _ => inl 0%N
     end, db)
}.

(** A handle with the given script and no call received yet. *)
Definition scripted (rs : list Reply) : Mock := mkMock rs [] 0.

End mock.

Import errors postgres.

(** ** Runs of Save

    What a call of [Save] goes through, told from the side of the store:
    the transaction begins, the Things are encoded and inserted one after
    the other, the transaction commits; the call fails at the first of
    these steps that fails. *)
Section Runs.

Context {DB : Type} `{Database DB}.

(** The Things of the list were encoded and inserted in the transaction,
    in order and without a failure, taking the store from [db] to [db']. *)
Inductive inserted (tx : Tx) : list things.Thing -> DB -> DB -> Prop :=
| inserted_nil : forall db, inserted tx [] db db
| inserted_cons : forall th ths dbth res db db1 db2,
    toDBThing th = (dbth, None) ->
    Tx_NamedExecContext tx insertThing dbth db = (inl res, db1) ->
    inserted tx ths db1 db2 ->
    inserted tx (th :: ths) db db2.

(** The step at which a call of [Save] fails, with the error of the step. *)
Inductive Failure : Type :=
| BeginFailed (e : Err)     (* the transaction did not begin *)
| EncodeFailed (e : Err)    (* a Thing's metadata did not encode *)
| InsertFailed (e : Err)    (* the store failed an insert *)
| CommitFailed (e : Err).   (* the transaction did not commit *)

(** [Save_fails ths db f db']: the call [Save(ths...)] on the store [db]
    fails at step [f], the store being [db'] right after the failing
    step. *)
Inductive Save_fails (ths : slice things.Thing) (db : DB)
  : Failure -> DB -> Prop :=
| fails_begin : forall e db0,
    BeginTxx db = (inr e, db0) ->
    Save_fails ths db (BeginFailed e) db0
| fails_encode : forall tx db0 pre th rest db1 d e,
    BeginTxx db = (inl tx, db0) ->
    elements ths = (pre ++ th :: rest)%list ->
    inserted tx pre db0 db1 ->
    toDBThing th = (d, Some e) ->
    Save_fails ths db (EncodeFailed e) db1
| fails_insert : forall tx db0 pre th rest db1 dbth e db2,
    BeginTxx db = (inl tx, db0) ->
    elements ths = (pre ++ th :: rest)%list ->
    inserted tx pre db0 db1 ->
    toDBThing th = (dbth, None) ->
    Tx_NamedExecContext tx insertThing dbth db1 = (inr e, db2) ->
    Save_fails ths db (InsertFailed e) db2
| fails_commit : forall tx db0 db1 e db2,
    BeginTxx db = (inl tx, db0) ->
    inserted tx (elements ths) db0 db1 ->
    Tx_Commit tx db1 = (Some e, db2) ->
    Save_fails ths db (CommitFailed e) db2.

(** [Save_commits ths db db']: every Thing of the call was inserted in
    one transaction, which committed, leaving the store at [db']. *)
Definition Save_commits (ths : slice things.Thing) (db db' : DB) : Prop :=
  exists tx db0 db1,
    BeginTxx db = (inl tx, db0) /\
    inserted tx (elements ths) db0 db1 /\
    Tx_Commit tx db1 = (None, db').

(** The transaction of the call was rolled back after the failure at
    [db1]: the store is the one [Rollback] leaves. *)
Definition rolled_back (db db1 db' : DB) : Prop :=
  exists tx db0, BeginTxx db = (inl tx, db0) /\ db' = snd (Tx_Rollback tx db1).

End Runs.

(** The error kind the specification gives a failure of [Save]: a store
    error on an insert is classified by its name, everything else is a
    [CreateEntity] failure. *)
Definition Save_kind (f : Failure) : things.Kind :=
  match f with
  | InsertFailed (PqError name) =>
      if String.eqb name errInvalid then things.ErrMalformedEntity
      else if String.eqb name errTruncation then things.ErrMalformedEntity
      else if String.eqb name errDuplicate then things.ErrConflict
      else things.ErrCreateEntity
  | _ => things.ErrCreateEntity
  end.

(** The error a failure carries. *)
Definition failure_error (f : Failure) : Err :=
  match f with
  | BeginFailed e => e
  | EncodeFailed e => e
  | InsertFailed e => e
  | CommitFailed e => e
  end.

(** The error of an execution, as [Remove] reports it. *)
Definition Remove_error (r : Result + Err) : error :=
  match r with
  | inl _ => None
  | inr e => Some (Custom things.ErrRemoveEntity (Some e))
  end.

(** [n] calls [Remove(owner, id)] in a row: the errors returned and the
    store after the last call. *)
Fixpoint Remove_times {DB : Type} `{Database DB} (n : nat) (owner id : string)
                      (db : DB) : list error * DB :=
  match n with
  | O => ([], db)
  | S n =>
      let (err, db) := Remove owner id db in
      let (errs, db) := Remove_times n owner id db in
      (err :: errs, db)
  end.

(** [n] executions of the delete statement for [(owner, id)] in a row. *)
Fixpoint delete_times {DB : Type} `{Database DB} (n : nat) (owner id : string)
                      (db : DB) : list (Result + Err) * DB :=
  match n with
  | O => ([], db)
  | S n =>
      let (r, db) := NamedExecContext deleteThing (mkDbThing id owner "" "" "") db in
      let (rs, db) := delete_times n owner id db in
      (r :: rs, db)
  end.

(** ** The values of a document that was written and read back *)
Module roundtrip.
Import json.

(** The tail of an array after its first element, and of an object after
    its first member, as [encode] writes them. *)
Fixpoint encode_elems (l : list Value) : option string :=
  match l with
  | [] => Some "]"
  | w :: ws =>
      bind (encode w) (fun x =>
      bind (encode_elems ws) (fun y => Some ("," ++ x ++ y)))
  end.

Fixpoint encode_members (l : list (string * Value)) : option string :=
  match l with
  | [] => Some "}"
  | (k, w) :: ws =>
      bind (encode w) (fun x =>
      bind (encode_members ws) (fun y =>
      Some ("," ++ quote k ++ ":" ++ x ++ y)))
  end.

(** The well-formed sequence at a byte, if there is one: the bytes that
    follow the lead byte, and the input after them. *)
Definition split_rune (c : ascii) (r : string) : option (string * string) :=
  match rune_len c r, r with
  | 1, String c1 r1 => Some (String c1 "", r1)
  | 2, String c1 (String c2 r2) => Some (String c1 (String c2 ""), r2)
  | 3, String c1 (String c2 (String c3 r3)) =>
      Some (String c1 (String c2 (String c3 "")), r3)
  | _, _ => None
  end.

(** What the encoder writes for a well-formed sequence. *)
Definition escape_rune (c : ascii) (p : string) : string :=
  match p with
  | String c1 (String c2 EmptyString) =>
      if line_separator c c1 c2
      then String backslash
             (String "u" (String "2" (String "0" (String "2"
               (String (hex_digit (N_of_ascii c2 mod 16)) "")))))
      else String c p
  | _ => String c p
  end.

(** What the decoder gives for the document the encoder wrote for [v]:
    every number is the nearest [float64], every string and every key is
    well-formed UTF-8, every object a map built by assignment. *)
Fixpoint decoded (v : Value) : Value :=
  match v with
  | Float64 n => Float64 (round64 n)
  | Int n => Float64 (round64 n)
  | Str s => Str (sanitize s)
  | Slice l => Slice (List.map decoded l)
  | Map m =>
      Map (map_of_members
             (List.map (fun kv : string * Value =>
                          let (k, w) := kv in (sanitize k, decoded w)) m))
  | _ => v
  end.

Definition decoded_members (m : list (string * Value)) : list (string * Value) :=
  List.map (fun kv : string * Value => let (k, w) := kv in (sanitize k, decoded w)) m.

(** A bound on the fuel [decode] needs for the document of a value. *)
Fixpoint bound (v : Value) : nat :=
  match v with
  | Slice [] => 1
  | Slice (v :: vs) =>
      S (Nat.max (bound v)
           ((fix elems (l : list Value) : nat :=
               match l with
               | [] => 1
               | w :: ws => S (Nat.max (bound w) (elems ws))
               end) vs))
  | Map [] => 1
  | Map ((_, v) :: ms) =>
      S (Nat.max (S (bound v))
           ((fix members (l : list (string * Value)) : nat :=
               match l with
               | [] => 1
               | (_, w) :: ws => S (Nat.max (S (bound w)) (members ws))
               end) ms))
  | _ => 1
  end.

Fixpoint bound_elems (l : list Value) : nat :=
  match l with
  | [] => 1
  | w :: ws => S (Nat.max (bound w) (bound_elems ws))
  end.

Fixpoint bound_members (l : list (string * Value)) : nat :=
  match l with
  | [] => 1
  | (_, w) :: ws => S (Nat.max (S (bound w)) (bound_members ws))
  end.

(** The input after a value is its end or one of the delimiters the
    encoder writes after a value. *)
Definition delimited (rest : string) : Prop :=
  match rest with
  | EmptyString => True
  | String c _ => c = ","%char \/ c = "]"%char \/ c = "}"%char
  end.

(** Well-formed UTF-8: the strings the decoder leaves as they are. *)
Definition utf8_valid (s : string) : bool := String.eqb (sanitize s) s.

Fixpoint increasing (ks : list string) : bool :=
  match ks with
  | k1 :: (k2 :: _) as rest => String.ltb k1 k2 && increasing rest
  | _ => true
  end.


(** The values of the model that are Go values within its scope: an
    [int] of 64 bits, a [float64] holding an integer up to 2^53, a map
    listed in increasing key order (its keys are distinct, and that is
    the order in which [json.Marshal] writes them). *)
Fixpoint go_value (v : Value) : bool :=
  match v with
  | Float64 n => (Z.abs n <=? 2 ^ 53)%Z
  | Int n => (- 2 ^ 63 <=? n)%Z && (n <? 2 ^ 63)%Z
  | Slice l => forallb go_value l
  | Map m =>
      increasing (List.map fst m)
      && forallb (fun kv : string * Value => let (_, w) := kv in go_value w) m
  | _ => true
  end.

(** How deep slices and maps are nested in a value. *)
Fixpoint depth (v : Value) : N :=
  match v with
  | Slice l => (1 + fold_right (fun w d => N.max (depth w) d) 0 l)%N
  | Map m =>
      (1 + fold_right (fun (kv : string * Value) d =>
                         let (_, w) := kv in N.max (depth w) d) 0 m)%N
  | _ => 0%N
  end.

(** The values within the scope of the model: Go values as above, nested
    no deeper than the 10000 levels the decoder of the library reads. *)
Definition modelled (v : Value) : bool :=
  go_value v && (depth v <=? 10000)%N.

(** The values [json.Marshal] has an encoding for. *)
Fixpoint serializable (v : Value) : bool :=
  match v with
  | Slice l => forallb serializable l
  | Map m => forallb (fun kv : string * Value =>
                        let (_, w) := kv in serializable w) m
  | Chan => false
  | _ => true
  end.

(** Reading the document of [v] back gives [decoded v], whatever comes
    after the document, with fuel from [bound v] on. *)
Definition roundtrips (v : Value) : Prop :=
  forall b, encode v = Some b ->
  forall fuel rest, bound v <= fuel -> delimited rest ->
  decode fuel (b ++ rest) = Some (decoded v, rest).

End roundtrip.

(** The metadata a Thing has once written and read back: the empty map
    for an empty or absent mapping, the decoded mapping otherwise. *)
Definition stored_metadata (m : gomap) : gomap :=
  if (0 <? len m)%nat
  then Some (json.map_of_members (roundtrip.decoded_members (elements m)))
  else Some [].

(** ** Things and rows of the examples *)
Module example.
Import json mock.

Definition lamp : things.Thing :=
  things.mkThing "6ba7b810-9dad-11d1-80b4-00c04fd430c8" "alice" "lamp" "key-1" None.

(** A Thing whose metadata has no JSON encoding. *)
Definition broken : things.Thing :=
  things.mkThing "6ba7b811-9dad-11d1-80b4-00c04fd430c8" "alice" "fan" "key-2"
                 (Some [("port", Chan)]).

(** A Thing whose metadata holds a Go integer. *)
Definition counter : things.Thing :=
  things.mkThing "6ba7b812-9dad-11d1-80b4-00c04fd430c8" "alice" "counter" "key-3"
                 (Some [("n", Int 1)]).

(** A Thing whose metadata holds what a decoder produces. *)
Definition sensor : things.Thing :=
  things.mkThing "6ba7b813-9dad-11d1-80b4-00c04fd430c8" "alice" "sensor" "key-4"
                 (Some [("region", Str "eu"); ("tags", Slice [Str "a<b"; Nil; Bool true]);
                        ("zone", Map [("floor", Float64 (-2))])]).

(** A Thing whose metadata holds a Go integer that no [float64] holds
    (2^53 + 1) and a string with a byte that is not UTF-8. *)
Definition meter : things.Thing :=
  things.mkThing "6ba7b814-9dad-11d1-80b4-00c04fd430c8" "alice" "meter" "key-5"
                 (Some [("n", Int 9007199254740993);
                        ("s", Str (String "a" (String "255" "b")))]).

Definition lamp_row : dbThing :=
  mkDbThing "6ba7b810-9dad-11d1-80b4-00c04fd430c8" "alice" "lamp" "key-1" "{}".

(** A row whose metadata column holds a JSON array. *)
Definition array_row : Columns :=
  [("id", ArgString "6ba7b810-9dad-11d1-80b4-00c04fd430c8");
   ("name", ArgString "lamp"); ("key", ArgString "key-1");
   ("metadata", ArgBytes "[]")].

Definition lost : Err := DriverError "connection lost".

End example.

(** ** Predicates on Things, rows and errors *)

(** A Thing whose metadata [json.Marshal] encodes: it holds no channel. *)
Definition encodable (th : things.Thing) : bool :=
  roundtrip.serializable (json.Map (elements (things.Metadata th))).

(** A row that has a column of that name. *)
Definition has_column (name : string) (cols : Columns) : bool :=
  existsb (fun c : string * Arg => String.eqb (fst c) name) cols.

(** What one turn of the loop over the rows of a listing makes of a row:
    the row scanned into [dbThing{Owner: owner}] and given to [toThing]. *)
Definition row_thing (owner : string) (cols : Columns) (th : things.Thing) : Prop :=
  exists d, StructScan cols (mkDbThing "" owner "" "" "") = (d, None)
            /\ toThing d = (th, None).

(** An error that is nil or carries one of the kinds [ks]. *)
Definition kind_in (e : error) (ks : list things.Kind) : Prop :=
  e = None \/ exists k, kind e = Some k /\ In k ks.

(** The [items] of a listing after its loop: [var items []things.Thing]
    stays nil when there is no row. *)
Definition page_things (rows : list Columns) (ths : list things.Thing)
  : slice things.Thing :=
  match rows with
  | [] => None
  | _ => Some ths
  end.

(** ** Stores of the examples *)
Module sample.
Import mock.

Definition thing_row : Columns :=
  [("id", ArgString "6ba7b810-9dad-11d1-80b4-00c04fd430c8");
   ("name", ArgString "lamp"); ("key", ArgString "key-1");
   ("metadata", ArgBytes "{}")].

(** A store that answers a page query with one row and a count of one. *)
Definition one_row : Mock :=
  scripted [ReplyRows [thing_row]; ReplyRows [[("count", ArgUint 1)]]].

(** The same for [RetrieveByChannel], whose count is read with [GetContext]. *)
Definition one_row_get : Mock :=
  scripted [ReplyRows [thing_row]; ReplyCount 1].

End sample.

(** * Properties *)

(** ** encoding/json: reading back what was written *)
Section JSONFacts.
Import json roundtrip.

(** [H : bind o k = Some _]: name the value of [o] and go on with [k]. *)
Ltac unbind H x Hx :=
  match type of H with
  | bind ?o _ = Some _ =>
      destruct o as [x|] eqn:Hx; [|discriminate H]; cbn [bind] in H
  end.

Lemma append_assoc (a b c : string) : (a ++ b) ++ c = a ++ (b ++ c).
Proof. induction a as [|x a IH]; simpl; [reflexivity | now rewrite IH]. Qed.

Lemma append_nil_r (a : string) : a ++ "" = a.
Proof. induction a as [|x a IH]; simpl; [reflexivity | now rewrite IH]. Qed.

Lemma length_append (a b : string) :
  String.length (a ++ b) = String.length a + String.length b.
Proof. induction a as [|x a IH]; simpl; [reflexivity | now rewrite IH]. Qed.

(** Induction on the length of a string. *)
Lemma string_length_ind (P : string -> Prop) :
  (forall s, (forall t, String.length t < String.length s -> P t) -> P s) ->
  forall s, P s.
Proof.
  intros Hstep s.
  assert (H : forall n t, String.length t < n -> P t).
  { induction n as [|n IH]; intros t Ht; [lia|].
    apply Hstep. intros u Hu. apply IH. lia. }
  apply (H (S (String.length s))). lia.
Qed.

Lemma split_rune_app c r p r' :
  split_rune c r = Some (p, r') ->
  r = p ++ r' /\ forall t, split_rune c (p ++ t) = Some (p, t).
Proof.
  unfold split_rune, rune_len.
  destruct (between 194 223 c) eqn:H2; [|destruct (between 224 239 c) eqn:H3;
    [|destruct (between 240 244 c) eqn:H4]].
  - destruct r as [|c1 r1]; [discriminate|].
    destruct (cont c1) eqn:Hc1; [|discriminate].
    intros [= <- <-]. split; [reflexivity|]. intros t. cbn. rewrite Hc1. reflexivity.
  - destruct r as [|c1 [|c2 r2]]; try discriminate.
    destruct (second c c1 && cont c2) eqn:Hc; [|discriminate].
    intros [= <- <-]. split; [reflexivity|]. intros t. cbn. rewrite Hc. reflexivity.
  - destruct r as [|c1 [|c2 [|c3 r3]]]; try discriminate.
    destruct (second c c1 && cont c2 && cont c3) eqn:Hc; [|discriminate].
    intros [= <- <-]. split; [reflexivity|]. intros t. cbn. rewrite Hc. reflexivity.
  - discriminate.
Qed.

Lemma split_rune_length c r p r' :
  split_rune c r = Some (p, r') -> String.length r' < String.length r.
Proof.
  intros H. destruct (split_rune_app _ _ _ _ H) as [-> _].
  rewrite length_append.
  unfold split_rune in H.
  destruct (rune_len c (p ++ r')) as [|[|[|[|n]]]];
    destruct (p ++ r')%string as [|c1 [|c2 [|c3 r3]]]; try discriminate;
    injection H as <- _; cbn; lia.
Qed.

Lemma escape_String c r :
  escape (String c r)
  = if (N_of_ascii c <? 128)%N then escape_char c ++ escape r
    else match split_rune c r with
         | Some (p, r') => escape_rune c p ++ escape r'
         | None => escaped_replacement ++ escape r
         end.
Proof.
  cbn [escape]. destruct (N_of_ascii c <? 128)%N; [reflexivity|].
  unfold split_rune.
  destruct (rune_len c r) as [|[|[|[|n]]]]; destruct r as [|c1 [|c2 [|c3 r3]]];
    try reflexivity.
  - cbn [escape_rune]. destruct (line_separator c c1 c2); reflexivity.
  - cbn [escape_rune]. destruct (line_separator c c1 c2); reflexivity.
Qed.

Lemma sanitize_String c r :
  sanitize (String c r)
  = if (N_of_ascii c <? 128)%N then String c (sanitize r)
    else match split_rune c r with
         | Some (p, r') => String c p ++ sanitize r'
         | None => replacement ++ sanitize r
         end.
Proof.
  cbn [sanitize]. destruct (N_of_ascii c <? 128)%N; [reflexivity|].
  unfold split_rune.
  destruct (rune_len c r) as [|[|[|[|n]]]]; destruct r as [|c1 [|c2 [|c3 r3]]];
    reflexivity.
Qed.

Lemma unquote_high c r :
  (N_of_ascii c <? 128)%N = false ->
  unquote (String c r)
  = match split_rune c r with
    | Some (p, r') => with_prefix (String c p) (unquote r')
    | None => with_prefix replacement (unquote r)
    end.
Proof.
  intros Hc.
  assert (Hq : Ascii.eqb c dquote = false
               /\ Ascii.eqb c backslash = false
               /\ (N_of_ascii c <? 32)%N = false).
  { destruct c as [[] [] [] [] [] [] [] []]; try discriminate Hc; repeat split. }
  destruct Hq as (Hq1 & Hq2 & Hq3).
  cbn [unquote]. rewrite Hq1, Hq2, Hq3, Hc.
  unfold split_rune.
  destruct (rune_len c r) as [|[|[|[|n]]]]; destruct r as [|c1 [|c2 [|c3 r3]]];
    reflexivity.
Qed.

(** An ASCII byte that was escaped is read back as itself. *)
Lemma unquote_escape_char c r :
  (N_of_ascii c <? 128)%N = true ->
  unquote (escape_char c ++ r) = with_prefix (String c "") (unquote r).
Proof.
  destruct c as [[] [] [] [] [] [] [] []]; intros Hc; try discriminate Hc;
    reflexivity.
Qed.

Lemma unquote_escape_rune c r p r' t :
  (N_of_ascii c <? 128)%N = false ->
  split_rune c r = Some (p, r') ->
  unquote (escape_rune c p ++ t) = with_prefix (String c p) (unquote t).
Proof.
  intros Hc Hs. destruct (split_rune_app _ _ _ _ Hs) as [_ Hstable].
  assert (Hplain : unquote (String c p ++ t) = with_prefix (String c p) (unquote t)).
  { cbn [String.append]. rewrite (unquote_high c _ Hc), Hstable. reflexivity. }
  unfold escape_rune.
  destruct p as [|c1 [|c2 [|c3 p']]]; try exact Hplain.
  destruct (line_separator c c1 c2) eqn:Hsep; [|exact Hplain].
  unfold line_separator in Hsep.
  apply andb_true_iff in Hsep. destruct Hsep as [Hsep H2].
  apply andb_true_iff in Hsep. destruct Hsep as [H0 H1].
  apply N.eqb_eq in H0, H1.
  assert (c = ascii_of_N 226) as -> by (rewrite <- H0; symmetry; apply ascii_N_embedding).
  assert (c1 = ascii_of_N 128) as -> by (rewrite <- H1; symmetry; apply ascii_N_embedding).
  apply orb_true_iff in H2. destruct H2 as [H2|H2]; apply N.eqb_eq in H2.
  - assert (c2 = ascii_of_N 168) as -> by (rewrite <- H2; symmetry; apply ascii_N_embedding).
    reflexivity.
  - assert (c2 = ascii_of_N 169) as -> by (rewrite <- H2; symmetry; apply ascii_N_embedding).
    reflexivity.
Qed.

(** A string literal that was written is read back as the string, with
    U+FFFD for every byte of it that is not UTF-8. *)
Lemma unquote_escape s : forall rest,
  unquote (escape s ++ String dquote rest) = Some (sanitize s, rest).
Proof.
  induction s as [s IH] using string_length_ind. intros rest.
  destruct s as [|c r]; [reflexivity|].
  rewrite escape_String, sanitize_String.
  destruct (N_of_ascii c <? 128)%N eqn:Hc.
  - rewrite append_assoc, (unquote_escape_char c _ Hc), IH by (cbn; lia).
    reflexivity.
  - destruct (split_rune c r) as [[p r']|] eqn:Hs.
    + rewrite append_assoc, (unquote_escape_rune c r p r' _ Hc Hs).
      rewrite IH by (pose proof (split_rune_length _ _ _ _ Hs); cbn; lia).
      reflexivity.
    + rewrite append_assoc.
      change (unquote (escaped_replacement ++ escape r ++ String dquote rest))
        with (with_prefix replacement (unquote (escape r ++ String dquote rest))).
      rewrite IH by (cbn; lia). reflexivity.
Qed.

Lemma sanitize_replacement t : sanitize (replacement ++ t) = replacement ++ sanitize t.
Proof. reflexivity. Qed.

(** What the decoder has made well-formed it leaves as it is. *)
Lemma sanitize_idem s : sanitize (sanitize s) = sanitize s.
Proof.
  induction s as [s IH] using string_length_ind.
  destruct s as [|c r]; [reflexivity|].
  rewrite sanitize_String.
  destruct (N_of_ascii c <? 128)%N eqn:Hc.
  - rewrite sanitize_String, Hc, IH by (cbn; lia). reflexivity.
  - destruct (split_rune c r) as [[p r']|] eqn:Hs.
    + destruct (split_rune_app _ _ _ _ Hs) as [_ Hstable].
      cbn [String.append]. rewrite sanitize_String, Hc, Hstable.
      rewrite IH by (pose proof (split_rune_length _ _ _ _ Hs); cbn; lia).
      reflexivity.
    + rewrite sanitize_replacement, IH by (cbn; lia). reflexivity.
Qed.


Lemma utf8_valid_sanitize s : utf8_valid (sanitize s) = true.
Proof. unfold utf8_valid. rewrite sanitize_idem. apply String.eqb_refl. Qed.

(** ** Rounding to [float64] *)

Lemma round64_exact n : (Z.abs n <= 2 ^ 53)%Z -> round64 n = n.
Proof.
  intros Hn. unfold round64.
  destruct (Z.leb_spec (Z.abs n) (2 ^ 53)) as [_|Hgt]; [reflexivity | lia].
Qed.

(** The integer [q * 2^e] with [2^52 <= q <= 2^53] is a [float64]. *)
Lemma round64_mantissa q e :
  (2 ^ 52 <= q <= 2 ^ 53)%Z -> (0 <= e)%Z ->
  round64 (q * 2 ^ e) = (q * 2 ^ e)%Z.
Proof.
  intros Hq He. unfold round64.
  assert (Hpow : (0 < 2 ^ e)%Z) by (apply Z.pow_pos_nonneg; lia).
  assert (Hpos : (0 < q * 2 ^ e)%Z) by nia.
  rewrite (Z.abs_eq (q * 2 ^ e)) by lia.
  destruct (Z.leb_spec (q * 2 ^ e) (2 ^ 53)) as [_|Hgt]; [reflexivity|].
  cbv zeta.
  assert (Hcases : (q < 2 ^ 53 \/ q = 2 ^ 53)%Z) by lia.
  destruct Hcases as [Hlt| ->].
  - assert (Hlog : Z.log2 (q * 2 ^ e) = (52 + e)%Z).
    { rewrite Z.log2_mul_pow2 by lia.
      rewrite (Z.log2_unique q 52) by lia. lia. }
    rewrite Hlog. replace (52 + e - 52)%Z with e by lia.
    rewrite Z.div_mul by lia. rewrite Z.mod_mul by lia.
    assert (He1 : (1 <= e)%Z) by (destruct (Z.eq_dec e 0) as [->|]; [cbn in Hgt; lia | lia]).
    assert (Hhalf : (0 < 2 ^ (e - 1))%Z) by (apply Z.pow_pos_nonneg; lia).
    destruct (Z.ltb_spec (2 ^ (e - 1)) 0) as [Hbad|_]; [lia|].
    destruct (Z.eqb_spec 0 (2 ^ (e - 1))) as [Hbad|_]; [lia|].
    cbn [orb andb]. rewrite Z.sgn_pos by lia. lia.
  - assert (Hlog : Z.log2 (2 ^ 53 * 2 ^ e) = (53 + e)%Z).
    { rewrite Z.log2_mul_pow2 by lia.
      rewrite (Z.log2_unique (2 ^ 53) 53) by lia. lia. }
    rewrite Hlog. replace (53 + e - 52)%Z with (e + 1)%Z by lia.
    replace (2 ^ 53 * 2 ^ e)%Z with (2 ^ 52 * 2 ^ (e + 1))%Z
      by (rewrite Z.pow_add_r by lia; lia).
    rewrite Z.div_mul by (apply Z.pow_nonzero; lia).
    rewrite Z.mod_mul by (apply Z.pow_nonzero; lia).
    replace (e + 1 - 1)%Z with e by lia.
    destruct (Z.ltb_spec (2 ^ e) 0) as [Hbad|_]; [lia|].
    destruct (Z.eqb_spec 0 (2 ^ e)) as [Hbad|_]; [lia|].
    cbn [orb andb].
    rewrite Z.sgn_pos; [lia|].
    assert (0 < 2 ^ (e + 1))%Z by (apply Z.pow_pos_nonneg; lia). lia.
Qed.

Lemma round64_opp n : round64 (- n) = (- round64 n)%Z.
Proof.
  unfold round64. rewrite Z.abs_opp, Z.sgn_opp.
  destruct (Z.abs n <=? 2 ^ 53)%Z; [reflexivity|]. cbv zeta. lia.
Qed.

(** Rounding gives a [float64]: rounding again changes nothing. *)
Lemma round64_idem n : round64 (round64 n) = round64 n.
Proof.
  assert (Hpos : forall a, (0 <= a)%Z -> round64 (round64 a) = round64 a).
  { intros a Ha.
    destruct (Z.leb_spec a (2 ^ 53)) as [Hle|Hgt].
    - rewrite (round64_exact a) by lia. apply round64_exact. lia.
    - assert (Hr : exists q e, (2 ^ 52 <= q <= 2 ^ 53)%Z /\ (0 <= e)%Z
                               /\ round64 a = (q * 2 ^ e)%Z).
      { unfold round64. rewrite (Z.abs_eq a) by lia.
        destruct (Z.leb_spec a (2 ^ 53)) as [Hbad|_]; [lia|]. cbv zeta.
        rewrite Z.sgn_pos by lia.
        set (e := (Z.log2 a - 52)%Z).
        assert (Hlog : (53 <= Z.log2 a)%Z).
        { apply Z.log2_le_pow2; lia. }
        assert (He : (1 <= e)%Z) by (unfold e; lia).
        destruct (Z.log2_spec a ltac:(lia)) as [Hlo Hhi].
        assert (Hpe : (0 < 2 ^ e)%Z) by (apply Z.pow_pos_nonneg; lia).
        assert (Hsplit : (2 ^ Z.log2 a = 2 ^ 52 * 2 ^ e)%Z).
        { unfold e. rewrite <- Z.pow_add_r by lia. f_equal. lia. }
        assert (Hsplit' : (2 ^ Z.succ (Z.log2 a) = 2 ^ 53 * 2 ^ e)%Z).
        { unfold e. rewrite <- Z.pow_add_r by lia. f_equal. lia. }
        assert (Hq : (2 ^ 52 <= a / 2 ^ e < 2 ^ 53)%Z).
        { split.
          - apply Z.div_le_lower_bound; lia.
          - apply Z.div_lt_upper_bound; lia. }
        generalize dependent (a / 2 ^ e)%Z. intros q Hq.
        generalize (a mod 2 ^ e)%Z (2 ^ (e - 1))%Z. intros r half.
        destruct ((half <? r)%Z || ((r =? half)%Z && Z.odd q)).
        - exists (q + 1)%Z, e. split; [lia|]. split; [lia|].
          apply Z.mul_1_l.
        - exists q, e. split; [lia|]. split; [lia|].
          apply Z.mul_1_l. }
      destruct Hr as (q & e & Hq & He & ->). apply round64_mantissa; assumption. }
  destruct (Z.le_ge_cases 0 n) as [Hn|Hn]; [apply Hpos; exact Hn|].
  assert (Hm : exists m, (0 <= m)%Z /\ n = (- m)%Z) by (exists (- n)%Z; lia).
  destruct Hm as (m & Hm & ->).
  rewrite (round64_opp m), (round64_opp (round64 m)), (Hpos m Hm). reflexivity.
Qed.

Lemma span_digits_uint d rest :
  match rest with String c _ => is_digit c = false | EmptyString => True end ->
  span_digits (NilEmpty.string_of_uint d ++ rest) = (NilEmpty.string_of_uint d, rest).
Proof.
  intros Hrest. induction d; cbn [NilEmpty.string_of_uint String.append span_digits];
    try (rewrite IHd; reflexivity).
  destruct rest as [|c r]; [reflexivity|]. cbn. rewrite Hrest. reflexivity.
Qed.

(** The decimal digits of a positive number do not start with a zero. *)
Lemma to_uint_no_leading_zero p d : Pos.to_uint p <> Decimal.D0 d.
Proof.
  intros Heq.
  assert (Hn : Decimal.unorm (Pos.to_uint p) = Pos.to_uint p).
  { change (Pos.to_uint p) with (N.to_uint (Npos p)) at 2.
    rewrite <- (DecimalPos.Unsigned.of_to p). symmetry. apply DecimalPos.Unsigned.to_of. }
  destruct (Decimal.nzhead (Pos.to_uint p)) eqn:Hnz.
  2-11: rewrite DecimalFacts.unorm_nzhead in Hn by (rewrite Hnz; discriminate);
        rewrite Heq in Hn at 2; apply (DecimalFacts.nzhead_nonzero _ _ Hn).
  apply (DecimalPos.Unsigned.to_uint_nonzero p).
  apply DecimalFacts.unorm_0 in Hnz. congruence.
Qed.

Lemma starts_fraction_delimited rest : delimited rest -> starts_fraction rest = false.
Proof. destruct rest as [|c r]; [reflexivity|]. intros [->|[->| ->]]; reflexivity. Qed.

Lemma delimited_not_digit rest :
  delimited rest ->
  match rest with String c _ => is_digit c = false | EmptyString => True end.
Proof. destruct rest as [|c r]; [auto|]. intros [->|[->| ->]]; reflexivity. Qed.

Lemma uint_string_nonempty p : NilEmpty.string_of_uint (Pos.to_uint p) <> "".
Proof.
  pose proof (DecimalPos.Unsigned.to_uint_nonnil p) as Hn.
  destruct (Pos.to_uint p); try discriminate. now elim Hn.
Qed.

Lemma leading_zero_uint p :
  leading_zero (NilEmpty.string_of_uint (Pos.to_uint p)) = false.
Proof.
  pose proof (to_uint_no_leading_zero p) as Hlz.
  destruct (Pos.to_uint p) as [|u|u|u|u|u|u|u|u|u|u];
    try (now elim (Hlz u)); cbn [NilEmpty.string_of_uint leading_zero];
    try reflexivity; destruct (NilEmpty.string_of_uint u); reflexivity.
Qed.

(** An integer that was written is read back as itself. *)
Lemma parse_int_format n rest :
  delimited rest -> parse_int (format_int n ++ rest) = Some (n, rest).
Proof.
  intros Hd. unfold format_int.
  assert (Hpos : forall p (neg : bool),
    (let (ds, rest') := span_digits (NilEmpty.string_of_uint (Pos.to_uint p) ++ rest) in
     if starts_fraction rest' || String.eqb ds "" || leading_zero ds then None
     else option_map (fun u => ((if neg then - Z.of_uint u else Z.of_uint u)%Z, rest'))
                     (NilEmpty.uint_of_string ds))
    = Some ((if neg then Z.neg p else Z.pos p), rest)).
  { intros p neg.
    rewrite span_digits_uint by now apply delimited_not_digit.
    rewrite starts_fraction_delimited by assumption.
    rewrite leading_zero_uint, NilEmpty.usu.
    destruct (String.eqb_spec (NilEmpty.string_of_uint (Pos.to_uint p)) "") as [He|_];
      [now elim (uint_string_nonempty p)|].
    cbn. unfold Z.of_uint. rewrite DecimalPos.Unsigned.of_to.
    destruct neg; reflexivity. }
  destruct n as [|p|p].
  - cbn. destruct rest as [|c r]; [reflexivity|].
    destruct Hd as [->|[->| ->]]; reflexivity.
  - specialize (Hpos p false).
    cbn [Z.to_int NilZero.string_of_int].
    pose proof (DecimalPos.Unsigned.to_uint_nonnil p) as Hnn.
    pose proof (to_uint_no_leading_zero p) as Hlz.
    unfold parse_int.
    destruct (Pos.to_uint p) as [|u|u|u|u|u|u|u|u|u|u] eqn:Hu;
      try (now elim Hnn); try (now elim (Hlz u)); exact Hpos.
  - specialize (Hpos p true).
    cbn [Z.to_int NilZero.string_of_int].
    pose proof (DecimalPos.Unsigned.to_uint_nonnil p) as Hnn.
    unfold parse_int.
    replace (NilZero.string_of_uint (Pos.to_uint p))
      with (NilEmpty.string_of_uint (Pos.to_uint p))
      by (destruct (Pos.to_uint p); try reflexivity; now elim Hnn).
    exact Hpos.
Qed.

(** Induction on values, through the elements of slices and maps. *)
Lemma Value_ind' (P : Value -> Prop) :
  P Nil -> (forall b, P (Bool b)) -> (forall n, P (Float64 n)) ->
  (forall n, P (Int n)) -> (forall s, P (Str s)) ->
  (forall l, Forall P l -> P (Slice l)) ->
  (forall m, Forall (fun kv => P (snd kv)) m -> P (Map m)) ->
  P Chan -> forall v, P v.
Proof.
  intros HNil HBool HFloat HInt HStr HSlice HMap HChan.
  fix IH 1. intros [| b | n | n | s | l | m |].
  - exact HNil.
  - apply HBool.
  - apply HFloat.
  - apply HInt.
  - apply HStr.
  - apply HSlice. induction l as [|v l IHl]; constructor; [apply IH | exact IHl].
  - apply HMap. induction m as [|[k v] m IHm]; constructor; [apply IH | exact IHm].
  - exact HChan.
Qed.

Lemma encode_Slice_cons v vs :
  encode (Slice (v :: vs))
  = bind (encode v) (fun a => bind (encode_elems vs) (fun b => Some ("[" ++ a ++ b))).
Proof.
  reflexivity.
Qed.

Lemma encode_Map_cons k v ms :
  encode (Map ((k, v) :: ms))
  = bind (encode v) (fun a => bind (encode_members ms) (fun b =>
      Some ("{" ++ quote k ++ ":" ++ a ++ b))).
Proof.
  reflexivity.
Qed.

Lemma bound_Slice_cons v vs :
  bound (Slice (v :: vs)) = S (Nat.max (bound v) (bound_elems vs)).
Proof.
  reflexivity.
Qed.

Lemma bound_Map_cons k v ms :
  bound (Map ((k, v) :: ms)) = S (Nat.max (S (bound v)) (bound_members ms)).
Proof.
  reflexivity.
Qed.

Lemma format_int_head n :
  exists c r, format_int n = String c r /\ (is_digit c = true \/ c = "-"%char).
Proof.
  unfold format_int. destruct n as [|p|p]; cbn [Z.to_int NilZero.string_of_int].
  - exists "0"%char, "". split; [reflexivity | left; reflexivity].
  - pose proof (DecimalPos.Unsigned.to_uint_nonnil p) as Hnn.
    destruct (Pos.to_uint p); try (now elim Hnn);
      eexists; eexists; (split; [reflexivity | left; reflexivity]).
  - eexists; eexists. split; [reflexivity | right; reflexivity].
Qed.

Lemma decode_number fuel c r :
  is_digit c = true \/ c = "-"%char ->
  decode (S fuel) (String c r)
  = option_map (fun nr => (Float64 (round64 (fst nr)), snd nr))
               (parse_int (String c r)).
Proof.
  intros [Hd| ->]; [|reflexivity].
  destruct c as [[] [] [] [] [] [] [] []]; try discriminate Hd; reflexivity.
Qed.

(** A document starts with a character that is neither white space nor
    a closing bracket. *)
Lemma encode_head v b :
  encode v = Some b ->
  exists c r, b = String c r /\ is_space c = false
              /\ Ascii.eqb c "]"%char = false /\ Ascii.eqb c "}"%char = false.
Proof.
  destruct v as [| [] | n | n | s | [|v vs] | [|[k v] ms] |].
  1-3, 6-7, 9: intros [= <-]; eexists; eexists; repeat split; reflexivity.
  1-2: intros [= <-]; destruct (format_int_head n) as (c & r & Heq & Hc);
       exists c, r; (split; [exact Heq|]); destruct Hc as [Hd| ->];
       [destruct c as [[] [] [] [] [] [] [] []]; try discriminate Hd; repeat split; reflexivity
       | repeat split; reflexivity].
  - rewrite encode_Slice_cons. destruct (encode v); [|discriminate]. cbn [bind].
    destruct (encode_elems vs); [|discriminate]. cbn [bind].
    intros [= <-]. eexists; eexists; repeat split; reflexivity.
  - rewrite encode_Map_cons. destruct (encode v); [|discriminate]. cbn [bind].
    destruct (encode_members ms); [|discriminate]. cbn [bind].
    intros [= <-]. eexists; eexists; repeat split; reflexivity.
  - discriminate.
Qed.

Lemma decode_Slice_step f c r :
  is_space c = false -> Ascii.eqb c "]"%char = false ->
  decode (S f) (String "["%char (String c r))
  = bind (decode f (String c r)) (fun vr =>
    bind (decode_elems f (snd vr)) (fun lr =>
    Some (Slice (fst vr :: fst lr), snd lr))).
Proof. intros Hs Hc. cbn. rewrite Hs, Hc. reflexivity. Qed.

Lemma decode_Map_step f r :
  decode (S f) (String "{"%char (String dquote r))
  = bind (decode_member f (String dquote r)) (fun mr =>
    bind (decode_members f (snd mr)) (fun lr =>
    Some (Map (map_of_members (fst mr :: fst lr)), snd lr))).
Proof. reflexivity. Qed.

Lemma decode_elems_step f r :
  decode_elems (S f) (String ","%char r)
  = bind (decode f r) (fun vr =>
    bind (decode_elems f (snd vr)) (fun lr => Some (fst vr :: fst lr, snd lr))).
Proof. reflexivity. Qed.

Lemma decode_members_step f r :
  decode_members (S f) (String ","%char r)
  = bind (decode_member f r) (fun mr =>
    bind (decode_members f (snd mr)) (fun lr => Some (fst mr :: fst lr, snd lr))).
Proof. reflexivity. Qed.

Lemma decode_member_step f k r :
  decode_member (S f) (String dquote (escape k ++ String dquote (String ":"%char r)))
  = bind (decode f r) (fun vr => Some ((sanitize k, fst vr), snd vr)).
Proof. cbn -[unquote]. rewrite unquote_escape. reflexivity. Qed.

Lemma encode_elems_delimited l t rest :
  encode_elems l = Some t -> delimited (t ++ rest).
Proof.
  destruct l as [|w ws]; cbn [encode_elems].
  - intros [= <-]. right; left; reflexivity.
  - destruct (encode w); [|discriminate]. cbn [bind].
    destruct (encode_elems ws); [|discriminate]. cbn [bind].
    intros [= <-]. left; reflexivity.
Qed.

Lemma encode_members_delimited l t rest :
  encode_members l = Some t -> delimited (t ++ rest).
Proof.
  destruct l as [|[k w] ws]; cbn [encode_members].
  - intros [= <-]. right; right; reflexivity.
  - destruct (encode w); [|discriminate]. cbn [bind].
    destruct (encode_members ws); [|discriminate]. cbn [bind].
    intros [= <-]. left; reflexivity.
Qed.

Lemma decode_elems_encode l :
  Forall roundtrips l ->
  forall t, encode_elems l = Some t ->
  forall fuel rest, bound_elems l <= fuel ->
  decode_elems fuel (t ++ rest) = Some (List.map decoded l, rest).
Proof.
  induction 1 as [|w ws Hw _ IH]; intros t Ht fuel rest Hfuel;
    (destruct fuel as [|f]; [cbn in Hfuel; lia|]); cbn [encode_elems] in Ht.
  - injection Ht as <-. reflexivity.
  - unbind Ht x Hx.
    unbind Ht y Hy.
    injection Ht as <-. cbn [bound_elems] in Hfuel.
    cbn [String.append]. rewrite decode_elems_step, append_assoc.
    rewrite (Hw x Hx f (y ++ rest)) by (try lia; eapply encode_elems_delimited; eauto).
    cbn [bind fst snd]. rewrite (IH y eq_refl f rest) by lia. reflexivity.
Qed.

Lemma decode_members_encode l :
  Forall (fun kv => roundtrips (snd kv)) l ->
  forall t, encode_members l = Some t ->
  forall fuel rest, bound_members l <= fuel ->
  decode_members fuel (t ++ rest) = Some (decoded_members l, rest).
Proof.
  induction 1 as [|[k w] ws Hw _ IH]; intros t Ht fuel rest Hfuel;
    (destruct fuel as [|f]; [cbn in Hfuel; lia|]); cbn [encode_members] in Ht.
  - injection Ht as <-. reflexivity.
  - unbind Ht x Hx.
    unbind Ht y Hy.
    injection Ht as <-. cbn [bound_members] in Hfuel. cbn [snd] in Hw.
    destruct f as [|f']; [lia|].
    cbn [String.append]. rewrite decode_members_step.
    rewrite !append_assoc. cbn [String.append]. rewrite !append_assoc.
    rewrite decode_member_step.
    rewrite (Hw x Hx f' (y ++ rest)) by (try lia; eapply encode_members_delimited; eauto).
    cbn [bind fst snd]. rewrite (IH y eq_refl (S f') rest) by lia. reflexivity.
Qed.

Lemma bound_pos v : 1 <= bound v.
Proof.
  destruct v as [| b | n | n | s | [|v vs] | [|[k v] ms] |];
    cbn; lia.
Qed.

(** The decoder reads the document of any value back as its decoded
    form. *)
Theorem decode_encode v : roundtrips v.
Proof.
  induction v as [| b | n | n | s | l Hl | m Hm |] using Value_ind';
    intros b' Hb fuel rest Hfuel Hrest;
    (destruct fuel as [|f];
     [match type of Hfuel with bound ?v <= _ => pose proof (bound_pos v) end; lia|]).
  - injection Hb as <-. reflexivity.
  - destruct b; injection Hb as <-; reflexivity.
  - injection Hb as <-.
    destruct (format_int_head n) as (c & r & Heq & Hc).
    pose proof (parse_int_format n rest Hrest) as Hp.
    rewrite Heq in *. cbn [String.append] in *.
    rewrite decode_number by assumption. rewrite Hp. reflexivity.
  - injection Hb as <-.
    destruct (format_int_head n) as (c & r & Heq & Hc).
    pose proof (parse_int_format n rest Hrest) as Hp.
    rewrite Heq in *. cbn [String.append] in *.
    rewrite decode_number by assumption. rewrite Hp. reflexivity.
  - injection Hb as <-. unfold quote. cbn [String.append]. rewrite append_assoc.
    cbn -[unquote]. rewrite unquote_escape. reflexivity.
  - destruct l as [|v vs]; [injection Hb as <-; reflexivity|].
    rewrite encode_Slice_cons in Hb. rewrite bound_Slice_cons in Hfuel.
    unbind Hb a Ha.
    unbind Hb t Ht.
    injection Hb as <-. inversion Hl as [|? ? Hv Hvs]; subst.
    destruct (encode_head v a Ha) as (c & r & -> & Hs & Hc & _).
    cbn [String.append]. rewrite decode_Slice_step by assumption.
    rewrite append_assoc.
    change (String c (r ++ t ++ rest)) with (String c r ++ (t ++ rest)).
    rewrite (Hv _ Ha f (t ++ rest)) by (try lia; eapply encode_elems_delimited; eauto).
    cbn [bind fst snd].
    rewrite (decode_elems_encode vs Hvs t Ht f rest) by lia. reflexivity.
  - destruct m as [|[k v] ms]; [injection Hb as <-; reflexivity|].
    rewrite encode_Map_cons in Hb. rewrite bound_Map_cons in Hfuel.
    unbind Hb a Ha.
    unbind Hb t Ht.
    injection Hb as <-. inversion Hm as [|? ? Hv Hvs]; subst. cbn [snd] in Hv.
    destruct f as [|f']; [lia|].
    unfold quote. cbn [String.append]. rewrite !append_assoc.
    cbn [String.append]. rewrite !append_assoc.
    rewrite decode_Map_step, decode_member_step.
    rewrite (Hv _ Ha f' (t ++ rest)) by (try lia; eapply encode_members_delimited; eauto).
    cbn [bind fst snd].
    rewrite (decode_members_encode ms Hvs t Ht (S f') rest) by lia. reflexivity.
  - discriminate.
Qed.

Lemma bound_elems_le_length l :
  Forall (fun v => forall b, encode v = Some b -> bound v <= String.length b) l ->
  forall t, encode_elems l = Some t -> bound_elems l <= String.length t.
Proof.
  induction 1 as [|w ws Hw _ IH]; intros t Ht; cbn [encode_elems] in Ht.
  - injection Ht as <-. cbn. lia.
  - unbind Ht x Hx.
    unbind Ht y Hy.
    injection Ht as <-. cbn [bound_elems String.append String.length].
    rewrite length_append. specialize (Hw x eq_refl). specialize (IH y eq_refl). lia.
Qed.

Lemma bound_members_le_length l :
  Forall (fun kv : string * Value =>
            forall b, encode (snd kv) = Some b -> bound (snd kv) <= String.length b) l ->
  forall t, encode_members l = Some t -> bound_members l <= String.length t.
Proof.
  induction 1 as [|[k w] ws Hw _ IH]; intros t Ht; cbn [encode_members] in Ht.
  - injection Ht as <-. cbn. lia.
  - unbind Ht x Hx.
    unbind Ht y Hy.
    injection Ht as <-. cbn [bound_members String.append String.length].
    unfold quote. cbn [String.append String.length].
    rewrite !length_append. cbn [String.length String.append].
    rewrite !length_append.
    cbn [snd] in Hw. specialize (Hw x Hx). specialize (IH y eq_refl). lia.
Qed.

(** The length of a document is fuel enough to read it. *)
Lemma bound_le_length v :
  forall b, encode v = Some b -> bound v <= String.length b.
Proof.
  induction v as [| b | n | n | s | l Hl | m Hm |] using Value_ind'; intros b' Hb.
  - injection Hb as <-. cbn. lia.
  - destruct b; injection Hb as <-; cbn; lia.
  - injection Hb as <-. destruct (format_int_head n) as (c & r & -> & _). cbn. lia.
  - injection Hb as <-. destruct (format_int_head n) as (c & r & -> & _). cbn. lia.
  - injection Hb as <-. cbn. lia.
  - destruct l as [|v vs]; [injection Hb as <-; cbn; lia|].
    rewrite encode_Slice_cons in Hb. rewrite bound_Slice_cons.
    unbind Hb a Ha.
    unbind Hb t Ht.
    injection Hb as <-. inversion Hl as [|? ? Hv Hvs]; subst.
    cbn [String.append String.length]. rewrite length_append.
    specialize (Hv a Ha).
    pose proof (bound_elems_le_length vs Hvs t Ht). lia.
  - destruct m as [|[k v] ms]; [injection Hb as <-; cbn; lia|].
    rewrite encode_Map_cons in Hb. rewrite bound_Map_cons.
    unbind Hb a Ha.
    unbind Hb t Ht.
    injection Hb as <-. inversion Hm as [|? ? Hv Hvs]; subst. cbn [snd] in Hv.
    unfold quote. cbn [String.append String.length].
    rewrite !length_append. cbn [String.length String.append].
    rewrite !length_append.
    specialize (Hv a Ha).
    pose proof (bound_members_le_length ms Hvs t Ht). lia.
  - discriminate.
Qed.

(** Reading back what was written. *)
Theorem Unmarshal_Marshal m b :
  Marshal m = (b, None) ->
  Unmarshal b = (Some (map_of_members (decoded_members m)), None).
Proof.
  unfold Marshal. destruct (encode (Map m)) as [b'|] eqn:Hb; [|discriminate].
  intros [= ->]. unfold Unmarshal.
  pose proof (decode_encode (Map m) b Hb (S (String.length b)) "") as Hd.
  rewrite append_nil_r in Hd. rewrite Hd.
  - reflexivity.
  - pose proof (bound_le_length _ _ Hb). lia.
  - exact I.
Qed.

Lemma compare_lt_trans a b c :
  String.compare a b = Lt -> String.compare b c = Lt -> String.compare a c = Lt.
Proof.
  intros Hab Hbc. apply OrderedTypeEx.String_as_OT.cmp_lt.
  eapply OrderedTypeEx.String_as_OT.lt_trans; apply OrderedTypeEx.String_as_OT.cmp_lt; eassumption.
Qed.

Lemma ltb_lt a b : String.ltb a b = true -> String.compare a b = Lt.
Proof. unfold String.ltb. destruct (String.compare a b); congruence. Qed.

Lemma increasing_tail k ks : increasing (k :: ks) = true -> increasing ks = true.
Proof.
  destruct ks as [|k2 r]; [reflexivity|]. cbn [increasing].
  intros H. apply andb_true_iff in H. apply H.
Qed.

Lemma increasing_all_lt k ks :
  increasing (k :: ks) = true -> Forall (fun k' => String.compare k k' = Lt) ks.
Proof.
  revert k. induction ks as [|k2 r IH]; intros k H; [constructor|].
  cbn [increasing] in H. apply andb_true_iff in H. destruct H as [Hlt Hr].
  apply ltb_lt in Hlt. constructor; [exact Hlt|].
  eapply Forall_impl; [|apply (IH k2 Hr)].
  intros k' Hk'. cbn in Hk'. eapply compare_lt_trans; eassumption.
Qed.

Lemma increasing_app_lt l1 k l2 :
  increasing (l1 ++ k :: l2) = true ->
  Forall (fun k' => String.compare k' k = Lt) l1.
Proof.
  induction l1 as [|a l1 IH]; intros H; [constructor|].
  cbn [List.app] in H. constructor.
  - pose proof (increasing_all_lt _ _ H) as Hall.
    rewrite Forall_forall in Hall. apply Hall. apply in_or_app. right. left. reflexivity.
  - apply IH. eapply increasing_tail. exact H.
Qed.

Lemma map_insert_last k v m :
  Forall (fun k' => String.compare k' k = Lt) (List.map fst m) ->
  map_insert k v m = (m ++ [(k, v)])%list.
Proof.
  induction m as [|[k' v'] m IH]; intros H; [reflexivity|].
  inversion H as [|? ? Hlt Hrest]; subst. cbn [map_insert fst] in *.
  rewrite String.compare_antisym, Hlt. cbn [CompOpp].
  rewrite IH by assumption. reflexivity.
Qed.

Lemma fold_insert_increasing (m acc : list (string * Value)) :
  increasing (List.map fst (acc ++ m)) = true ->
  fold_left (fun m kv => map_insert (fst kv) (snd kv) m) m acc = (acc ++ m)%list.
Proof.
  revert acc. induction m as [|[k v] m IH]; intros acc H; cbn [fold_left].
  - rewrite List.app_nil_r. reflexivity.
  - cbn [fst snd]. rewrite map_insert_last.
    + rewrite IH.
      * rewrite <- List.app_assoc. reflexivity.
      * rewrite <- List.app_assoc. exact H.
    + rewrite List.map_app in H. cbn [List.map fst] in H.
      eapply increasing_app_lt. exact H.
Qed.

(** Assigning the members of a map in increasing key order gives the
    map back. *)
Lemma map_of_members_increasing m :
  increasing (List.map fst m) = true -> map_of_members m = m.
Proof. intros H. unfold map_of_members. now rewrite fold_insert_increasing. Qed.


(** A value without a channel in it has an encoding. *)
Lemma encode_serializable v : serializable v = true -> exists b, encode v = Some b.
Proof.
  induction v as [| b | n | n | s | l Hl | m Hm |] using Value_ind'; intros Hs;
    try (eexists; reflexivity); try discriminate.
  - destruct b; eexists; reflexivity.
  - destruct l as [|v vs]; [eexists; reflexivity|].
    rewrite encode_Slice_cons. cbn [serializable forallb] in Hs.
    apply andb_true_iff in Hs. destruct Hs as [Hv Hvs].
    inversion Hl as [|? ? Hv' Hvs']; subst.
    destruct (Hv' Hv) as [a ->]. cbn [bind].
    assert (Ht : exists t, encode_elems vs = Some t).
    { clear Hl Hv' Hv. induction Hvs' as [|w ws Hw _ IH]; [eexists; reflexivity|].
      cbn [forallb] in Hvs. apply andb_true_iff in Hvs. destruct Hvs as [Hsw Hsws].
      cbn [encode_elems]. destruct (Hw Hsw) as [x ->]. destruct (IH Hsws) as [y ->].
      eexists; reflexivity. }
    destruct Ht as [t ->]. eexists; reflexivity.
  - destruct m as [|[k v] ms]; [eexists; reflexivity|].
    rewrite encode_Map_cons. cbn [serializable forallb] in Hs.
    apply andb_true_iff in Hs. destruct Hs as [Hv Hvs].
    inversion Hm as [|? ? Hv' Hvs']; subst. cbn [snd] in Hv'.
    destruct (Hv' Hv) as [a ->]. cbn [bind].
    assert (Ht : exists t, encode_members ms = Some t).
    { clear Hm Hv' Hv. induction Hvs' as [|[k' w] ws Hw _ IH]; [eexists; reflexivity|].
      cbn [forallb] in Hvs. apply andb_true_iff in Hvs. destruct Hvs as [Hsw Hsws].
      cbn [encode_members]. cbn [snd] in Hw.
      destruct (Hw Hsw) as [x ->]. destruct (IH Hsws) as [y ->].
      eexists; reflexivity. }
    destruct Ht as [t ->]. eexists; reflexivity.
Qed.

(** String literals read on their own: a surrogate pair is one code
    point, a surrogate half on its own and a byte that is not UTF-8 are
    U+FFFD, a well-formed sequence is kept. *)
Example unquote_literals :
  unquote ("\ud83d\ude00" ++ String dquote "") = Some (utf8 128512, "")
  /\ unquote ("\ud83dx" ++ String dquote "") = Some (replacement ++ "x", "")
  /\ unquote (String "255" (String dquote "")) = Some (replacement, "")
  /\ unquote (utf8 233 ++ String dquote "") = Some (utf8 233, "").
Proof. repeat split; reflexivity. Qed.

(** Strings as the encoder writes them: a byte that is not UTF-8, a line
    separator, a form feed, and a well-formed sequence. *)
Example escape_strings :
  escape (String "255" "") = escaped_replacement
  /\ escape (utf8 8232) = String backslash "u2028"
  /\ escape (String "012" "") = String backslash "f"
  /\ escape (utf8 233) = utf8 233.
Proof. repeat split; reflexivity. Qed.

(** Integers as the decoder gives them: exact up to 2^53, then the
    nearest [float64], a tie going to the even mantissa. *)
Example round64_values :
  round64 9007199254740992 = 9007199254740992%Z
  /\ round64 9007199254740993 = 9007199254740992%Z
  /\ round64 9007199254740995 = 9007199254740996%Z
  /\ round64 (-9007199254740993) = (-9007199254740992)%Z
  /\ round64 9223372036854775807 = 9223372036854775808%Z.
Proof. repeat split; reflexivity. Qed.

(** Documents read on their own: the empty object, [null], an array, no
    input, and an object with white space and a key written twice. *)
Example Unmarshal_documents :
  Unmarshal "{}" = (Some [], None)
  /\ Unmarshal "null" = (None, None)
  /\ Unmarshal "[]" = (None, Some UnmarshalTypeError)
  /\ Unmarshal "" = (None, Some SyntaxError)
  /\ Unmarshal (" { " ++ quote "b" ++ " : [ 1 , 2 ] , " ++ quote "a"
                ++ " : true, " ++ quote "b" ++ " : null } ")
     = (Some [("a", Bool true); ("b", Nil)], None).
Proof. repeat split; reflexivity. Qed.

End JSONFacts.

(** ** Save *)
Section SaveFacts.

Context {DB : Type} `{Database DB}.

Lemma Save_range_inserted tx pre rest db db1 :
  inserted tx pre db db1 ->
  Save_range tx insertThing (pre ++ rest) db = Save_range tx insertThing rest db1.
Proof.
  induction 1 as [|th ths dbth res db db1 db2 Henc Hexec _ IH]; [reflexivity|].
  simpl. rewrite Henc, Hexec. exact IH.
Qed.

Lemma Save_range_all tx ths db db1 :
  inserted tx ths db db1 -> Save_range tx insertThing ths db = (None, db1).
Proof.
  intros Hins. rewrite <- (app_nil_r ths).
  rewrite (Save_range_inserted _ _ [] _ _ Hins). reflexivity.
Qed.

Lemma insert_error_kind tx e db :
  exists k,
    (let (_, db) := Tx_Rollback tx db in
     match asPqError e with
     | Some name =>
         if String.eqb name errInvalid || String.eqb name errTruncation
         then (Wrap things.ErrMalformedEntity (Some e), db)
         else if String.eqb name errDuplicate
         then (Wrap things.ErrConflict (Some e), db)
         else (Wrap things.ErrCreateEntity (Some e), db)
     | None => (Wrap things.ErrCreateEntity (Some e), db)
     end) = (Some (Custom k (Some e)), snd (Tx_Rollback tx db))
    /\ k = Save_kind (InsertFailed e).
Proof.
  destruct (Tx_Rollback tx db) as [r db']. simpl snd.
  destruct e; simpl; try (eexists; split; reflexivity).
  destruct (String.eqb name errInvalid); simpl; [eexists; split; reflexivity|].
  destruct (String.eqb name errTruncation); simpl; [eexists; split; reflexivity|].
  destruct (String.eqb name errDuplicate); eexists; split; reflexivity.
Qed.

(** The loop of [Save] either inserts every Thing, or stops at the first
    Thing that does not encode or that the store does not insert. *)
Lemma Save_range_cases tx ths db :
  (exists db1, inserted tx ths db db1
               /\ Save_range tx insertThing ths db = (None, db1))
  \/ (exists pre th rest db1 d e,
        ths = (pre ++ th :: rest)%list /\ inserted tx pre db db1 /\
        toDBThing th = (d, Some e) /\
        Save_range tx insertThing ths db
        = (Some (Custom things.ErrCreateEntity (Some e)), db1))
  \/ (exists pre th rest db1 dbth e db2,
        ths = (pre ++ th :: rest)%list /\ inserted tx pre db db1 /\
        toDBThing th = (dbth, None) /\
        Tx_NamedExecContext tx insertThing dbth db1 = (inr e, db2) /\
        Save_range tx insertThing ths db
        = (Some (Custom (Save_kind (InsertFailed e)) (Some e)),
           snd (Tx_Rollback tx db2))).
Proof.
  revert db. induction ths as [|th ths IH]; intros db.
  - left. exists db. split; [constructor | reflexivity].
  - destruct (toDBThing th) as [dbth [e|]] eqn:Henc.
    + right; left. exists [], th, ths, db, dbth, e.
      repeat split; try constructor; auto.
      simpl. rewrite Henc. reflexivity.
    + destruct (Tx_NamedExecContext tx insertThing dbth db) as [[res|e] db1] eqn:Hexec.
      * destruct (IH db1) as [(db2 & Hins & Heq)
                             |[(pre & th' & rest & db2 & d & e & -> & Hins & Henc' & Heq)
                              |(pre & th' & rest & db2 & dbth' & e & db3 & -> & Hins & Henc' & Hexec' & Heq)]].
        -- left. exists db2. split; [econstructor; eauto|].
           simpl. rewrite Henc, Hexec. exact Heq.
        -- right; left. exists (th :: pre), th', rest, db2, d, e.
           repeat split; auto; [econstructor; eauto|].
           simpl. rewrite Henc, Hexec. exact Heq.
        -- right; right. exists (th :: pre), th', rest, db2, dbth', e, db3.
           repeat split; auto; [econstructor; eauto|].
           simpl. rewrite Henc, Hexec. exact Heq.
      * right; right. exists [], th, ths, db, dbth, e, db1.
        repeat split; try constructor; auto.
        simpl. rewrite Henc, Hexec.
        destruct (insert_error_kind tx e db1) as (k & Heq & ->). exact Heq.
Qed.

(** What [Save] returns when its run fails: the empty slice and the
    step's error under the kind of the step; the store is the one the
    failing step left, rolled back if the step was an insert. *)
Lemma Save_fails_returns ths db f db1 :
  Save_fails ths db f db1 ->
  fst (Save ths db)
  = (Some [], Some (Custom (Save_kind f) (Some (failure_error f))))
  /\ match f with
     | InsertFailed _ => rolled_back db db1 (snd (Save ths db))
     | _ => snd (Save ths db) = db1
     end.
Proof.
  intros Hf. unfold Save.
  destruct Hf as [e db0 Hb
                 |tx db0 pre th rest db1 d e Hb Hths Hins Henc
                 |tx db0 pre th rest db1 dbth e db2 Hb Hths Hins Henc Hexec
                 |tx db0 db1 e db2 Hb Hins Hc].
  - rewrite Hb. split; reflexivity.
  - rewrite Hb, Hths, (Save_range_inserted _ _ _ _ _ Hins).
    simpl. rewrite Henc. split; reflexivity.
  - rewrite Hb, Hths, (Save_range_inserted _ _ _ _ _ Hins).
    simpl. rewrite Henc, Hexec.
    destruct (insert_error_kind tx e db2) as (k & Heq & ->).
    rewrite Heq. split; [reflexivity|].
    exists tx, db0. split; [assumption | reflexivity].
  - rewrite Hb, (Save_range_all _ _ _ _ Hins), Hc. split; reflexivity.
Qed.

(** Every run of [Save] commits or fails at one of the steps. *)
Lemma Save_commits_or_fails ths db :
  (exists db', Save_commits ths db db' /\ Save ths db = ((ths, None), db'))
  \/ (exists f db1, Save_fails ths db f db1).
Proof.
  destruct (BeginTxx db) as [[tx|e] db0] eqn:Hb.
  - destruct (Save_range_cases tx (elements ths) db0)
      as [(db1 & Hins & Heq)
         |[(pre & th & rest & db1 & d & e & Hths & Hins & Henc & Heq)
          |(pre & th & rest & db1 & dbth & e & db2 & Hths & Hins & Henc & Hexec & Heq)]].
    + destruct (Tx_Commit tx db1) as [[e|] db2] eqn:Hc.
      * right. exists (CommitFailed e), db2. eapply fails_commit; eauto.
      * left. exists db2. split.
        -- exists tx, db0, db1. auto.
        -- unfold Save. rewrite Hb, Heq, Hc. reflexivity.
    + right. exists (EncodeFailed e), db1. eapply fails_encode; eauto.
    + right. exists (InsertFailed e), db2. eapply fails_insert; eauto.
  - right. exists (BeginFailed e), db0. apply fails_begin; assumption.
Qed.

End SaveFacts.

(** C2.  The error kind of a failed [Save]: when the store rejects an
    insert as an invalid text representation or a string truncation the
    kind is MalformedEntity, when it reports a uniqueness violation the
    kind is Conflict, and for every other failure (the transaction not
    beginning or not committing, any other error of an insert, a Thing
    whose metadata does not encode) the kind is CreateEntity. *)
Theorem Save_error_kind {DB : Type} `{Database DB}
        (ths : slice things.Thing) (db : DB) (f : Failure) (db1 : DB) :
  Save_fails ths db f db1 ->
  kind (snd (fst (Save ths db))) = Some (Save_kind f).
Proof.
  intros Hf. destruct (Save_fails_returns _ _ _ _ Hf) as [-> _]. reflexivity.
Qed.

(** Two Things with the same ID: the store refuses the second insert as
    a uniqueness violation. *)
Lemma Save_error_kind_witness :
  kind (snd (fst (Save (Some [example.lamp; example.lamp])
                       (mock.scripted [mock.ReplyOK; mock.ReplyOK;
                                       mock.ReplyError (PqError errDuplicate)]))))
  = Some (Save_kind (InsertFailed (PqError errDuplicate))).
Proof.
  eapply Save_error_kind.
  eapply fails_insert with (pre := [example.lamp]); try reflexivity.
  - eapply inserted_cons; try reflexivity. apply inserted_nil.
  - reflexivity.
Defined.

(** The kinds of C2, one failure at a time. *)
Lemma Save_kind_cases :
  Save_kind (InsertFailed (PqError errInvalid)) = things.ErrMalformedEntity
  /\ Save_kind (InsertFailed (PqError errTruncation)) = things.ErrMalformedEntity
  /\ Save_kind (InsertFailed (PqError errDuplicate)) = things.ErrConflict
  /\ Save_kind (InsertFailed (PqError errFK)) = things.ErrCreateEntity
  /\ (forall e, asPqError e = None -> Save_kind (InsertFailed e) = things.ErrCreateEntity)
  /\ (forall e, Save_kind (EncodeFailed e) = things.ErrCreateEntity)
  /\ (forall e, Save_kind (BeginFailed e) = things.ErrCreateEntity)
  /\ (forall e, Save_kind (CommitFailed e) = things.ErrCreateEntity).
Proof.
  repeat split; try reflexivity.
  intros e He. destruct e; try reflexivity. discriminate He.
Qed.

(** C9.  A failed [Save] returns the empty slice, not nil and not the
    Things inserted before the failure; a non-empty slice comes back only
    with no error, is the slice of the call, and the whole batch was
    inserted in a transaction that committed. *)
Theorem Save_failure_returns_empty {DB : Type} `{Database DB}
        (ths : slice things.Thing) (db : DB) :
  (forall e, snd (fst (Save ths db)) = Some e ->
             fst (fst (Save ths db)) = Some [])
  /\ (forall l, fst (fst (Save ths db)) = Some l -> l <> [] ->
                snd (fst (Save ths db)) = None
                /\ ths = Some l
                /\ Save_commits ths db (snd (Save ths db))).
Proof.
  destruct (Save_commits_or_fails ths db)
    as [(db' & Hc & Heq)|(f & db1 & Hf)].
  - rewrite Heq. simpl. split.
    + intros e He. discriminate He.
    + intros l Hl _. auto.
  - destruct (Save_fails_returns _ _ _ _ Hf) as [Heq _].
    rewrite Heq. simpl. split.
    + reflexivity.
    + intros l [= <-] Hne. now elim Hne.
Qed.

(** The same failing call, and a call that commits. *)
Lemma Save_failure_returns_empty_witness :
  fst (fst (Save (Some [example.lamp; example.lamp])
                 (mock.scripted [mock.ReplyOK; mock.ReplyOK;
                                 mock.ReplyError (PqError errDuplicate)])))
  = Some []
  /\ Save_commits (Some [example.lamp]) (mock.scripted [])
                  (snd (Save (Some [example.lamp]) (mock.scripted []))).
Proof.
  split.
  - eapply (proj1 (Save_failure_returns_empty _ _)). reflexivity.
  - eapply (proj2 (Save_failure_returns_empty _ _)); [reflexivity | discriminate].
Defined.

(** C1.  [Save(lamp, broken)]: the transaction begins, the lamp is
    inserted, the second Thing does not encode, and [Save] returns with
    the transaction neither rolled back nor committed: the last call the
    store received is the insert of the lamp. *)
Theorem Save_encode_failure_not_rolled_back :
  Save (Some [example.lamp; example.broken]) (mock.scripted [])
  = ((Some [],
      Some (Custom things.ErrCreateEntity
              (Some (Custom things.ErrMalformedEntity
                       (Some (JSONError json.UnsupportedTypeError)))))),
     mock.mkMock []
       [mock.CallBeginTxx; mock.CallTxExec 0 insertThing example.lamp_row] 1).
Proof. reflexivity. Qed.

(** The sibling path of C1: when the store fails the second insert the
    transaction is rolled back. *)
Lemma Save_insert_failure_rolled_back :
  Save (Some [example.lamp; example.lamp])
       (mock.scripted [mock.ReplyOK; mock.ReplyOK;
                       mock.ReplyError (PqError errDuplicate)])
  = ((Some [], Some (Custom things.ErrConflict (Some (PqError errDuplicate)))),
     mock.mkMock []
       [mock.CallBeginTxx; mock.CallTxExec 0 insertThing example.lamp_row;
        mock.CallTxExec 0 insertThing example.lamp_row; mock.CallRollback 0] 1).
Proof. reflexivity. Qed.

(** On any store: a failed insert is followed by the rollback of the
    transaction, a failed encoding by nothing. *)
Lemma Save_store_after_failure {DB : Type} `{Database DB}
      (ths : slice things.Thing) (db : DB) (f : Failure) (db1 : DB) :
  Save_fails ths db f db1 ->
  match f with
  | InsertFailed _ => rolled_back db db1 (snd (Save ths db))
  | _ => snd (Save ths db) = db1
  end.
Proof. intros Hf. exact (proj2 (Save_fails_returns _ _ _ _ Hf)). Qed.

(** On success [Save] returns the Things it was given, and the batch
    committed. *)
Lemma Save_success {DB : Type} `{Database DB}
      (ths : slice things.Thing) (db : DB) :
  snd (fst (Save ths db)) = None ->
  fst (fst (Save ths db)) = ths /\ Save_commits ths db (snd (Save ths db)).
Proof.
  destruct (Save_commits_or_fails ths db)
    as [(db' & Hc & Heq)|(f & db1 & Hf)].
  - rewrite Heq. simpl. auto.
  - destruct (Save_fails_returns _ _ _ _ Hf) as [Heq _].
    rewrite Heq. simpl. discriminate.
Qed.

(** ** Update and UpdateKey *)

(** C3.  [UpdateKey] on a store that rejects the key as too long (a
    string truncation): the error comes back as UpdateEntity, where
    [Save] and [Update] give MalformedEntity for the same store error. *)
Theorem UpdateKey_truncation_is_UpdateEntity :
  UpdateKey "alice" "6ba7b810-9dad-11d1-80b4-00c04fd430c8" "key-9"
            (mock.scripted [mock.ReplyError (PqError errTruncation)])
  = (Some (Custom things.ErrUpdateEntity (Some (PqError errTruncation))),
     mock.mkMock []
       [mock.CallExec updateThingKey
          (mkDbThing "6ba7b810-9dad-11d1-80b4-00c04fd430c8" "alice" "" "key-9" "")]
       0).
Proof. reflexivity. Qed.

(** The same store error through [Update] and through [Save]. *)
Lemma Update_truncation_is_MalformedEntity :
  kind (fst (Update example.lamp
                    (mock.scripted [mock.ReplyError (PqError errTruncation)])))
  = Some things.ErrMalformedEntity
  /\ kind (snd (fst (Save (Some [example.lamp])
                          (mock.scripted [mock.ReplyOK;
                                          mock.ReplyError (PqError errTruncation)]))))
     = Some things.ErrMalformedEntity.
Proof. split; reflexivity. Qed.

(** What [UpdateKey] does with the errors of the store, on any store. *)
Lemma UpdateKey_error_kind {DB : Type} `{Database DB}
      (owner id key : string) (db : DB) (e : Err) (db' : DB) :
  NamedExecContext updateThingKey (mkDbThing id owner "" key "") db = (inr e, db') ->
  UpdateKey owner id key db
  = (Some (Custom (match e with
                   | PqError name =>
                       if String.eqb name errInvalid then things.ErrMalformedEntity
                       else if String.eqb name errDuplicate then things.ErrConflict
                       else things.ErrUpdateEntity
                   | _ => things.ErrUpdateEntity
                   end) (Some e)), db').
Proof.
  intros He. unfold UpdateKey. rewrite He.
  destruct e; simpl; try reflexivity.
  destruct (String.eqb name errInvalid); [reflexivity|].
  destruct (String.eqb name errDuplicate); reflexivity.
Qed.

(** C4.  [Update] on a store that executes the statement and then fails
    to give the affected-row count: the failure is not reported as
    UpdateEntity; with the count read as zero the call returns NotFound,
    with any other count it returns no error. *)
Theorem Update_rows_affected_error_is_lost :
  fst (Update example.lamp
         (mock.scripted [mock.ReplyResult (mkResult (0%Z, Some example.lost))]))
  = Some (Custom things.ErrNotFound None)
  /\ fst (Update example.lamp
            (mock.scripted [mock.ReplyResult (mkResult (1%Z, Some example.lost))]))
     = None.
Proof. split; reflexivity. Qed.

(** On any store, [Update] does not look at the error of the count. *)
Lemma Update_ignores_count_error {DB : Type} `{Database DB}
      (t : things.Thing) (db : DB) (dbth : dbThing) (cnt : Z)
      (errdb : error) (db' : DB) :
  toDBThing t = (dbth, None) ->
  NamedExecContext updateThing dbth db = (inl (mkResult (cnt, errdb)), db') ->
  Update t db
  = (if (cnt =? 0)%Z then Some (Custom things.ErrNotFound None) else None, db').
Proof.
  intros Henc Hexec. unfold Update. rewrite Henc, Hexec. simpl.
  destruct (cnt =? 0)%Z; reflexivity.
Qed.

(** The sibling [UpdateKey] reports it as UpdateEntity. *)
Lemma UpdateKey_count_error {DB : Type} `{Database DB}
      (owner id key : string) (db : DB) (cnt : Z) (e : Err) (db' : DB) :
  NamedExecContext updateThingKey (mkDbThing id owner "" key "") db
  = (inl (mkResult (cnt, Some e)), db') ->
  UpdateKey owner id key db = (Some (Custom things.ErrUpdateEntity (Some e)), db').
Proof. intros Hexec. unfold UpdateKey. rewrite Hexec. reflexivity. Qed.

(** The other failures of [Update], on any store: an encoding failure and
    an unclassified store error are UpdateEntity, an invalid or truncated
    value is MalformedEntity, and a count of zero is NotFound. *)
Lemma Update_error_kind {DB : Type} `{Database DB} (t : things.Thing) (db : DB) :
  (forall d e, toDBThing t = (d, Some e) ->
     Update t db = (Some (Custom things.ErrUpdateEntity (Some e)), db))
  /\ (forall dbth e db', toDBThing t = (dbth, None) ->
        NamedExecContext updateThing dbth db = (inr e, db') ->
        Update t db
        = (Some (Custom (match e with
                         | PqError name =>
                             if String.eqb name errInvalid || String.eqb name errTruncation
                             then things.ErrMalformedEntity
                             else things.ErrUpdateEntity
                         | _ => things.ErrUpdateEntity
                         end) (Some e)), db'))
  /\ (forall dbth cnt db', toDBThing t = (dbth, None) ->
        NamedExecContext updateThing dbth db = (inl (mkResult (cnt, None)), db') ->
        Update t db
        = (if (cnt =? 0)%Z then Some (Custom things.ErrNotFound None) else None, db')).
Proof.
  unfold Update. repeat split.
  - intros d e ->. reflexivity.
  - intros dbth e db' -> ->. destruct e; simpl; try reflexivity.
    destruct (String.eqb name errInvalid || String.eqb name errTruncation);
      reflexivity.
  - intros dbth cnt db' -> ->. simpl. destruct (cnt =? 0)%Z; reflexivity.
Qed.

(** ** Remove *)

Lemma Remove_returns {DB : Type} `{Database DB} (owner id : string) (db : DB) :
  Remove owner id db
  = (Remove_error (fst (NamedExecContext deleteThing (mkDbThing id owner "" "" "") db)),
     snd (NamedExecContext deleteThing (mkDbThing id owner "" "" "") db)).
Proof.
  unfold Remove.
  destruct (NamedExecContext deleteThing (mkDbThing id owner "" "" "") db)
    as [[res|c] db']; reflexivity.
Qed.

(** Calls of [Remove] in a row return what the executions of the delete
    give. *)
Lemma Remove_times_delete_times {DB : Type} `{Database DB}
      (n : nat) (owner id : string) (db : DB) :
  Remove_times n owner id db
  = (List.map Remove_error (fst (delete_times n owner id db)),
     snd (delete_times n owner id db)).
Proof.
  revert db. induction n as [|n IH]; intros db; [reflexivity|].
  cbn [Remove_times delete_times]. rewrite Remove_returns.
  destruct (NamedExecContext deleteThing (mkDbThing id owner "" "" "") db)
    as [r db'].
  cbn [fst snd]. rewrite IH.
  destruct (delete_times n owner id db') as [rs db'']. reflexivity.
Qed.

(** C7.  [Remove] returns no error whenever the store executes the
    delete, whatever the number of rows it affected, zero included; any
    number of calls in a row return what the executions of the delete
    give, so they all succeed when the executions do; and an error of
    [Remove] is the error of the execution under the kind RemoveEntity. *)
Theorem Remove_idempotent {DB : Type} `{Database DB}
        (owner id : string) (db : DB) :
  (forall res db',
      NamedExecContext deleteThing (mkDbThing id owner "" "" "") db = (inl res, db') ->
      Remove owner id db = (None, db'))
  /\ (forall e,
        fst (Remove owner id db) = Some e ->
        kind (Some e) = Some things.ErrRemoveEntity
        /\ exists c db',
            NamedExecContext deleteThing (mkDbThing id owner "" "" "") db = (inr c, db')
            /\ e = Custom things.ErrRemoveEntity (Some c))
  /\ (forall n,
        Remove_times n owner id db
        = (List.map Remove_error (fst (delete_times n owner id db)),
           snd (delete_times n owner id db))
        /\ (Forall (fun r => exists res, r = inl res)
                   (fst (delete_times n owner id db)) ->
            Forall (fun err => err = None) (fst (Remove_times n owner id db)))).
Proof.
  split; [|split].
  - intros res db' Hexec. rewrite Remove_returns, Hexec. reflexivity.
  - intros e. rewrite Remove_returns.
    destruct (NamedExecContext deleteThing (mkDbThing id owner "" "" "") db)
      as [[res|c] db']; cbn [fst Remove_error]; [discriminate|].
    intros [= <-]. split; [reflexivity|]. exists c, db'. split; reflexivity.
  - intros n. split; [apply Remove_times_delete_times|].
    rewrite Remove_times_delete_times. cbn [fst].
    induction 1 as [|r rs [res ->] _ IH]; constructor; [reflexivity | exact IH].
Qed.

(** [Remove] of a Thing the store has no row for, and [Remove] on a store
    that fails. *)
Lemma Remove_idempotent_witness :
  Remove "alice" "6ba7b810-9dad-11d1-80b4-00c04fd430c8"
         (mock.scripted [mock.ReplyResult (mkResult (0%Z, None))])
  = (None,
     mock.mkMock []
       [mock.CallExec deleteThing
          (mkDbThing "6ba7b810-9dad-11d1-80b4-00c04fd430c8" "alice" "" "" "")] 0)
  /\ kind (fst (Remove "alice" "6ba7b810-9dad-11d1-80b4-00c04fd430c8"
                       (mock.scripted [mock.ReplyError example.lost])))
     = Some things.ErrRemoveEntity.
Proof.
  split.
  - eapply (proj1 (Remove_idempotent _ _ _)). reflexivity.
  - exact (proj1 (proj1 (proj2 (Remove_idempotent
                                  "alice" "6ba7b810-9dad-11d1-80b4-00c04fd430c8"
                                  (mock.scripted [mock.ReplyError example.lost])))
                        (Custom things.ErrRemoveEntity (Some example.lost))
                        eq_refl)).
Defined.

(** Two calls in a row on a store that finds no row either time. *)
Example Remove_twice :
  fst (Remove_times 2 "alice" "6ba7b810-9dad-11d1-80b4-00c04fd430c8"
         (mock.scripted [mock.ReplyResult (mkResult (0%Z, None));
                         mock.ReplyResult (mkResult (0%Z, None))]))
  = [None; None].
Proof. reflexivity. Qed.

(** ** RetrieveByID *)

Lemma StructScan_error (cols : Columns) (d d' : dbThing) (e : Err) :
  StructScan cols d = (d', Some e) -> exists msg, e = DriverError msg.
Proof.
  revert d. induction cols as [|[name a] cols IH]; intros d; simpl.
  - discriminate.
  - repeat match goal with
           | |- context [if String.eqb ?x ?y then _ else _] =>
               destruct (String.eqb x y)
           end;
      destruct a; simpl; solve [apply IH | intros [= _ <-]; eauto].
Qed.

(** C5, as stated, fails: for the identifier [not-a-uuid], which
    [uuid.FromString] refuses, [RetrieveByID] does query the store; the
    store fails on the type of the value, and that error is what comes
    back as NotFound. *)
Lemma RetrieveByID_queries_before_validating :
  uuid.FromString "not-a-uuid" = Some UUIDError
  /\ RetrieveByID "alice" "not-a-uuid"
                  (mock.scripted [mock.ReplyError (PqError errInvalid)])
     = ((Thing_zero, Some (Custom things.ErrNotFound (Some (PqError errInvalid)))),
        mock.mkMock []
          [mock.CallQueryRow selectThing
             [ArgString "not-a-uuid"; ArgString "alice"]] 0).
Proof. split; reflexivity. Qed.

(** The sibling [RetrieveByChannel] validates first: a malformed channel
    identifier is NotFound and the store is not touched. *)
Lemma RetrieveByChannel_validates_first {DB : Type} `{Database DB}
      (owner channel : string) (offset limit : N) (connected : bool) (db : DB) :
  uuid.FromString channel <> None ->
  RetrieveByChannel owner channel offset limit connected db
  = ((Page_zero, Some (Custom things.ErrNotFound None)), db).
Proof.
  intros Hbad. unfold RetrieveByChannel.
  destruct (uuid.FromString channel); [reflexivity | now elim Hbad].
Qed.

(** C5, amended.  [RetrieveByID] queries the store with [(id, owner)]
    whatever the identifier is.  It fails with NotFound when the store
    finds no row and when the store rejects the identifier as an invalid
    text representation, and with SelectEntity on any other failure of
    the query or of the scan of the row.  A row that is found comes back
    through [toThing] as the Thing with the ID and the Owner asked for. *)
Theorem RetrieveByID_translates_store_errors {DB : Type} `{Database DB}
        (owner id : string) (db : DB) :
  let q := QueryRowxContext selectThing [ArgString id; ArgString owner] db in
  snd (RetrieveByID owner id db) = snd q
  /\ (forall e, fst q = inr e -> e = ErrNoRows \/ e = PqError errInvalid ->
        fst (RetrieveByID owner id db)
        = (Thing_zero, Some (Custom things.ErrNotFound (Some e))))
  /\ (forall e, fst q = inr e -> e <> ErrNoRows -> e <> PqError errInvalid ->
        fst (RetrieveByID owner id db)
        = (Thing_zero, Some (Custom things.ErrSelectEntity (Some e))))
  /\ (forall cols d e, fst q = inl cols ->
        StructScan cols (mkDbThing id owner "" "" "") = (d, Some e) ->
        fst (RetrieveByID owner id db)
        = (Thing_zero, Some (Custom things.ErrSelectEntity (Some e))))
  /\ (forall name key metadata,
        fst q = inl [("name", ArgString name); ("key", ArgString key);
                     ("metadata", ArgBytes metadata)] ->
        fst (RetrieveByID owner id db)
        = toThing (mkDbThing id owner name key metadata)
        /\ forall m, json.Unmarshal metadata = (m, None) ->
             fst (RetrieveByID owner id db)
             = (things.mkThing id owner name key m, None)).
Proof.
  intros q. subst q. unfold RetrieveByID.
  destruct (QueryRowxContext selectThing [ArgString id; ArgString owner] db)
    as [[cols|e0] db'] eqn:Hq; cbn [fst snd].
  - split; [|split; [|split; [|split]]].
    + destruct (StructScan cols (mkDbThing id owner "" "" "")) as [d [e|]];
        [|reflexivity].
      destruct e; cbn [asPqError orb]; try reflexivity.
      destruct (String.eqb errInvalid name); reflexivity.
    + intros e [=].
    + intros e [=].
    + intros cols' d e [= <-] Hscan. rewrite Hscan.
      destruct (StructScan_error _ _ _ _ Hscan) as [msg ->]. reflexivity.
    + intros name key metadata [= ->]. split; [reflexivity|].
      intros m Hm. cbn. unfold toThing. cbn. rewrite Hm. reflexivity.
  - split; [|split; [|split; [|split]]].
    + destruct e0; cbn [asPqError orb]; try reflexivity.
      destruct (String.eqb errInvalid name); reflexivity.
    + intros e [= ->] [->| ->]; reflexivity.
    + intros e [= ->] Hno Hinv.
      destruct e; cbn [asPqError orb]; try reflexivity; [now elim Hno|].
      destruct (String.eqb_spec errInvalid name) as [<-|_];
        [now elim Hinv | reflexivity].
    + intros cols d e [=].
    + intros name key metadata [=].
Qed.

(** An identifier the store rejects, and a row the store finds. *)
Lemma RetrieveByID_translates_store_errors_witness :
  fst (RetrieveByID "alice" "not-a-uuid"
                    (mock.scripted [mock.ReplyError (PqError errInvalid)]))
  = (Thing_zero, Some (Custom things.ErrNotFound (Some (PqError errInvalid))))
  /\ fst (RetrieveByID "alice" "6ba7b810-9dad-11d1-80b4-00c04fd430c8"
            (mock.scripted
               [mock.ReplyRow [("name", ArgString "lamp"); ("key", ArgString "key-1");
                               ("metadata", ArgBytes "{}")]]))
     = (things.mkThing "6ba7b810-9dad-11d1-80b4-00c04fd430c8" "alice" "lamp"
                       "key-1" (Some []), None).
Proof.
  split.
  - destruct (RetrieveByID_translates_store_errors
                "alice" "not-a-uuid"
                (mock.scripted [mock.ReplyError (PqError errInvalid)]))
      as (_ & Hnotfound & _).
    apply Hnotfound; [reflexivity | right; reflexivity].
  - destruct (RetrieveByID_translates_store_errors
                "alice" "6ba7b810-9dad-11d1-80b4-00c04fd430c8"
                (mock.scripted
                   [mock.ReplyRow [("name", ArgString "lamp");
                                   ("key", ArgString "key-1");
                                   ("metadata", ArgBytes "{}")]]))
      as (_ & _ & _ & _ & Hfound).
    apply (Hfound "lamp" "key-1" "{}"); reflexivity.
Defined.

(** ** RetrieveAll *)

Lemma toThing_error (d : dbThing) (th : things.Thing) (e : Err) :
  toThing d = (th, Some e) ->
  exists je, e = Custom things.ErrMalformedEntity (Some (JSONError je)).
Proof.
  unfold toThing. destruct (json.Unmarshal (Metadata d)) as [m [je|]].
  - intros [= _ <-]. eauto.
  - discriminate.
Qed.

(** A failure of the loop over the rows is a scan failure, of kind
    SelectEntity, or a decoding failure, of kind ViewEntity. *)
Lemma scanRows_error (owner : string) (rows : list Columns)
      (items out : slice things.Thing) (err : error) :
  scanRows owner rows items = (out, err) ->
  err = None
  \/ kind err = Some things.ErrSelectEntity
  \/ (kind err = Some things.ErrViewEntity
      /\ exists je,
          cause err = Some (Custom things.ErrMalformedEntity (Some (JSONError je)))).
Proof.
  revert items. induction rows as [|cols rows IH]; intros items; simpl.
  - intros [= _ <-]. now left.
  - destruct (StructScan cols (mkDbThing "" owner "" "" "")) as [d [e|]].
    + intros [= _ <-]. right; left. reflexivity.
    + destruct (toThing d) as [th [e|]] eqn:Hth.
      * intros [= _ <-]. right; right. split; [reflexivity|].
        destruct (toThing_error _ _ _ Hth) as [je ->]. eexists; reflexivity.
      * apply IH.
Qed.

Lemma scanRows_app (owner : string) (pre rest : list Columns)
      (items items' : slice things.Thing) :
  scanRows owner pre items = (items', None) ->
  scanRows owner (pre ++ rest) items = scanRows owner rest items'.
Proof.
  revert items. induction pre as [|cols pre IH]; intros items; simpl.
  - intros [= ->]. reflexivity.
  - destruct (StructScan cols (mkDbThing "" owner "" "" "")) as [d [e|]];
      [discriminate|].
    destruct (toThing d) as [th [e|]]; [discriminate|]. apply IH.
Qed.

(** C6, as stated, fails: a row whose stored metadata is a JSON array
    does not decode into a mapping, and [RetrieveAll] returns the failure
    with the kind ViewEntity. *)
Lemma RetrieveAll_decode_failure_is_ViewEntity :
  kind (snd (fst (RetrieveAll "alice" 0 10 "" None
                              (mock.scripted [mock.ReplyRows [example.array_row]]))))
  = Some things.ErrViewEntity.
Proof. reflexivity. Qed.

(** C6, amended.  Every failure of [RetrieveAll] has the kind
    SelectEntity, except the failure to decode the stored metadata of a
    row, which has the kind ViewEntity: an error of kind ViewEntity wraps
    a decoding error, and the first row that scans but does not decode
    makes the call fail with it. *)
Theorem RetrieveAll_error_kind {DB : Type} `{Database DB}
        (owner : string) (offset limit : N) (name : string) (tm : gomap)
        (db : DB) :
  (let err := snd (fst (RetrieveAll owner offset limit name tm db)) in
   err = None
   \/ kind err = Some things.ErrSelectEntity
   \/ (kind err = Some things.ErrViewEntity
       /\ exists je,
           cause err = Some (Custom things.ErrMalformedEntity (Some (JSONError je)))))
  /\ (forall m mq pre cols rest db1 items dbth th e,
        getMetadataQuery tm = (m, mq, None) ->
        NamedQueryContext (selectPage mq (fst (getNameQuery name)))
                          (pageParams owner limit offset (snd (getNameQuery name)) m)
                          db
        = (inl (pre ++ cols :: rest)%list, db1) ->
        scanRows owner pre None = (items, None) ->
        StructScan cols (mkDbThing "" owner "" "" "") = (dbth, None) ->
        toThing dbth = (th, Some e) ->
        RetrieveAll owner offset limit name tm db
        = ((Page_zero, Some (Custom things.ErrViewEntity (Some e))), db1)).
Proof.
  split.
  - unfold RetrieveAll.
    destruct (getNameQuery name) as [nq name'].
    destruct (getMetadataQuery tm) as [[m mq] [e|]]; cbn [fst snd].
    + right; left. reflexivity.
    + destruct (NamedQueryContext (selectPage mq nq)
                  (pageParams owner limit offset name' m) db)
        as [[rows|e] db1]; cbn [fst snd].
      * destruct (scanRows owner rows None) as [items [e|]] eqn:Hscan.
        -- cbn [fst snd]. destruct (scanRows_error _ _ _ _ _ Hscan)
             as [Hn|Hk]; [discriminate Hn | right; exact Hk].
        -- destruct (total (countPage nq mq)
                       (pageParams owner limit offset name' m) db1)
             as [[n [e|]] db2]; cbn [fst snd].
           ++ right; left. reflexivity.
           ++ left. reflexivity.
      * right; left. reflexivity.
  - intros m mq pre cols rest db1 items dbth th e Hmq Hq Hpre Hscan Hth.
    unfold RetrieveAll.
    destruct (getNameQuery name) as [nq name']. cbn [fst snd] in Hq.
    rewrite Hmq, Hq, (scanRows_app _ _ _ _ _ Hpre). simpl.
    rewrite Hscan, Hth. reflexivity.
Qed.

(** A page of one row, whose metadata is a JSON array. *)
Lemma RetrieveAll_error_kind_witness :
  RetrieveAll "alice" 0 10 "" None
              (mock.scripted [mock.ReplyRows [example.array_row]])
  = ((Page_zero,
      Some (Custom things.ErrViewEntity
              (Some (Custom things.ErrMalformedEntity
                       (Some (JSONError json.UnmarshalTypeError)))))),
     mock.mkMock []
       [mock.CallQuery (selectPage "" "") (pageParams "alice" 10 0 "" "{}")] 0).
Proof.
  destruct (RetrieveAll_error_kind "alice" 0 10 "" None
              (mock.scripted [mock.ReplyRows [example.array_row]]))
    as [_ Hview].
  eapply (Hview "{}" "" [] example.array_row []); reflexivity.
Defined.

(** The other failures of [RetrieveAll], one at a time: the filter that
    does not encode, the page query, the scan of a row and the count
    query all give SelectEntity. *)
Lemma RetrieveAll_SelectEntity {DB : Type} `{Database DB}
      (owner : string) (offset limit : N) (name : string) (tm : gomap) (db : DB) :
  (forall m mq e, getMetadataQuery tm = (m, mq, Some e) ->
     RetrieveAll owner offset limit name tm db
     = ((Page_zero, Some (Custom things.ErrSelectEntity (Some e))), db))
  /\ (forall m mq e db1,
        getMetadataQuery tm = (m, mq, None) ->
        NamedQueryContext (selectPage mq (fst (getNameQuery name)))
                          (pageParams owner limit offset (snd (getNameQuery name)) m)
                          db = (inr e, db1) ->
        RetrieveAll owner offset limit name tm db
        = ((Page_zero, Some (Custom things.ErrSelectEntity (Some e))), db1))
  /\ (forall m mq pre cols rest db1 items d e,
        getMetadataQuery tm = (m, mq, None) ->
        NamedQueryContext (selectPage mq (fst (getNameQuery name)))
                          (pageParams owner limit offset (snd (getNameQuery name)) m)
                          db = (inl (pre ++ cols :: rest)%list, db1) ->
        scanRows owner pre None = (items, None) ->
        StructScan cols (mkDbThing "" owner "" "" "") = (d, Some e) ->
        RetrieveAll owner offset limit name tm db
        = ((Page_zero, Some (Custom things.ErrSelectEntity (Some e))), db1))
  /\ (forall m mq rows db1 items n e db2,
        getMetadataQuery tm = (m, mq, None) ->
        NamedQueryContext (selectPage mq (fst (getNameQuery name)))
                          (pageParams owner limit offset (snd (getNameQuery name)) m)
                          db = (inl rows, db1) ->
        scanRows owner rows None = (items, None) ->
        total (countPage (fst (getNameQuery name)) mq)
              (pageParams owner limit offset (snd (getNameQuery name)) m) db1
        = ((n, Some e), db2) ->
        RetrieveAll owner offset limit name tm db
        = ((Page_zero, Some (Custom things.ErrSelectEntity (Some e))), db2)).
Proof.
  unfold RetrieveAll. destruct (getNameQuery name) as [nq name']. cbn [fst snd].
  repeat split.
  - intros m mq e ->. reflexivity.
  - intros m mq e db1 -> ->. reflexivity.
  - intros m mq pre cols rest db1 items d e -> -> Hpre Hscan.
    rewrite (scanRows_app _ _ _ _ _ Hpre). simpl. rewrite Hscan. reflexivity.
  - intros m mq rows db1 items n e db2 -> -> -> ->. reflexivity.
Qed.

(** ** The codec between Things and rows *)

Lemma toDBThing_empty (th : things.Thing) :
  len (things.Metadata th) = 0 ->
  toDBThing th
  = (mkDbThing (things.ID th) (things.Owner th) (things.Name th)
               (things.Key th) "{}", None).
Proof. intros Hlen. unfold toDBThing. rewrite Hlen. reflexivity. Qed.

Lemma toDBThing_nonempty (th : things.Thing) :
  0 < len (things.Metadata th) ->
  toDBThing th
  = match json.Marshal (elements (things.Metadata th)) with
    | (_, Some e) =>
        (dbThing_zero, Some (Custom things.ErrMalformedEntity (Some (JSONError e))))
    | (b, None) =>
        (mkDbThing (things.ID th) (things.Owner th) (things.Name th)
                   (things.Key th) b, None)
    end.
Proof.
  intros Hlen. unfold toDBThing.
  destruct (Nat.ltb_spec 0 (len (things.Metadata th))) as [_|Hle]; [|lia].
  destruct (json.Marshal (elements (things.Metadata th))) as [b [e|]]; reflexivity.
Qed.

(** C8.  The metadata [toDBThing] puts in the row that [Save] and
    [Update] write: the serialized empty object for an empty or absent
    mapping, the output of [json.Marshal] for any other mapping; in both
    cases it is not the document [null], and it reads back as a JSON
    object. *)
Theorem toDBThing_metadata_is_object (th : things.Thing) (dbth : dbThing) :
  toDBThing th = (dbth, None) ->
  (len (things.Metadata th) = 0 -> Metadata dbth = "{}")
  /\ (0 < len (things.Metadata th) ->
      json.Marshal (elements (things.Metadata th)) = (Metadata dbth, None))
  /\ Metadata dbth <> "null"
  /\ exists m, json.Unmarshal (Metadata dbth) = (Some m, None).
Proof.
  intros Hth.
  destruct (Nat.eq_dec (len (things.Metadata th)) 0) as [Hz|Hnz].
  - rewrite (toDBThing_empty th Hz) in Hth. injection Hth as <-.
    cbn [Metadata]. repeat split.
    + intros Hpos. lia.
    + discriminate.
    + exists []. reflexivity.
  - assert (Hpos : 0 < len (things.Metadata th)) by lia.
    rewrite (toDBThing_nonempty th Hpos) in Hth.
    destruct (json.Marshal (elements (things.Metadata th))) as [b [e|]] eqn:Hb;
      [discriminate|].
    injection Hth as <-. cbn [Metadata].
    pose proof (Unmarshal_Marshal _ _ Hb) as Hu.
    repeat split.
    + intros Hz. lia.
    + intros ->. discriminate Hu.
    + eexists. exact Hu.
Qed.

(** A Thing without metadata and a Thing with some. *)
Lemma toDBThing_metadata_is_object_witness :
  Metadata (fst (toDBThing example.lamp)) = "{}"
  /\ exists m,
      json.Unmarshal (Metadata (fst (toDBThing example.sensor))) = (Some m, None).
Proof.
  split.
  - apply (proj1 (toDBThing_metadata_is_object
                    example.lamp (fst (toDBThing example.lamp)) eq_refl)).
    reflexivity.
  - apply (proj2 (proj2 (proj2 (toDBThing_metadata_is_object
                    example.sensor (fst (toDBThing example.sensor)) eq_refl)))).
Defined.

(** The row [Update] hands to the store is the one [toDBThing] gives, and
    so are the rows [Save] inserts (the premise of [inserted_cons]). *)
Lemma Update_executes_row {DB : Type} `{Database DB}
      (t : things.Thing) (db : DB) (dbth : dbThing) :
  toDBThing t = (dbth, None) ->
  snd (Update t db) = snd (NamedExecContext updateThing dbth db).
Proof.
  intros Henc. unfold Update. rewrite Henc.
  destruct (NamedExecContext updateThing dbth db) as [[res|e] db']; cbn [snd].
  - destruct (RowsAffected res) as [cnt errdb].
    destruct (cnt =? 0)%Z; reflexivity.
  - destruct (asPqError e) as [name|]; [|reflexivity].
    destruct (String.eqb name errInvalid || String.eqb name errTruncation);
      reflexivity.
Qed.

Example Save_writes_rows :
  mock.calls (snd (Save (Some [example.lamp; example.sensor]) (mock.scripted [])))
  = [mock.CallBeginTxx;
     mock.CallTxExec 0 insertThing (fst (toDBThing example.lamp));
     mock.CallTxExec 0 insertThing (fst (toDBThing example.sensor));
     mock.CallCommit 0].
Proof. reflexivity. Qed.

(** The rows the example Things are written with. *)
Example toDBThing_sensor :
  Metadata (fst (toDBThing example.sensor))
  = String.concat ""
      ["{"; json.quote "region"; ":"; json.quote "eu"; ",";
       json.quote "tags"; ":["; json.quote "a<b"; ",null,true],";
       json.quote "zone"; ":{"; json.quote "floor"; ":-2}}"].
Proof. reflexivity. Qed.




(** * Further properties of the codec *)

Section MoreJSONFacts.
Import json roundtrip.

Ltac unbind H x Hx :=
  match type of H with
  | bind ?o _ = Some _ =>
      destruct o as [x|] eqn:Hx; [|discriminate H]; cbn [bind] in H
  end.

Lemma serializable_elems l :
  Forall (fun v => forall b, encode v = Some b -> serializable v = true) l ->
  forall t, encode_elems l = Some t -> forallb serializable l = true.
Proof.
  induction 1 as [|w ws Hw _ IH]; intros t Ht; [reflexivity|].
  cbn [encode_elems] in Ht. unbind Ht x Hx. unbind Ht y Hy.
  cbn [forallb]. rewrite (Hw x eq_refl), (IH y eq_refl). reflexivity.
Qed.

Lemma serializable_members l :
  Forall (fun kv : string * Value =>
            forall b, encode (snd kv) = Some b -> serializable (snd kv) = true) l ->
  forall t, encode_members l = Some t ->
  forallb (fun kv : string * Value => let (_, w) := kv in serializable w) l = true.
Proof.
  induction 1 as [|[k w] ws Hw _ IH]; intros t Ht; [reflexivity|].
  cbn [encode_members] in Ht. cbn [snd] in Hw. unbind Ht x Hx. unbind Ht y Hy.
  cbn [forallb]. rewrite (Hw x eq_refl), (IH y eq_refl). reflexivity.
Qed.

(** A value with an encoding holds no channel. *)
Lemma serializable_encode v : forall b, encode v = Some b -> serializable v = true.
Proof.
  induction v as [| b | n | n | s | l Hl | m Hm |] using Value_ind'; intros b' Hb;
    try reflexivity; try discriminate.
  - destruct l as [|v vs]; [reflexivity|].
    rewrite encode_Slice_cons in Hb. unbind Hb a Ha. unbind Hb t Ht.
    inversion Hl as [|? ? Hv Hvs]; subst.
    cbn [serializable forallb].
    rewrite (Hv a Ha), (serializable_elems vs Hvs t Ht). reflexivity.
  - destruct m as [|[k v] ms]; [reflexivity|].
    rewrite encode_Map_cons in Hb. unbind Hb a Ha. unbind Hb t Ht.
    inversion Hm as [|? ? Hv Hvs]; subst. cbn [snd] in Hv.
    cbn [serializable forallb].
    rewrite (Hv a Ha), (serializable_members ms Hvs t Ht). reflexivity.
Qed.

(** [json.Marshal] fails exactly on the mappings that hold a channel. *)
Lemma Marshal_error m :
  snd (Marshal m) = if serializable (Map m) then None else Some UnsupportedTypeError.
Proof.
  unfold Marshal. destruct (encode (Map m)) as [b|] eqn:Hb.
  - rewrite (serializable_encode _ _ Hb). reflexivity.
  - destruct (serializable (Map m)) eqn:Hs; [|reflexivity].
    destruct (encode_serializable _ Hs) as [b Hb']. congruence.
Qed.

(* maps built by assignment are in increasing key order *)
Lemma map_insert_head k v m :
  match map_insert k v m with
  | [] => False
  | (k1, _) :: _ => k1 = k \/ exists v' m', m = (k1, v') :: m' /\ String.compare k1 k = Lt
  end.
Proof.
  destruct m as [|[k' v'] m']; cbn [map_insert]; [left; reflexivity|].
  destruct (String.compare k k') eqn:Hc.
  - left; reflexivity.
  - left; reflexivity.
  - right. exists v', m'. split; [reflexivity|].
    rewrite String.compare_antisym, Hc. reflexivity.
Qed.

Lemma map_insert_increasing k v m :
  increasing (List.map fst m) = true ->
  increasing (List.map fst (map_insert k v m)) = true.
Proof.
  induction m as [|[k' v'] m IH]; intros Hinc; [reflexivity|].
  cbn [map_insert]. destruct (String.compare k k') eqn:Hc.
  - apply String.compare_eq_iff in Hc. subst k'. exact Hinc.
  - cbn [List.map fst increasing]. cbn [List.map fst] in Hinc.
    unfold String.ltb. rewrite Hc. cbn [andb].
    destruct (List.map fst m); exact Hinc.
  - cbn [List.map fst] in *.
    pose proof (increasing_tail _ _ Hinc) as Htail. specialize (IH Htail).
    pose proof (map_insert_head k v m) as Hhead.
    destruct (map_insert k v m) as [|[k1 v1] r] eqn:Hins; [contradiction|].
    cbn [List.map fst increasing] in *. rewrite IH. rewrite andb_true_r.
    unfold String.ltb.
    destruct Hhead as [->|(v2 & m2 & -> & _)].
    + rewrite String.compare_antisym, Hc. reflexivity.
    + cbn [List.map fst increasing] in Hinc.
      apply andb_true_iff in Hinc. destruct Hinc as [Hlt _].
      apply ltb_lt in Hlt. rewrite Hlt. reflexivity.
Qed.

Lemma fold_insert_is_increasing l acc :
  increasing (List.map fst acc) = true ->
  increasing (List.map fst
    (fold_left (fun m kv => map_insert (fst kv) (snd kv) m) l acc)) = true.
Proof.
  revert acc. induction l as [|[k v] l IH]; intros acc Hacc; [exact Hacc|].
  cbn [fold_left]. apply IH. apply map_insert_increasing. exact Hacc.
Qed.

Lemma map_of_members_is_increasing l :
  increasing (List.map fst (map_of_members l)) = true.
Proof. apply fold_insert_is_increasing. reflexivity. Qed.

Lemma map_of_members_idem l : map_of_members (map_of_members l) = map_of_members l.
Proof. apply map_of_members_increasing, map_of_members_is_increasing. Qed.

Lemma map_insert_In k v m x :
  In x (map_insert k v m) -> x = (k, v) \/ In x m.
Proof.
  induction m as [|[k' v'] m IH]; cbn [map_insert].
  - intros [<-|[]]. left; reflexivity.
  - destruct (String.compare k k').
    + intros [<-|Hin]; [left; reflexivity | right; right; exact Hin].
    + intros [<-|Hin]; [left; reflexivity | right; exact Hin].
    + intros [<-|Hin]; [right; left; reflexivity|].
      destruct (IH Hin) as [->|Hm]; [left; reflexivity | right; right; exact Hm].
Qed.

Lemma fold_insert_In l : forall acc x,
  In x (fold_left (fun m kv => map_insert (fst kv) (snd kv) m) l acc) ->
  In x l \/ In x acc.
Proof.
  induction l as [|[k v] l IH]; intros acc x Hin; [right; exact Hin|].
  cbn [fold_left fst snd] in Hin. destruct (IH _ _ Hin) as [Hl|Hacc].
  - left; right; exact Hl.
  - destruct (map_insert_In _ _ _ _ Hacc) as [->|Hm];
      [left; left; reflexivity | right; exact Hm].
Qed.

(** A map built by assignment holds members that were assigned. *)
Lemma map_of_members_In l x : In x (map_of_members l) -> In x l.
Proof.
  intros Hin. destruct (fold_insert_In l [] x Hin) as [H|[]]. exact H.
Qed.

Lemma decoded_members_fixed m :
  (forall k w, In (k, w) m -> sanitize k = k /\ decoded w = w) ->
  decoded_members m = m.
Proof.
  unfold decoded_members. induction m as [|[k w] m IH]; intros H; [reflexivity|].
  cbn [List.map]. destruct (H k w (or_introl eq_refl)) as [-> ->].
  rewrite IH; [reflexivity|]. intros k' w' Hin. apply H. right; exact Hin.
Qed.

(** A map the decoder built is its own decoded form, when those of its
    values are. *)
Lemma decoded_members_built l :
  Forall (fun kv : string * Value => decoded (decoded (snd kv)) = decoded (snd kv)) l ->
  decoded_members (map_of_members (decoded_members l))
  = map_of_members (decoded_members l).
Proof.
  intros Hl. apply decoded_members_fixed. intros k w Hin.
  apply map_of_members_In in Hin. unfold decoded_members in Hin.
  apply in_map_iff in Hin. destruct Hin as ([k0 w0] & [= <- <-] & Hin0).
  split; [apply sanitize_idem|].
  rewrite Forall_forall in Hl. exact (Hl (k0, w0) Hin0).
Qed.

(** Decoding twice is decoding once. *)
Lemma decoded_idem v : decoded (decoded v) = decoded v.
Proof.
  induction v as [| b | n | n | s | l Hl | m Hm |] using Value_ind';
    try reflexivity.
  - cbn [decoded]. rewrite round64_idem. reflexivity.
  - cbn [decoded]. rewrite round64_idem. reflexivity.
  - cbn [decoded]. rewrite sanitize_idem. reflexivity.
  - cbn [decoded]. f_equal. rewrite List.map_map.
    induction Hl as [|v vs Hv _ IH]; [reflexivity|].
    cbn [List.map]. rewrite Hv, IH. reflexivity.
  - cbn [decoded]. f_equal.
    change (map_of_members (decoded_members (map_of_members (decoded_members m)))
            = map_of_members (decoded_members m)).
    rewrite (decoded_members_built m Hm). apply map_of_members_idem.
Qed.

Lemma decoded_members_idem l :
  decoded_members (map_of_members (decoded_members l))
  = map_of_members (decoded_members l).
Proof.
  apply decoded_members_built. apply Forall_forall. intros kv _. apply decoded_idem.
Qed.

Lemma map_insert_nonempty k v m : map_insert k v m <> [].
Proof.
  destruct m as [|[k' v'] m]; cbn [map_insert]; [discriminate|].
  destruct (String.compare k k'); discriminate.
Qed.

Lemma fold_insert_nonempty l acc :
  acc <> [] -> fold_left (fun m kv => map_insert (fst kv) (snd kv) m) l acc <> [].
Proof.
  revert acc. induction l as [|[k v] l IH]; intros acc Hacc; [exact Hacc|].
  cbn [fold_left]. apply IH. apply map_insert_nonempty.
Qed.

Lemma map_of_members_nonempty l : l <> [] -> map_of_members l <> [].
Proof.
  destruct l as [|[k v] l]; [congruence|]. intros _.
  unfold map_of_members. cbn [fold_left]. apply fold_insert_nonempty.
  apply map_insert_nonempty.
Qed.

Lemma map_insert_forallb (P : string * Value -> bool) k v m :
  P (k, v) = true -> forallb P m = true -> forallb P (map_insert k v m) = true.
Proof.
  intros Hkv. induction m as [|[k' v'] m IH]; intros Hm; cbn [map_insert].
  - cbn. now rewrite Hkv.
  - cbn [forallb] in Hm. apply andb_true_iff in Hm. destruct Hm as [Hh Ht].
    destruct (String.compare k k'); cbn [forallb].
    + now rewrite Hkv, Ht.
    + now rewrite Hkv, Hh, Ht.
    + now rewrite Hh, (IH Ht).
Qed.

Lemma map_of_members_forallb (P : string * Value -> bool) l :
  forallb P l = true -> forallb P (map_of_members l) = true.
Proof.
  unfold map_of_members.
  assert (H : forall acc, forallb P acc = true -> forallb P l = true ->
            forallb P (fold_left (fun m kv => map_insert (fst kv) (snd kv) m) l acc)
            = true).
  { induction l as [|[k v] l IH]; intros acc Hacc Hl; [exact Hacc|].
    cbn [forallb] in Hl. apply andb_true_iff in Hl. destruct Hl as [Hh Ht].
    cbn [fold_left fst snd]. apply IH; [|exact Ht].
    apply map_insert_forallb; assumption. }
  apply H. reflexivity.
Qed.

(** The decoded form of a value with an encoding has an encoding. *)
Lemma serializable_decoded v : serializable v = true -> serializable (decoded v) = true.
Proof.
  induction v as [| b | n | n | s | l Hl | m Hm |] using Value_ind'; intros Hs;
    try reflexivity; try discriminate.
  - cbn [decoded serializable] in *.
    induction Hl as [|v vs Hv _ IH]; [reflexivity|].
    cbn [forallb] in Hs. apply andb_true_iff in Hs. destruct Hs as [Hsv Hsvs].
    cbn [List.map forallb]. now rewrite (Hv Hsv), (IH Hsvs).
  - cbn [decoded serializable] in *. apply map_of_members_forallb.
    induction Hm as [|[k v] ms Hv _ IH]; [reflexivity|].
    cbn [forallb] in Hs. apply andb_true_iff in Hs. destruct Hs as [Hsv Hsvs].
    cbn [List.map forallb]. cbn [snd] in Hv. now rewrite (Hv Hsv), (IH Hsvs).
Qed.

Lemma stored_metadata_idem m : stored_metadata (stored_metadata m) = stored_metadata m.
Proof.
  unfold stored_metadata.
  destruct (Nat.ltb_spec 0 (len m)) as [Hpos|Hle]; [|reflexivity].
  assert (Hne : elements m <> []).
  { destruct m as [[|x l]|]; cbn in Hpos; try lia. discriminate. }
  assert (Hne' : map_of_members (decoded_members (elements m)) <> []).
  { apply map_of_members_nonempty. unfold decoded_members.
    destruct (elements m); [congruence | discriminate]. }
  cbn [len elements].
  destruct (map_of_members (decoded_members (elements m))) as [|x l] eqn:HX;
    [congruence|].
  cbn [List.length Nat.ltb Nat.leb]. rewrite <- HX.
  rewrite decoded_members_idem, map_of_members_idem.
  reflexivity.
Qed.

Lemma stored_metadata_serializable m :
  serializable (Map (elements m)) = true ->
  serializable (Map (elements (stored_metadata m))) = true.
Proof.
  intros Hs. unfold stored_metadata.
  destruct (0 <? len m)%nat; [|reflexivity].
  cbn [elements]. exact (serializable_decoded (Map (elements m)) Hs).
Qed.

(** What [toThing] makes of the row [toDBThing] made. *)
Lemma toThing_after_toDBThing th d :
  toDBThing th = (d, None) ->
  toThing d
  = (things.mkThing (things.ID th) (things.Owner th) (things.Name th)
                    (things.Key th) (stored_metadata (things.Metadata th)), None).
Proof.
  intros Hd. unfold stored_metadata.
  destruct (Nat.ltb_spec 0 (len (things.Metadata th))) as [Hpos|Hle].
  - rewrite (toDBThing_nonempty th Hpos) in Hd.
    destruct (Marshal (elements (things.Metadata th))) as [b [e|]] eqn:Hb;
      [discriminate|].
    injection Hd as <-. unfold toThing. cbn [Metadata ID Owner Name Key].
    rewrite (Unmarshal_Marshal _ _ Hb). reflexivity.
  - assert (Hz : len (things.Metadata th) = 0) by lia.
    rewrite (toDBThing_empty th Hz) in Hd. injection Hd as <-. reflexivity.
Qed.

Lemma toDBThing_returns th :
  toDBThing th
  = if serializable (Map (elements (things.Metadata th)))
    then (mkDbThing (things.ID th) (things.Owner th) (things.Name th) (things.Key th)
                    (if (0 <? len (things.Metadata th))%nat
                     then fst (Marshal (elements (things.Metadata th))) else "{}"),
          None)
    else (dbThing_zero,
          Some (Custom things.ErrMalformedEntity
                  (Some (JSONError UnsupportedTypeError)))).
Proof.
  pose proof (Marshal_error (elements (things.Metadata th))) as Hm.
  destruct (Nat.ltb_spec 0 (len (things.Metadata th))) as [Hpos|Hle].
  - rewrite (toDBThing_nonempty th Hpos).
    destruct (Marshal (elements (things.Metadata th))) as [b e]. cbn [fst snd] in *.
    subst e. destruct (serializable (Map (elements (things.Metadata th))));
      reflexivity.
  - assert (Hz : len (things.Metadata th) = 0) by lia.
    rewrite (toDBThing_empty th Hz).
    replace (elements (things.Metadata th)) with (@nil (string * Value)).
    + reflexivity.
    + destruct (things.Metadata th) as [[|x l]|]; cbn in Hz; try reflexivity. lia.
Qed.

End MoreJSONFacts.

Lemma toDBThing_ok th d : toDBThing th = (d, None) -> encodable th = true.
Proof.
  unfold encodable. rewrite (toDBThing_returns th).
  destruct (roundtrip.serializable (json.Map (elements (things.Metadata th))));
    [reflexivity | discriminate].
Qed.

Lemma toDBThing_unencodable th :
  encodable th = false ->
  toDBThing th
  = (dbThing_zero,
     Some (Custom things.ErrMalformedEntity
             (Some (JSONError json.UnsupportedTypeError)))).
Proof. unfold encodable. intros He. rewrite (toDBThing_returns th), He. reflexivity. Qed.

Lemma toDBThing_encodable th :
  encodable th = true -> exists d, toDBThing th = (d, None).
Proof.
  unfold encodable. intros He. rewrite (toDBThing_returns th), He. eauto.
Qed.

(** X1. [toDBThing] succeeds exactly on the Things whose metadata holds no
    channel.  On any other Thing it returns the zero row and
    MalformedEntity wrapping the encoder's unsupported-type error; when it
    succeeds the row carries the ID, Owner, Name and Key of the Thing. *)
Theorem toDBThing_fails_iff_unencodable (th : things.Thing) :
  (snd (toDBThing th) = None <-> encodable th = true)
  /\ (encodable th = false ->
      toDBThing th
      = (dbThing_zero,
         Some (Custom things.ErrMalformedEntity
                 (Some (JSONError json.UnsupportedTypeError)))))
  /\ (forall d, toDBThing th = (d, None) ->
        ID d = things.ID th /\ Owner d = things.Owner th
        /\ Name d = things.Name th /\ Key d = things.Key th).
Proof.
  split; [|split].
  - split.
    + destruct (toDBThing th) as [d e] eqn:Hd. cbn [snd]. intros ->.
      exact (toDBThing_ok th d Hd).
    + intros He. destruct (toDBThing_encodable th He) as [d ->]. reflexivity.
  - apply toDBThing_unencodable.
  - intros d Hd. rewrite (toDBThing_returns th) in Hd.
    pose proof (toDBThing_ok th d) as Hok. unfold encodable in Hok.
    destruct (roundtrip.serializable (json.Map (elements (things.Metadata th))));
      [|discriminate].
    injection Hd as <-. repeat split; reflexivity.
Qed.

Lemma toDBThing_fails_iff_unencodable_witness :
  toDBThing example.broken
  = (dbThing_zero,
     Some (Custom things.ErrMalformedEntity
             (Some (JSONError json.UnsupportedTypeError))))
  /\ Name (fst (toDBThing example.sensor)) = "sensor".
Proof.
  split.
  - apply (proj1 (proj2 (toDBThing_fails_iff_unencodable example.broken))).
    reflexivity.
  - apply (proj2 (proj2 (toDBThing_fails_iff_unencodable example.sensor))
                 (fst (toDBThing example.sensor)) eq_refl).
Defined.

(** X2. [toThing] on a row whose metadata column holds the document that
    the encoder writes for a value within the scope of the model
    ([modelled]: nil, a bool, an int, a float64 holding an integer up to
    2^53, a string, a slice or a map of such, nested no deeper than 10000
    levels): the document of a map gives the Thing with
    the decoded mapping, the document [null] the Thing with nil metadata
    and no error, and the document of anything else (a slice, a number, a
    string, a boolean) the zero Thing with MalformedEntity wrapping the
    decoder's type error. *)
Theorem toThing_of_document (d : dbThing) (v : json.Value) :
  roundtrip.modelled v = true ->
  json.encode v = Some (Metadata d) ->
  toThing d
  = match roundtrip.decoded v with
    | json.Map m =>
        (things.mkThing (ID d) (Owner d) (Name d) (Key d) (Some m), None)
    | json.Nil =>
        (things.mkThing (ID d) (Owner d) (Name d) (Key d) None, None)
    | _ =>
        (Thing_zero,
         Some (Custom things.ErrMalformedEntity
                 (Some (JSONError json.UnmarshalTypeError))))
    end.
Proof.
  intros _ Hb. unfold toThing, json.Unmarshal.
  pose proof (decode_encode v (Metadata d) Hb (S (String.length (Metadata d))) "")
    as Hdec.
  rewrite append_nil_r in Hdec. rewrite Hdec.
  - cbn [json.skip_space]. destruct (roundtrip.decoded v); reflexivity.
  - pose proof (bound_le_length _ _ Hb). lia.
  - exact I.
Qed.

(** The document of a slice, the document [null], and the document of a
    map whose integer no [float64] holds. *)
Lemma toThing_of_document_witness :
  toThing (mkDbThing "id" "alice" "lamp" "key" "[1,null]")
  = (Thing_zero,
     Some (Custom things.ErrMalformedEntity
             (Some (JSONError json.UnmarshalTypeError))))
  /\ toThing (mkDbThing "id" "alice" "lamp" "key" "null")
     = (things.mkThing "id" "alice" "lamp" "key" None, None)
  /\ toThing (mkDbThing "id" "alice" "lamp" "key"
                        ("{" ++ json.quote "n" ++ ":9007199254740993}"))
     = (things.mkThing "id" "alice" "lamp" "key"
                       (Some [("n", json.Float64 9007199254740992)]), None).
Proof.
  split; [|split].
  - apply (toThing_of_document (mkDbThing "id" "alice" "lamp" "key" "[1,null]")
             (json.Slice [json.Int 1; json.Nil])); reflexivity.
  - apply (toThing_of_document (mkDbThing "id" "alice" "lamp" "key" "null") json.Nil);
      reflexivity.
  - apply (toThing_of_document
             (mkDbThing "id" "alice" "lamp" "key"
                        ("{" ++ json.quote "n" ++ ":9007199254740993}"))
             (json.Map [("n", json.Int 9007199254740993)])); reflexivity.
Defined.

(** X3. The codec round trip is idempotent: a Thing that came out of
    [toThing] after [toDBThing] encodes again, and comes back from a
    second round trip unchanged. *)
Theorem codec_roundtrip_idempotent (th th' : things.Thing) (d : dbThing) :
  toDBThing th = (d, None) ->
  toThing d = (th', None) ->
  exists d', toDBThing th' = (d', None) /\ toThing d' = (th', None).
Proof.
  intros Hd Hth. rewrite (toThing_after_toDBThing th d Hd) in Hth.
  injection Hth as <-.
  pose proof (toDBThing_ok th d Hd) as Henc. unfold encodable in Henc.
  apply stored_metadata_serializable in Henc.
  destruct (toDBThing_encodable
              (things.mkThing (things.ID th) (things.Owner th) (things.Name th)
                 (things.Key th) (stored_metadata (things.Metadata th))) Henc)
    as [d' Hd'].
  exists d'. split; [exact Hd'|].
  rewrite (toThing_after_toDBThing _ d' Hd'). cbn [things.ID things.Owner things.Name things.Key things.Metadata].
  rewrite stored_metadata_idem. reflexivity.
Qed.

Lemma codec_roundtrip_idempotent_witness :
  exists d',
    toDBThing (fst (toThing (fst (toDBThing example.counter)))) = (d', None)
    /\ toThing d' = (fst (toThing (fst (toDBThing example.counter))), None).
Proof.
  apply (codec_roundtrip_idempotent example.counter _
           (fst (toDBThing example.counter))); reflexivity.
Defined.

(** * Further properties of the reads *)

Lemma StructScan_keeps_Owner cols : forall d d',
  has_column "owner" cols = false ->
  StructScan cols d = (d', None) -> Owner d' = Owner d.
Proof.
  induction cols as [|[name a] cols IH]; intros d d' Hno Hscan.
  - injection Hscan as <-. reflexivity.
  - cbn [has_column existsb fst] in Hno. apply orb_false_iff in Hno.
    destruct Hno as [Hname Hno]. cbn [StructScan] in Hscan. cbv zeta in Hscan.
    destruct (String.eqb name "id");
      [|rewrite Hname in Hscan; destruct (String.eqb name "name");
        [|destruct (String.eqb name "key");
          [|destruct (String.eqb name "metadata"); [|discriminate]]]].
    all: match type of Hscan with
         | match ?x with inl _ => _ | inr _ => _ end = _ =>
             destruct x as [s|e]; [|discriminate]
         end;
         rewrite (IH _ _ Hno Hscan); reflexivity.
Qed.

Lemma toThing_fields d th :
  toThing d = (th, None) ->
  things.ID th = ID d /\ things.Owner th = Owner d
  /\ things.Name th = Name d /\ things.Key th = Key d.
Proof.
  unfold toThing. destruct (json.Unmarshal (Metadata d)) as [m [e|]];
    [discriminate|].
  intros [= <-]. repeat split; reflexivity.
Qed.

Lemma scanRows_rows owner rows : forall items out,
  scanRows owner rows items = (out, None) ->
  exists ths,
    Forall2 (row_thing owner) rows ths
    /\ out = match rows with
             | [] => items
             | _ => Some (elements items ++ ths)%list
             end.
Proof.
  induction rows as [|cols rows IH]; intros items out Hscan.
  - injection Hscan as <-. exists []. split; [constructor | reflexivity].
  - cbn [scanRows] in Hscan.
    destruct (StructScan cols (mkDbThing "" owner "" "" "")) as [d [e|]] eqn:Hd;
      [discriminate|].
    destruct (toThing d) as [th [e|]] eqn:Hth; [discriminate|].
    destruct (IH _ _ Hscan) as (ths & Hall & Hout).
    exists (th :: ths). split.
    + constructor; [exists d; split; assumption | exact Hall].
    + rewrite Hout. destruct rows as [|c r].
      * inversion Hall; subst. reflexivity.
      * unfold append. cbn [elements]. rewrite <- List.app_assoc. reflexivity.
Qed.

Lemma row_thing_owner owner cols th :
  row_thing owner cols th -> has_column "owner" cols = false ->
  things.Owner th = owner.
Proof.
  intros (d & Hd & Hth) Hno.
  destruct (toThing_fields d th Hth) as (_ & -> & _).
  rewrite (StructScan_keeps_Owner cols _ _ Hno Hd). reflexivity.
Qed.

Lemma scanRows_page owner rows out :
  scanRows owner rows None = (out, None) ->
  exists ths, Forall2 (row_thing owner) rows ths /\ out = page_things rows ths.
Proof.
  intros Hscan. destruct (scanRows_rows owner rows None out Hscan) as (ths & Hall & ->).
  exists ths. split; [exact Hall|]. destruct rows; reflexivity.
Qed.

Lemma kind_in_wrap k c ks : In k ks -> kind_in (Some (Custom k c)) ks.
Proof. intros Hin. right. exists k. split; [reflexivity | exact Hin]. Qed.

Lemma kind_in_nil ks : kind_in None ks.
Proof. left. reflexivity. Qed.

Lemma kind_in_incl e ks ks' : incl ks ks' -> kind_in e ks -> kind_in e ks'.
Proof.
  intros Hincl [->|(k & Hk & Hin)]; [left; reflexivity|].
  right. exists k. split; [exact Hk | exact (Hincl k Hin)].
Qed.

Section Kinds.
Context {DB : Type} `{Database DB}.

Lemma Save_kind_in ths db :
  kind_in (snd (fst (Save ths db)))
          [things.ErrMalformedEntity; things.ErrConflict; things.ErrCreateEntity].
Proof.
  destruct (Save_commits_or_fails ths db) as [(db' & _ & ->)|(f & db1 & Hf)].
  - apply kind_in_nil.
  - destruct (Save_fails_returns _ _ _ _ Hf) as [-> _]. cbn [fst snd].
    apply kind_in_wrap.
    destruct f as [e|e|e|e]; cbn [Save_kind]; try (cbn; tauto).
    destruct e; try (cbn; tauto).
    destruct (String.eqb name errInvalid); [cbn; tauto|].
    destruct (String.eqb name errTruncation); [cbn; tauto|].
    destruct (String.eqb name errDuplicate); cbn; tauto.
Qed.

Lemma Update_kind_in t db :
  kind_in (fst (Update t db))
          [things.ErrMalformedEntity; things.ErrUpdateEntity; things.ErrNotFound].
Proof.
  unfold Update. destruct (toDBThing t) as [d [e|]].
  - apply kind_in_wrap. cbn; tauto.
  - destruct (NamedExecContext updateThing d db) as [[[[cnt errdb]]|e] db'].
    + cbn [RowsAffected]. destruct (cnt =? 0)%Z;
        [apply kind_in_wrap; cbn; tauto | apply kind_in_nil].
    + destruct (asPqError e) as [name|]; [|apply kind_in_wrap; cbn; tauto].
      destruct (String.eqb name errInvalid || String.eqb name errTruncation);
        apply kind_in_wrap; cbn; tauto.
Qed.

Lemma RetrieveByID_kind_in owner id db :
  kind_in (snd (fst (RetrieveByID owner id db)))
          [things.ErrNotFound; things.ErrSelectEntity; things.ErrMalformedEntity].
Proof.
  unfold RetrieveByID.
  destruct (QueryRowxContext selectThing [ArgString id; ArgString owner] db)
    as [row db'].
  match goal with
  | |- context [let (dbth, err) := ?s in _] => destruct s as [d [e|]]
  end.
  - match goal with
    | |- context [if ?b then _ else _] => destruct b
    end; apply kind_in_wrap; cbn; tauto.
  - cbn [fst snd]. unfold toThing.
    destruct (json.Unmarshal (Metadata d)) as [m [je|]];
      [apply kind_in_wrap; cbn; tauto | apply kind_in_nil].
Qed.

Lemma RetrieveByKey_kind_in key db :
  kind_in (snd (fst (RetrieveByKey key db)))
          [things.ErrNotFound; things.ErrSelectEntity].
Proof.
  unfold RetrieveByKey.
  destruct (QueryRowxContext selectThingID [ArgString key] db) as [row db'].
  match goal with
  | |- context [let (id, err) := ?s in _] => destruct s as [i [e|]]
  end.
  - match goal with
    | |- context [if ?b then _ else _] => destruct b
    end; apply kind_in_wrap; cbn; tauto.
  - apply kind_in_nil.
Qed.

Lemma scanRows_kind_in owner rows items :
  kind_in (snd (scanRows owner rows items))
          [things.ErrSelectEntity; things.ErrViewEntity].
Proof.
  destruct (scanRows owner rows items) as [out err] eqn:Hscan.
  destruct (scanRows_error _ _ _ _ _ Hscan) as [->|[Hs|[Hv _]]]; cbn [snd].
  - apply kind_in_nil.
  - right. eexists. split; [exact Hs | cbn; tauto].
  - right. eexists. split; [exact Hv | cbn; tauto].
Qed.

Lemma RetrieveAll_kind_in owner offset limit name tm db :
  kind_in (snd (fst (RetrieveAll owner offset limit name tm db)))
          [things.ErrSelectEntity; things.ErrViewEntity].
Proof.
  unfold RetrieveAll. destruct (getNameQuery name) as [nq name'].
  destruct (getMetadataQuery tm) as [[m mq] [e|]];
    [apply kind_in_wrap; cbn; tauto|].
  destruct (NamedQueryContext (selectPage mq nq)
              (pageParams owner limit offset name' m) db) as [[rows|e] db1];
    [|apply kind_in_wrap; cbn; tauto].
  pose proof (scanRows_kind_in owner rows None) as Hk.
  destruct (scanRows owner rows None) as [items [e|]]; [exact Hk|].
  destruct (total (countPage nq mq) (pageParams owner limit offset name' m) db1)
    as [[n [e|]] db2]; [apply kind_in_wrap; cbn; tauto | apply kind_in_nil].
Qed.

Lemma RetrieveByChannel_kind_in owner channel offset limit connected db :
  kind_in (snd (fst (RetrieveByChannel owner channel offset limit connected db)))
          [things.ErrNotFound; things.ErrSelectEntity; things.ErrViewEntity].
Proof.
  unfold RetrieveByChannel.
  destruct (uuid.FromString channel); [apply kind_in_wrap; cbn; tauto|].
  destruct connected.
  all: match goal with
       | |- context [NamedQueryContext ?q ?p ?d] =>
           destruct (NamedQueryContext q p d) as [[rows|e] db1];
             [|apply kind_in_wrap; cbn; tauto]
       end;
       pose proof (scanRows_kind_in owner rows None) as Hk;
       destruct (scanRows owner rows None) as [items [e|]];
         [eapply kind_in_incl; [|exact Hk]; intros k Hin; cbn in *; tauto|];
       match goal with
       | |- context [GetContext ?q ?a ?d] =>
           destruct (GetContext q a d) as [[n|e] db2];
             [apply kind_in_nil | apply kind_in_wrap; cbn; tauto]
       end.
Qed.

Lemma UpdateKey_kind_in owner id key db :
  kind_in (fst (UpdateKey owner id key db))
          [things.ErrMalformedEntity; things.ErrConflict;
           things.ErrUpdateEntity; things.ErrNotFound].
Proof.
  unfold UpdateKey.
  destruct (NamedExecContext updateThingKey (mkDbThing id owner "" key "") db)
    as [[[[cnt [e|]]]|e] db']; cbn [RowsAffected].
  - apply kind_in_wrap; cbn; tauto.
  - destruct (cnt =? 0)%Z; [apply kind_in_wrap; cbn; tauto | apply kind_in_nil].
  - destruct (asPqError e) as [name|]; [|apply kind_in_wrap; cbn; tauto].
    destruct (String.eqb name errInvalid); [apply kind_in_wrap; cbn; tauto|].
    destruct (String.eqb name errDuplicate); apply kind_in_wrap; cbn; tauto.
Qed.

Lemma Remove_kind_in owner id db :
  kind_in (fst (Remove owner id db)) [things.ErrRemoveEntity].
Proof.
  rewrite Remove_returns. cbn [fst].
  destruct (fst (NamedExecContext deleteThing (mkDbThing id owner "" "" "") db));
    [apply kind_in_nil | apply kind_in_wrap; cbn; tauto].
Qed.

End Kinds.

(** X4. [RetrieveByID] reads back what [toDBThing] wrote: for a Thing
    whose metadata is within the scope of the model ([modelled]), when the
    store answers the query for the Thing's ID and Owner with the name,
    key and metadata of the row [toDBThing] made of that Thing,
    [RetrieveByID] returns the Thing with the same ID, Owner, Name and Key
    and with the metadata in its stored form (the empty mapping for an
    empty or nil one, the decoded mapping otherwise: ints as the nearest
    float64, strings made well-formed UTF-8), and no error. *)
Theorem RetrieveByID_reads_back {DB : Type} `{Database DB}
        (th : things.Thing) (d : dbThing) (db db' : DB) :
  roundtrip.modelled (json.Map (elements (things.Metadata th))) = true ->
  toDBThing th = (d, None) ->
  QueryRowxContext selectThing
    [ArgString (things.ID th); ArgString (things.Owner th)] db
  = (inl [("name", ArgString (Name d)); ("key", ArgString (Key d));
          ("metadata", ArgBytes (Metadata d))], db') ->
  RetrieveByID (things.Owner th) (things.ID th) db
  = ((things.mkThing (things.ID th) (things.Owner th) (things.Name th)
                     (things.Key th) (stored_metadata (things.Metadata th)), None),
     db').
Proof.
  intros _ Hd Hq. unfold RetrieveByID. rewrite Hq.
  pose proof (toThing_after_toDBThing th d Hd) as Hback.
  pose proof (toThing_fields d _ Hback) as (Hid & Howner & _).
  cbn [things.ID things.Owner] in Hid, Howner.
  cbn [StructScan String.eqb Ascii.eqb Bool.eqb scanString scanBytes
       ID Owner Name Key Metadata].
  rewrite Hid, Howner.
  replace (mkDbThing (ID d) (Owner d) (Name d) (Key d) (Metadata d)) with d
    by (destruct d; reflexivity).
  rewrite Hback, <- Hid, <- Howner. reflexivity.
Qed.

(** The Thing whose integer no [float64] holds and whose string is not
    UTF-8, written and read back. *)
Lemma RetrieveByID_reads_back_witness :
  fst (RetrieveByID "alice" "6ba7b814-9dad-11d1-80b4-00c04fd430c8"
         (mock.scripted
            [mock.ReplyRow [("name", ArgString "meter"); ("key", ArgString "key-5");
                            ("metadata",
                             ArgBytes (Metadata (fst (toDBThing example.meter))))]]))
  = (things.mkThing "6ba7b814-9dad-11d1-80b4-00c04fd430c8" "alice" "meter" "key-5"
                    (Some [("n", json.Float64 9007199254740992);
                           ("s", json.Str (String "a" (json.replacement ++ "b")))]),
     None).
Proof.
  assert (Hd : toDBThing example.meter = (fst (toDBThing example.meter), None))
    by reflexivity.
  pose proof (RetrieveByID_reads_back example.meter _
                (mock.scripted
                   [mock.ReplyRow [("name", ArgString "meter");
                                   ("key", ArgString "key-5");
                                   ("metadata", ArgBytes (Metadata (fst (toDBThing example.meter))))]])
                (mock.mkMock []
                   [mock.CallQueryRow selectThing
                      [ArgString "6ba7b814-9dad-11d1-80b4-00c04fd430c8";
                       ArgString "alice"]] 0)
                eq_refl Hd) as Hrun.
  exact (f_equal fst (Hrun eq_refl)).
Defined.

(** X5. [RetrieveByKey] leaves the store as the query left it.  A failed
    query gives the empty id with NotFound when the store found no row
    and SelectEntity for every other error, an invalid text
    representation included; a row of one column that holds a string
    gives that string; a row that does not have exactly one column gives
    the empty id and SelectEntity, the error of [Scan]; and whenever an
    error is returned the id is empty, the kind being NotFound only if
    the store answered that it found no row. *)
Theorem RetrieveByKey_outcome {DB : Type} `{Database DB} (key : string) (db : DB) :
  let q := QueryRowxContext selectThingID [ArgString key] db in
  snd (RetrieveByKey key db) = snd q
  /\ (forall e, fst q = inr e ->
        fst (RetrieveByKey key db)
        = ("", Some (Custom (match e with
                             | ErrNoRows => things.ErrNotFound
                             | _ => things.ErrSelectEntity
                             end) (Some e))))
  /\ (forall name id, fst q = inl [(name, ArgString id)] ->
        fst (RetrieveByKey key db) = (id, None))
  /\ (forall cols, fst q = inl cols -> List.length cols <> 1 ->
        fst (RetrieveByKey key db)
        = ("", Some (Custom things.ErrSelectEntity
                       (Some (DriverError (scan_arity (List.length cols)))))))
  /\ (forall id e, fst (RetrieveByKey key db) = (id, Some e) ->
        id = ""
        /\ (kind (Some e) = Some things.ErrNotFound
            <-> fst q = inr ErrNoRows)).
Proof.
  intros q. subst q. unfold RetrieveByKey.
  destruct (QueryRowxContext selectThingID [ArgString key] db)
    as [[cols|e0] db'] eqn:Hq; cbn [fst snd].
  - assert (Hcols : (exists c a, cols = [(c, a)]) \/ List.length cols <> 1).
    { destruct cols as [|[c a] [|x rest]]; [right; discriminate | left; eauto |
                                           right; discriminate]. }
    destruct Hcols as [(c & a & ->)|Hlen].
    + split; [|split; [|split; [|split]]].
      * destruct (scanString a) as [s|e]; [reflexivity|].
        destruct e; reflexivity.
      * intros e [=].
      * intros name id [= -> ->]. reflexivity.
      * intros cols [= <-] Hlen. now elim Hlen.
      * intros id e. destruct (scanString a) as [s|e'] eqn:Hs; [discriminate|].
        assert (exists msg, e' = DriverError msg) as [msg ->]
          by (destruct a; try discriminate Hs; injection Hs as <-; eauto).
        intros [= <- <-]. split; [reflexivity|]. split; discriminate.
    + assert (Hrun :
        (let (id, err) :=
           match cols with
           | [(_, a)] =>
               match scanString a with
               | inl s => (s, None)
               | inr e => ("", Some e)
               end
           | _ => ("", Some (DriverError (scan_arity (List.length cols))))
           end in
         match err with
         | Some e =>
             if match e with ErrNoRows => true | _ => false end
             then (("", Wrap things.ErrNotFound err), db')
             else (("", Wrap things.ErrSelectEntity err), db')
         | None => ((id, None), db')
         end)
        = (("", Some (Custom things.ErrSelectEntity
                        (Some (DriverError (scan_arity (List.length cols)))))), db')).
      { destruct cols as [|[c a] [|x rest]]; [reflexivity | now elim Hlen | reflexivity]. }
      rewrite Hrun. cbn [fst snd].
      split; [|split; [|split; [|split]]].
      * reflexivity.
      * intros e [=].
      * intros name id [= ->]. now elim Hlen.
      * intros cols' [= <-] _. reflexivity.
      * intros id e [= <- <-]. split; [reflexivity|]. split; discriminate.
  - split; [|split; [|split; [|split]]].
    + destruct e0; reflexivity.
    + intros e [= ->]. destruct e; reflexivity.
    + intros name id [=].
    + intros cols [=].
    + intros id e. destruct e0; intros [= <- <-];
        (split; [reflexivity|]); split; try discriminate; reflexivity.
Qed.

(** A key that is found, a store that fails, and a row of two columns. *)
Lemma RetrieveByKey_outcome_witness :
  fst (RetrieveByKey "key-1"
         (mock.scripted [mock.ReplyRow [("id", ArgString "thing-1")]]))
  = ("thing-1", None)
  /\ fst (RetrieveByKey "key-1"
            (mock.scripted [mock.ReplyError (PqError errInvalid)]))
     = ("", Some (Custom things.ErrSelectEntity (Some (PqError errInvalid))))
  /\ kind (snd (fst (RetrieveByKey "key-1"
                       (mock.scripted
                          [mock.ReplyRow [("id", ArgString "thing-1");
                                          ("owner", ArgString "alice")]]))))
     = Some things.ErrSelectEntity.
Proof.
  split; [|split].
  - destruct (RetrieveByKey_outcome "key-1"
                (mock.scripted [mock.ReplyRow [("id", ArgString "thing-1")]]))
      as (_ & _ & Hfound & _).
    apply (Hfound "id" "thing-1"). reflexivity.
  - destruct (RetrieveByKey_outcome "key-1"
                (mock.scripted [mock.ReplyError (PqError errInvalid)]))
      as (_ & Hfail & _).
    apply (Hfail (PqError errInvalid)). reflexivity.
  - destruct (RetrieveByKey_outcome "key-1"
                (mock.scripted
                   [mock.ReplyRow [("id", ArgString "thing-1");
                                   ("owner", ArgString "alice")]]))
      as (_ & _ & _ & Hcols & _).
    rewrite (Hcols _ eq_refl); [reflexivity | discriminate].
Defined.

(** X6. A page returned by [RetrieveAll]: the Offset and Limit are those
    of the call, the Things are what the loop makes of the rows of the
    page query, one per row and in their order (nil when there is no
    row), and the Total is what the count query gave, run after the page
    query. *)
Theorem RetrieveAll_page {DB : Type} `{Database DB}
        (owner : string) (offset limit : N) (name : string) (tm : gomap)
        (db db' : DB) (page : things.Page) :
  RetrieveAll owner offset limit name tm db = ((page, None), db') ->
  things.Offset page = offset /\ things.Limit page = limit
  /\ exists rows ths db1,
      NamedQueryContext
        (selectPage (snd (fst (getMetadataQuery tm))) (fst (getNameQuery name)))
        (pageParams owner limit offset (snd (getNameQuery name))
                    (fst (fst (getMetadataQuery tm)))) db
      = (inl rows, db1)
      /\ Forall2 (row_thing owner) rows ths
      /\ things.Things page = page_things rows ths
      /\ total (countPage (fst (getNameQuery name)) (snd (fst (getMetadataQuery tm))))
               (pageParams owner limit offset (snd (getNameQuery name))
                           (fst (fst (getMetadataQuery tm)))) db1
         = ((things.Total page, None), db').
Proof.
  unfold RetrieveAll. destruct (getNameQuery name) as [nq name'].
  destruct (getMetadataQuery tm) as [[m mq] [e|]]; [discriminate|].
  cbn [fst snd].
  destruct (NamedQueryContext (selectPage mq nq)
              (pageParams owner limit offset name' m) db) as [[rows|e] db1];
    [|discriminate].
  destruct (scanRows owner rows None) as [items [e|]] eqn:Hscan; [discriminate|].
  destruct (total (countPage nq mq) (pageParams owner limit offset name' m) db1)
    as [[n [e|]] db2] eqn:Htotal; [discriminate|].
  intros [= <- <-]. cbn [things.Offset things.Limit things.Things things.Total].
  split; [reflexivity|]. split; [reflexivity|].
  destruct (scanRows_page owner rows items Hscan) as (ths & Hall & ->).
  exists rows, ths, db1. repeat split; auto.
Qed.

Lemma RetrieveAll_page_witness :
  things.Limit (fst (fst (RetrieveAll "alice" 0 10 "" None sample.one_row))) = 10%N
  /\ exists th,
      things.Things (fst (fst (RetrieveAll "alice" 0 10 "" None sample.one_row)))
      = Some [th].
Proof.
  assert (Hrun : RetrieveAll "alice" 0 10 "" None sample.one_row
                 = ((fst (fst (RetrieveAll "alice" 0 10 "" None sample.one_row)), None),
                    snd (RetrieveAll "alice" 0 10 "" None sample.one_row)))
    by reflexivity.
  destruct (RetrieveAll_page _ _ _ _ _ _ _ _ Hrun)
    as (_ & Hlimit & rows & ths & db1 & Hq & Hall & Hthings & _).
  split; [exact Hlimit|].
  injection Hq as <- _. inversion Hall as [|? th ? ths' _ Hrest]; subst.
  inversion Hrest; subst. exists th. exact Hthings.
Defined.

(** X7. A page returned by [RetrieveByChannel]: the channel identifier
    is a valid UUID, the Offset and Limit are those of the call, the
    Things are what the loop makes of the rows of the query chosen by
    [connected], one per row and in their order, and the Total is what
    [GetContext] gave for the matching count query, run after it. *)
Theorem RetrieveByChannel_page {DB : Type} `{Database DB}
        (owner channel : string) (offset limit : N) (connected : bool)
        (db db' : DB) (page : things.Page) :
  RetrieveByChannel owner channel offset limit connected db = ((page, None), db') ->
  uuid.FromString channel = None
  /\ things.Offset page = offset /\ things.Limit page = limit
  /\ exists rows ths db1,
      NamedQueryContext
        (if connected then selectConnected else selectNotConnected)
        [("owner", ArgString owner); ("channel", ArgString channel);
         ("limit", ArgUint limit); ("offset", ArgUint offset)] db
      = (inl rows, db1)
      /\ Forall2 (row_thing owner) rows ths
      /\ things.Things page = page_things rows ths
      /\ GetContext (if connected then countConnected else countNotConnected)
                    [ArgString owner; ArgString channel] db1
         = (inl (things.Total page), db').
Proof.
  unfold RetrieveByChannel.
  destruct (uuid.FromString channel); [discriminate|].
  destruct connected.
  all: match goal with
       | |- context [NamedQueryContext ?q ?p ?d] =>
           destruct (NamedQueryContext q p d) as [[rows|e] db1] eqn:Hq;
             [|discriminate]
       end;
       match goal with
       | |- context [scanRows ?o ?r None] =>
           destruct (scanRows o r None) as [items [e|]] eqn:Hscan;
             [discriminate|]
       end;
       match goal with
       | |- context [GetContext ?q ?a ?d] =>
           destruct (GetContext q a d) as [[n|e] db2] eqn:Hg; [|discriminate]
       end;
       intros [= <- <-];
       cbn [things.Offset things.Limit things.Things things.Total];
       split; [reflexivity|]; split; [reflexivity|]; split; [reflexivity|];
       destruct (scanRows_page _ _ _ Hscan) as (ths & Hall & ->);
       eexists; eexists; eexists; repeat split; eauto.
Qed.

Lemma RetrieveByChannel_page_witness :
  things.Limit
    (fst (fst (RetrieveByChannel "alice" "6ba7b810-9dad-11d1-80b4-00c04fd430c8"
                 0 10 true sample.one_row_get)))
  = 10%N
  /\ exists th,
      things.Things
        (fst (fst (RetrieveByChannel "alice" "6ba7b810-9dad-11d1-80b4-00c04fd430c8"
                     0 10 true sample.one_row_get)))
      = Some [th].
Proof.
  assert (Hrun :
    RetrieveByChannel "alice" "6ba7b810-9dad-11d1-80b4-00c04fd430c8" 0 10 true
                      sample.one_row_get
    = ((fst (fst (RetrieveByChannel "alice" "6ba7b810-9dad-11d1-80b4-00c04fd430c8"
                    0 10 true sample.one_row_get)), None),
       snd (RetrieveByChannel "alice" "6ba7b810-9dad-11d1-80b4-00c04fd430c8"
              0 10 true sample.one_row_get))) by reflexivity.
  destruct (RetrieveByChannel_page _ _ _ _ _ _ _ _ Hrun)
    as (_ & _ & Hlimit & rows & ths & db1 & Hq & Hall & Hthings & _).
  split; [exact Hlimit|].
  injection Hq as <- _. inversion Hall as [|? th ? ths' _ Hrest]; subst.
  inversion Hrest; subst. exists th. exact Hthings.
Defined.

(** X8. [RetrieveByChannel] returns NotFound for a malformed channel
    identifier, without touching the store and with no cause attached,
    and for nothing else: an error of kind NotFound means the identifier
    was malformed, and every error is NotFound, SelectEntity or
    ViewEntity. *)
Theorem RetrieveByChannel_NotFound_iff {DB : Type} `{Database DB}
        (owner channel : string) (offset limit : N) (connected : bool) (db : DB) :
  (uuid.FromString channel <> None ->
   RetrieveByChannel owner channel offset limit connected db
   = ((Page_zero, Some (Custom things.ErrNotFound None)), db))
  /\ (kind (snd (fst (RetrieveByChannel owner channel offset limit connected db)))
      = Some things.ErrNotFound -> uuid.FromString channel <> None)
  /\ kind_in (snd (fst (RetrieveByChannel owner channel offset limit connected db)))
             [things.ErrNotFound; things.ErrSelectEntity; things.ErrViewEntity].
Proof.
  split; [apply RetrieveByChannel_validates_first|].
  unfold RetrieveByChannel.
  destruct (uuid.FromString channel) as [e|].
  - split; [discriminate|]. right. eexists. split; [reflexivity | cbn; tauto].
  - assert (Hgen : forall q qc,
      let r := match NamedQueryContext q
                       [("owner", ArgString owner); ("channel", ArgString channel);
                        ("limit", ArgUint limit); ("offset", ArgUint offset)] db with
               | (inr err, db) =>
                   ((Page_zero, Wrap things.ErrSelectEntity (Some err)), db)
               | (inl rows, db) =>
                   let (items, err) := scanRows owner rows None in
                   match err with
                   | Some _ => ((Page_zero, err), db)
                   | None =>
                       match GetContext qc [ArgString owner; ArgString channel] db with
                       | (inr err, db) =>
                           ((Page_zero, Wrap things.ErrSelectEntity (Some err)), db)
                       | (inl total, db) =>
                           ((things.mkPage items total offset limit, None), db)
                       end
                   end
               end in
      snd (fst r) = None
      \/ kind (snd (fst r)) = Some things.ErrSelectEntity
      \/ kind (snd (fst r)) = Some things.ErrViewEntity).
    { intros q qc.
      destruct (NamedQueryContext q _ db) as [[rows|e] db1]; cbn zeta.
      - destruct (scanRows owner rows None) as [items [e|]] eqn:Hscan.
        + destruct (scanRows_error _ _ _ _ _ Hscan) as [Hn|[Hs|[Hv _]]];
            [discriminate Hn | right; left; exact Hs | right; right; exact Hv].
        + destruct (GetContext qc _ db1) as [[n|e] db2];
            [left; reflexivity | right; left; reflexivity].
      - right; left; reflexivity. }
    destruct connected.
    + specialize (Hgen selectConnected countConnected). cbv zeta in Hgen.
      split.
      * intros Hk. destruct Hgen as [Hn|[Hs|Hv]]; rewrite ?Hn, ?Hs, ?Hv in Hk;
          discriminate Hk.
      * destruct Hgen as [Hn|[Hs|Hv]]; [left; exact Hn | |];
          right; eexists; (split; [eassumption | cbn; tauto]).
    + specialize (Hgen selectNotConnected countNotConnected). cbv zeta in Hgen.
      split.
      * intros Hk. destruct Hgen as [Hn|[Hs|Hv]]; rewrite ?Hn, ?Hs, ?Hv in Hk;
          discriminate Hk.
      * destruct Hgen as [Hn|[Hs|Hv]]; [left; exact Hn | |];
          right; eexists; (split; [eassumption | cbn; tauto]).
Qed.

Lemma RetrieveByChannel_NotFound_iff_witness :
  RetrieveByChannel "alice" "not-a-uuid" 0 10 false sample.one_row_get
  = ((Page_zero, Some (Custom things.ErrNotFound None)), sample.one_row_get).
Proof.
  apply (proj1 (RetrieveByChannel_NotFound_iff
                  "alice" "not-a-uuid" 0 10 false sample.one_row_get)).
  discriminate.
Defined.

(** X9. The loop over the rows of a listing: when no row has an owner
    column (the listings select id, name, key and metadata), every Thing
    it appends has the owner of the call, and it appends one Thing per
    row. *)
Theorem scanRows_keeps_owner (owner : string) (rows : list Columns)
        (items out : slice things.Thing) :
  scanRows owner rows items = (out, None) ->
  Forall (fun cols => has_column "owner" cols = false) rows ->
  Forall (fun th => things.Owner th = owner) (elements items) ->
  Forall (fun th => things.Owner th = owner) (elements out)
  /\ List.length (elements out) = List.length (elements items) + List.length rows.
Proof.
  intros Hscan Hrows Hitems.
  destruct (scanRows_rows owner rows items out Hscan) as (ths & Hall & ->).
  assert (Hths : Forall (fun th => things.Owner th = owner) ths
                 /\ List.length ths = List.length rows).
  { clear Hscan. induction Hall as [|cols th rows ths Hrow _ IH].
    - split; [constructor | reflexivity].
    - inversion Hrows as [|? ? Hno Hrest]; subst.
      destruct (IH Hrest) as [IH1 IH2]. split.
      + constructor; [exact (row_thing_owner _ _ _ Hrow Hno) | exact IH1].
      + cbn. now rewrite IH2. }
  destruct Hths as [Hown Hlen].
  destruct rows as [|c r].
  - inversion Hall; subst. split; [exact Hitems | cbn; lia].
  - cbn [elements]. split.
    + apply Forall_app. split; assumption.
    + rewrite List.length_app, Hlen. reflexivity.
Qed.

Lemma scanRows_keeps_owner_witness :
  Forall (fun th => things.Owner th = "alice")
         (elements (fst (scanRows "alice" [sample.thing_row; sample.thing_row] None))).
Proof.
  refine (proj1 (scanRows_keeps_owner "alice" [sample.thing_row; sample.thing_row] None
                   (fst (scanRows "alice" [sample.thing_row; sample.thing_row] None))
                   _ _ _)).
  - reflexivity.
  - repeat constructor.
  - constructor.
Defined.

(** * Further properties of the writes *)

Section SaveMore.
Context {DB : Type} `{Database DB}.

Lemma Save_range_stops tx pre th db db1 :
  inserted tx pre db db1 ->
  (snd (toDBThing th) <> None
   \/ exists e db2,
       Tx_NamedExecContext tx insertThing (fst (toDBThing th)) db1 = (inr e, db2)) ->
  exists e db',
    forall rest,
      Save_range tx insertThing (pre ++ th :: rest)%list db = (Some e, db').
Proof.
  intros Hins Hfail.
  destruct (toDBThing th) as [d [e|]] eqn:Hd.
  - exists (Custom things.ErrCreateEntity (Some e)), db1. intros rest.
    rewrite (Save_range_inserted _ _ _ _ _ Hins). cbn [Save_range].
    rewrite Hd. reflexivity.
  - cbn [fst snd] in Hfail. destruct Hfail as [Hne|(e & db2 & Hexec)];
      [now elim Hne|].
    destruct (insert_error_kind tx e db2) as (k & Hk & _).
    exists (Custom k (Some e)), (snd (Tx_Rollback tx db2)). intros rest.
    rewrite (Save_range_inserted _ _ _ _ _ Hins). cbn [Save_range].
    rewrite Hd, Hexec. exact Hk.
Qed.

Lemma inserted_encodable tx ths db db1 :
  inserted tx ths db db1 -> Forall (fun th => encodable th = true) ths.
Proof.
  induction 1 as [|th ths dbth res db db1 db2 Henc _ _ IH]; constructor;
    [exact (toDBThing_ok th dbth Henc) | exact IH].
Qed.

End SaveMore.

(** X10. [Save] stops at the first Thing it cannot encode or insert:
    what comes after that Thing in the batch changes neither the result
    nor the store, and the call fails. *)
Theorem Save_stops_at_first_failure {DB : Type} `{Database DB}
        (pre : list things.Thing) (th : things.Thing)
        (rest rest' : list things.Thing) (db db0 db1 : DB) (tx : Tx) :
  BeginTxx db = (inl tx, db0) ->
  inserted tx pre db0 db1 ->
  (snd (toDBThing th) <> None
   \/ exists e db2,
       Tx_NamedExecContext tx insertThing (fst (toDBThing th)) db1 = (inr e, db2)) ->
  Save (Some (pre ++ th :: rest)%list) db = Save (Some (pre ++ th :: rest')%list) db
  /\ snd (fst (Save (Some (pre ++ th :: rest)%list) db)) <> None.
Proof.
  intros Hb Hins Hfail. unfold Save. rewrite Hb. cbn [elements].
  destruct (Save_range_stops tx pre th db0 db1 Hins Hfail) as (e & db' & Hstop).
  rewrite (Hstop rest), (Hstop rest'). split; [reflexivity | discriminate].
Qed.

Lemma Save_stops_at_first_failure_witness :
  Save (Some ([example.lamp] ++ example.broken :: [example.sensor])%list) (mock.scripted [])
  = Save (Some ([example.lamp] ++ example.broken :: [])%list) (mock.scripted []).
Proof.
  refine (proj1 (Save_stops_at_first_failure [example.lamp] example.broken
                   [example.sensor] [] (mock.scripted []) _ _ 0 eq_refl _ _)).
  - eapply inserted_cons; try reflexivity. apply inserted_nil.
  - left. discriminate.
Defined.

(** X11. A batch that holds a Thing whose metadata does not encode is
    never committed, on any store: [Save] returns the empty slice and an
    error. *)
Theorem Save_unencodable_batch_fails {DB : Type} `{Database DB}
        (ths : slice things.Thing) (db : DB) :
  Exists (fun th => encodable th = false) (elements ths) ->
  (exists e, fst (Save ths db) = (Some [], Some e))
  /\ forall db', ~ Save_commits ths db db'.
Proof.
  intros Hex.
  assert (Hno : forall db', ~ Save_commits ths db db').
  { intros db' (tx & db0 & db1 & _ & Hins & _).
    pose proof (inserted_encodable _ _ _ _ Hins) as Hall.
    rewrite Exists_exists in Hex. destruct Hex as (th & Hin & Hth).
    rewrite Forall_forall in Hall. rewrite (Hall th Hin) in Hth. discriminate. }
  split; [|exact Hno].
  destruct (Save_commits_or_fails ths db) as [(db' & Hc & _)|(f & db1 & Hf)].
  - now elim (Hno db').
  - destruct (Save_fails_returns _ _ _ _ Hf) as [-> _]. eauto.
Qed.

Lemma Save_unencodable_batch_fails_witness :
  exists e,
    fst (Save (Some [example.lamp; example.broken]) (mock.scripted []))
    = (Some [], Some e).
Proof.
  refine (proj1 (Save_unencodable_batch_fails
                   (Some [example.lamp; example.broken]) (mock.scripted []) _)).
  apply Exists_cons_tl. apply Exists_cons_hd. reflexivity.
Defined.

(** X12. [Update] of a Thing whose metadata does not encode sends nothing
    to the store and returns UpdateEntity, wrapping the MalformedEntity
    of [toDBThing]. *)
Theorem Update_unencodable {DB : Type} `{Database DB} (t : things.Thing) (db : DB) :
  encodable t = false ->
  Update t db
  = (Some (Custom things.ErrUpdateEntity
             (Some (Custom things.ErrMalformedEntity
                      (Some (JSONError json.UnsupportedTypeError))))), db).
Proof.
  intros He. unfold Update. rewrite (toDBThing_unencodable t He). reflexivity.
Qed.

Lemma Update_unencodable_witness :
  snd (Update example.broken (mock.scripted [mock.ReplyOK]))
  = mock.scripted [mock.ReplyOK].
Proof.
  rewrite (Update_unencodable example.broken (mock.scripted [mock.ReplyOK]) eq_refl).
  reflexivity.
Defined.

(** X13. [Update] returns nil exactly when the Thing encoded and the
    store executed the statement with a non-zero affected-row count, and
    the bare NotFound exactly when it executed it with a count of zero,
    whatever error came with the count; the store is left as the
    execution left it. *)
Theorem Update_outcome {DB : Type} `{Database DB} (t : things.Thing) (db : DB) :
  (fst (Update t db) = None
   <-> exists d cnt e,
        toDBThing t = (d, None)
        /\ fst (NamedExecContext updateThing d db) = inl (mkResult (cnt, e))
        /\ cnt <> 0%Z)
  /\ (fst (Update t db) = Some (Custom things.ErrNotFound None)
      <-> exists d e,
           toDBThing t = (d, None)
           /\ fst (NamedExecContext updateThing d db) = inl (mkResult (0%Z, e)))
  /\ (forall d, toDBThing t = (d, None) ->
        snd (Update t db) = snd (NamedExecContext updateThing d db)).
Proof.
  unfold Update. destruct (toDBThing t) as [d [e|]].
  - cbn [fst snd]. split; [|split].
    + split; [discriminate|]. intros (d' & cnt & e' & [=] & _).
    + split; [discriminate|]. intros (d' & e' & [=] & _).
    + intros d' [=].
  - destruct (NamedExecContext updateThing d db) as [[[[cnt errdb]]|e] db']
      eqn:Hexec; cbn [fst snd RowsAffected].
    + destruct (Z.eqb_spec cnt 0) as [->|Hne]; cbn [fst snd].
      * split; [|split].
        -- split; [discriminate|].
           intros (d' & c & e' & [= <-] & Hr & Hc). rewrite Hexec in Hr.
           injection Hr as <- _. now elim Hc.
        -- split; [|reflexivity]. intros _. exists d, errdb.
           rewrite Hexec. split; reflexivity.
        -- intros d' [= <-]. rewrite Hexec. reflexivity.
      * split; [|split].
        -- split; [|reflexivity]. intros _. exists d, cnt, errdb.
           rewrite Hexec. split; [reflexivity | split; [reflexivity | exact Hne]].
        -- split; [discriminate|].
           intros (d' & e' & [= <-] & Hr). rewrite Hexec in Hr.
           injection Hr as -> _. now elim Hne.
        -- intros d' [= <-]. rewrite Hexec. reflexivity.
    + assert (Hk : exists k,
        (match asPqError e with
         | Some name =>
             if String.eqb name errInvalid || String.eqb name errTruncation
             then (Wrap things.ErrMalformedEntity (Some e), db')
             else (Wrap things.ErrUpdateEntity (Some e), db')
         | None => (Wrap things.ErrUpdateEntity (Some e), db')
         end) = (Some (Custom k (Some e)), db')).
      { destruct (asPqError e) as [name|]; [|eexists; reflexivity].
        destruct (String.eqb name errInvalid || String.eqb name errTruncation);
          eexists; reflexivity. }
      destruct Hk as (k & ->). cbn [fst snd]. split; [|split].
      * split; [discriminate|].
        intros (d' & c & e' & [= <-] & Hr & _). rewrite Hexec in Hr.
        discriminate Hr.
      * split; [discriminate|].
        intros (d' & e' & [= <-] & Hr). rewrite Hexec in Hr. discriminate Hr.
      * intros d' [= <-]. rewrite Hexec. reflexivity.
Qed.

Lemma Update_outcome_witness :
  fst (Update example.lamp
         (mock.scripted [mock.ReplyResult (mkResult (0%Z, Some example.lost))]))
  = Some (Custom things.ErrNotFound None)
  /\ fst (Update example.lamp
            (mock.scripted [mock.ReplyResult (mkResult (1%Z, Some example.lost))]))
     = None.
Proof.
  split.
  - apply (proj1 (proj2 (Update_outcome example.lamp
             (mock.scripted [mock.ReplyResult (mkResult (0%Z, Some example.lost))])))).
    exists (fst (toDBThing example.lamp)), (Some example.lost).
    split; reflexivity.
  - apply (proj1 (Update_outcome example.lamp
             (mock.scripted [mock.ReplyResult (mkResult (1%Z, Some example.lost))]))).
    exists (fst (toDBThing example.lamp)), 1%Z, (Some example.lost).
    split; [reflexivity | split; [reflexivity | discriminate]].
Defined.

(** X14. [UpdateKey] leaves the store as the execution left it; it
    returns nil exactly when the store executed the statement and
    reported a non-zero count without error, and the bare NotFound
    exactly when it reported a count of zero without error; every error
    is MalformedEntity, Conflict, UpdateEntity or NotFound. *)
Theorem UpdateKey_outcome {DB : Type} `{Database DB}
        (owner id key : string) (db : DB) :
  let r := NamedExecContext updateThingKey (mkDbThing id owner "" key "") db in
  snd (UpdateKey owner id key db) = snd r
  /\ (fst (UpdateKey owner id key db) = None
      <-> exists cnt, fst r = inl (mkResult (cnt, None)) /\ cnt <> 0%Z)
  /\ (fst (UpdateKey owner id key db) = Some (Custom things.ErrNotFound None)
      <-> fst r = inl (mkResult (0%Z, None)))
  /\ kind_in (fst (UpdateKey owner id key db))
             [things.ErrMalformedEntity; things.ErrConflict;
              things.ErrUpdateEntity; things.ErrNotFound].
Proof.
  intros r. subst r. unfold UpdateKey.
  destruct (NamedExecContext updateThingKey (mkDbThing id owner "" key "") db)
    as [[[[cnt [e|]]]|e] db']; cbn [fst snd RowsAffected].
  - split; [reflexivity|]. split; [|split].
    + split; [discriminate|]. intros (c & [=] & _).
    + split; discriminate.
    + right. eexists. split; [reflexivity|]. cbn. tauto.
  - destruct (Z.eqb_spec cnt 0) as [->|Hne].
    + split; [reflexivity|]. split; [|split].
      * split; [discriminate|]. intros (c & [= <-] & Hc). now elim Hc.
      * split; reflexivity.
      * right. eexists. split; [reflexivity|]. cbn. tauto.
    + split; [reflexivity|]. split; [|split].
      * split; [|reflexivity]. intros _. exists cnt. split; [reflexivity | exact Hne].
      * split; [discriminate|]. intros [= ->]. now elim Hne.
      * left. reflexivity.
  - assert (Hk : exists k,
      (match asPqError e with
       | Some name =>
           if String.eqb name errInvalid
           then (Wrap things.ErrMalformedEntity (Some e), db')
           else if String.eqb name errDuplicate
                then (Wrap things.ErrConflict (Some e), db')
                else (Wrap things.ErrUpdateEntity (Some e), db')
       | None => (Wrap things.ErrUpdateEntity (Some e), db')
       end) = (Some (Custom k (Some e)), db')
      /\ In k [things.ErrMalformedEntity; things.ErrConflict;
               things.ErrUpdateEntity; things.ErrNotFound]).
    { destruct (asPqError e) as [name|]; [|eexists; split; [reflexivity | cbn; tauto]].
      destruct (String.eqb name errInvalid);
        [eexists; split; [reflexivity | cbn; tauto]|].
      destruct (String.eqb name errDuplicate);
        eexists; (split; [reflexivity | cbn; tauto]). }
    destruct Hk as (k & -> & Hin). cbn [fst snd].
    split; [reflexivity|]. split; [|split].
    + split; [discriminate|]. intros (c & [=] & _).
    + split; discriminate.
    + right. exists k. split; [reflexivity | exact Hin].
Qed.

Lemma UpdateKey_outcome_witness :
  fst (UpdateKey "alice" "thing-1" "key-9"
         (mock.scripted [mock.ReplyResult (mkResult (0%Z, None))]))
  = Some (Custom things.ErrNotFound None)
  /\ fst (UpdateKey "alice" "thing-1" "key-9"
            (mock.scripted [mock.ReplyResult (mkResult (1%Z, None))]))
     = None.
Proof.
  split.
  - apply (proj1 (proj2 (proj2 (UpdateKey_outcome "alice" "thing-1" "key-9"
             (mock.scripted [mock.ReplyResult (mkResult (0%Z, None))]))))).
    reflexivity.
  - apply (proj1 (proj2 (UpdateKey_outcome "alice" "thing-1" "key-9"
             (mock.scripted [mock.ReplyResult (mkResult (1%Z, None))])))).
    exists 1%Z. split; [reflexivity | discriminate].
Defined.

(** X15. The kinds of error of the repository, on any store: every error
    an operation returns is wrapped in one of the kinds listed for it.
    [Save] never returns NotFound, [Update] never Conflict, the reads
    never a kind of the writes, and [Remove] only RemoveEntity. *)
Theorem repository_error_kinds {DB : Type} `{Database DB} (db : DB) :
  (forall ths,
      kind_in (snd (fst (Save ths db)))
              [things.ErrMalformedEntity; things.ErrConflict; things.ErrCreateEntity])
  /\ (forall t,
        kind_in (fst (Update t db))
                [things.ErrMalformedEntity; things.ErrUpdateEntity; things.ErrNotFound])
  /\ (forall owner id key,
        kind_in (fst (UpdateKey owner id key db))
                [things.ErrMalformedEntity; things.ErrConflict;
                 things.ErrUpdateEntity; things.ErrNotFound])
  /\ (forall owner id,
        kind_in (snd (fst (RetrieveByID owner id db)))
                [things.ErrNotFound; things.ErrSelectEntity; things.ErrMalformedEntity])
  /\ (forall key,
        kind_in (snd (fst (RetrieveByKey key db)))
                [things.ErrNotFound; things.ErrSelectEntity])
  /\ (forall owner offset limit name tm,
        kind_in (snd (fst (RetrieveAll owner offset limit name tm db)))
                [things.ErrSelectEntity; things.ErrViewEntity])
  /\ (forall owner channel offset limit connected,
        kind_in (snd (fst (RetrieveByChannel owner channel offset limit connected db)))
                [things.ErrNotFound; things.ErrSelectEntity; things.ErrViewEntity])
  /\ (forall owner id,
        kind_in (fst (Remove owner id db)) [things.ErrRemoveEntity]).
Proof.
  repeat split; intros.
  - apply Save_kind_in.
  - apply Update_kind_in.
  - apply UpdateKey_kind_in.
  - apply RetrieveByID_kind_in.
  - apply RetrieveByKey_kind_in.
  - apply RetrieveAll_kind_in.
  - apply RetrieveByChannel_kind_in.
  - apply Remove_kind_in.
Qed.
